(** * BasicTS metrics aggregation: a shallow embedding of
      [collect_metrics.py] and of the horizon extraction of
      [wandb_visualize_test_metrics.py], with the properties of the
      reporting engine stated over it.

    The development follows the source top-down:

    - a small model of the Python values the scripts manipulate (strings,
      [int]/[float] numbers with their mixed comparisons, decoded JSON
      documents, exceptions);
    - the directory scan [collect_all_runs], the selection [choose_best],
      the two table printers and [main] of [collect_metrics.py];
    - [collect_horizon_rows] and [main] of
      [wandb_visualize_test_metrics.py];
    - the statements about them. *)

From Stdlib Require Import ZArith QArith List String Ascii Bool Lia.
From Stdlib Require Import SpecFloat DecimalString DecimalN Permutation.
From Stdlib Require Import Sorted.
Import ListNotations.

Local Close Scope Q_scope.
Local Open Scope string_scope.
Local Open Scope list_scope.
Local Open Scope nat_scope.

(* ===================================================================== *)
(** * Exceptions and results *)
(* ===================================================================== *)

(** The exceptions the modelled code can raise, with the message Python
    builds for those whose text reaches a warning line. *)
Inductive exn : Type :=
| AttributeError (msg : string)
| OverflowError
| ZeroDivisionError
| ValueError
| TypeError
| IndexError
| KeyError
| OSError (msg : string).

(** [str(e)] for the exceptions whose text is printed. *)
Definition exn_text (e : exn) : string :=
  match e with
  | AttributeError m => m
  | OSError m => m
  | OverflowError => "int too large to convert to float"
  | ZeroDivisionError => "division by zero"
  | ValueError => "ValueError"
  | TypeError => "TypeError"
  | IndexError => "list index out of range"
  | KeyError => "KeyError"
  end.

Inductive res (A : Type) : Type :=
| Ok (a : A)
| Raise (e : exn).
Arguments Ok {A} a.
Arguments Raise {A} e.

Definition res_bind {A B} (m : res A) (f : A -> res B) : res B :=
  match m with
  | Ok a => f a
  | Raise e => Raise e
  end.

Declare Scope res_scope.
Delimit Scope res_scope with res.
Notation "x <- m ;; k" := (res_bind m (fun x => k))
  (at level 61, m at next level, right associativity) : res_scope.
Local Open Scope res_scope.

(** A monadic left fold: the body of a [for] loop that may raise. *)
Fixpoint res_fold {A S} (f : S -> A -> res S) (l : list A) (s : S) : res S :=
  match l with
  | [] => Ok s
  | x :: l' => s' <- f s x ;; res_fold f l' s'
  end.

(** A monadic map: a comprehension whose element expression may raise. *)
Fixpoint res_map {A B} (f : A -> res B) (l : list A) : res (list B) :=
  match l with
  | [] => Ok []
  | x :: l' => y <- f x ;; ys <- res_map f l' ;; Ok (y :: ys)
  end.

(** [l[i]] and [l[i] = v] on a Python list. *)
Definition list_get {A} (l : list A) (i : nat) : res A :=
  match nth_error l i with
  | Some x => Ok x
  | None => Raise IndexError
  end.

Fixpoint list_set {A} (l : list A) (i : nat) (v : A) : res (list A) :=
  match l, i with
  | [], _ => Raise IndexError
  | _ :: l', O => Ok (v :: l')
  | x :: l', S i' => r <- list_set l' i' v ;; Ok (x :: r)
  end.

(* ===================================================================== *)
(** * Python strings *)
(* ===================================================================== *)

(** A Python [str] is modelled by [string], one [ascii] per character;
    [len] is [String.length]. *)

(** [s.split(sep)] for a one-character separator. *)
Fixpoint split_on (sep : ascii) (s : string) : list string :=
  match s with
  | EmptyString => [EmptyString]
  | String c s' =>
      if Ascii.eqb c sep then EmptyString :: split_on sep s'
      else match split_on sep s' with
           | [] => [String c EmptyString]
           | t :: ts => String c t :: ts
           end
  end.

(** [c * n] for a one-character string [c]. *)
Fixpoint str_repeat (c : ascii) (n : nat) : string :=
  match n with
  | O => EmptyString
  | S n' => String c (str_repeat c n')
  end.

(** [sep.join(l)]. *)
Fixpoint str_join (sep : string) (l : list string) : string :=
  match l with
  | [] => EmptyString
  | [x] => x
  | x :: l' => x ++ sep ++ str_join sep l'
  end.

Definition space : ascii := " "%char.

(** [text.ljust(w)], [text.rjust(w)] and [text.center(w)]: the text is
    returned unchanged when it is already [w] characters or more.  CPython
    centres with [left = marg/2 + (marg & w & 1)]. *)
Definition ljust (text : string) (w : nat) : string :=
  text ++ str_repeat space (w - String.length text).

Definition rjust (text : string) (w : nat) : string :=
  str_repeat space (w - String.length text) ++ text.

Definition center (text : string) (w : nat) : string :=
  let marg := w - String.length text in
  let left := Nat.div2 marg
              + (if Nat.odd marg && Nat.odd w then 1 else 0) in
  str_repeat space left ++ text ++ str_repeat space (marg - left).

(** [os.path.join(dirpath, name)] on a POSIX system, for a relative
    [name]. *)
Fixpoint ends_with_slash (s : string) : bool :=
  match s with
  | EmptyString => false
  | String c EmptyString => Ascii.eqb c "/"%char
  | String _ s' => ends_with_slash s'
  end.

Definition path_join (dirpath name : string) : string :=
  match dirpath with
  | EmptyString => name
  | _ => if ends_with_slash dirpath then dirpath ++ name
         else dirpath ++ "/" ++ name
  end.

(** ** [int(s)] on a string, base ten *)

(** The characters [int] skips as white space around the numeral, among
    the first 256 code points: the C locale's blanks, and the two
    non-ASCII spaces U+0085 and U+00A0. *)
Definition is_space (c : ascii) : bool :=
  let n := nat_of_ascii c in
  ((9 <=? n) && (n <=? 13)) || (n =? 32) || (n =? 133) || (n =? 160).

Fixpoint lstrip (s : string) : string :=
  match s with
  | EmptyString => EmptyString
  | String c s' => if is_space c then lstrip s' else s
  end.

Fixpoint rstrip (s : string) : string :=
  match s with
  | EmptyString => EmptyString
  | String c s' =>
      match rstrip s' with
      | EmptyString => if is_space c then EmptyString else String c EmptyString
      | t => String c t
      end
  end.

Definition digit_val (c : ascii) : option Z :=
  let n := nat_of_ascii c in
  if (48 <=? n) && (n <=? 57) then Some (Z.of_nat (n - 48)) else None.

(** Digits, with single underscores allowed between two digits.
    [prev] tells whether the previous character was a digit. *)
Fixpoint digits_value (acc : Z) (prev : bool) (s : string) : option Z :=
  match s with
  | EmptyString => if prev then Some acc else None
  | String c s' =>
      if Ascii.eqb c "_"%char then
        if prev then digits_value acc false s' else None
      else
        match digit_val c with
        | Some d => digits_value (10 * acc + d)%Z true s'
        | None => None
        end
  end.

(** The digits of a numeral are counted, underscores left out, and a
    numeral of more than 4300 digits is refused: this is
    [sys.int_info.default_max_str_digits], which the scripts do not
    change. *)
Definition max_str_digits : nat := 4300.

Fixpoint count_digits (s : string) : nat :=
  match s with
  | EmptyString => 0
  | String c s' =>
      match digit_val c with
      | Some _ => S (count_digits s')
      | None => count_digits s'
      end
  end.

Definition int_of_digits (t : string) : option Z :=
  if max_str_digits <? count_digits t then None
  else digits_value 0 false t.

(** [int(s)]: [None] stands for the [ValueError]. *)
Definition py_int (s : string) : option Z :=
  match rstrip (lstrip s) with
  | String "+"%char r => int_of_digits r
  | String "-"%char r => option_map Z.opp (int_of_digits r)
  | t => int_of_digits t
  end.

(** [str(n)] for an [int]. *)
Definition str_of_N (n : N) : string :=
  NilZero.string_of_uint (N.to_uint n).

Definition str_of_Z (z : Z) : string :=
  match z with
  | Zneg p => "-" ++ str_of_N (Npos p)
  | _ => str_of_N (Z.to_N z)
  end.

(* ===================================================================== *)
(** * Python numbers *)
(* ===================================================================== *)

(** A Python [float] is an IEEE 754 binary64 number. *)
Definition float : Type := spec_float.
Definition prec : Z := 53.
Definition emax : Z := 1024.

Definition f_inf : float := S754_infinity false.
Definition f_nan : float := S754_nan.
Definition fadd : float -> float -> float := SFadd prec emax.
Definition fmul : float -> float -> float := SFmul prec emax.
Definition fdiv : float -> float -> float := SFdiv prec emax.

(** An integer as an exact (unrounded) mantissa with exponent zero: the
    operand form under which [SFdiv] computes the correctly rounded
    quotient of two integers. *)
Definition Zexact (z : Z) : float :=
  match z with
  | Z0 => S754_zero false
  | Zpos p => S754_finite false p 0
  | Zneg p => S754_finite true p 0
  end.

Definition overflow_check (f : float) : res float :=
  match f with
  | S754_infinity _ => Raise OverflowError
  | _ => Ok f
  end.

(** [float(n)] for an [int]: round to nearest even, [OverflowError] when
    the result does not fit. *)
Definition float_of_int (z : Z) : res float :=
  overflow_check (binary_normalize prec emax z 0 false).

(** The float a decimal literal [n / 10^k] denotes (correctly rounded). *)
Definition float_of_decimal (n : Z) (k : nat) : float :=
  fdiv (Zexact n) (Zexact (10 ^ Z.of_nat k)).

(** The values [isinstance(v, (int, float))] accepts; a [bool] is an
    [int]. *)
Inductive pynum : Type :=
| NInt (z : Z)
| NFloat (f : float).

(** ** Values and comparisons *)

(** The extended reals with NaN: what a number denotes. *)
Inductive xreal : Type :=
| XNaN
| XNegInf
| XFin (q : Q)
| XPosInf.

Definition Q_of_finite (s : bool) (m : positive) (e : Z) : Q :=
  let n := if s then Zneg m else Zpos m in
  match e with
  | Z0 => n # 1
  | Zpos p => (n * Zpos (2 ^ p)) # 1
  | Zneg p => n # (2 ^ p)
  end.

Definition float_value (f : float) : xreal :=
  match f with
  | S754_zero _ => XFin (0 # 1)
  | S754_infinity s => if s then XNegInf else XPosInf
  | S754_nan => XNaN
  | S754_finite s m e => XFin (Q_of_finite s m e)
  end.

Definition num_value (n : pynum) : xreal :=
  match n with
  | NInt z => XFin (z # 1)
  | NFloat f => float_value f
  end.

Definition Qltb (p q : Q) : bool :=
  match Qcompare p q with
  | Lt => true
  | _ => false
  end.

(** [a < b] and [a <= b] on the denoted values: exact on mixed
    [int]/[float] operands, false as soon as one side is NaN. *)
Definition xltb (a b : xreal) : bool :=
  match a, b with
  | XNaN, _ | _, XNaN => false
  | _, XNegInf => false
  | XNegInf, _ => true
  | XPosInf, _ => false
  | XFin _, XPosInf => true
  | XFin p, XFin q => Qltb p q
  end.

Definition xleb (a b : xreal) : bool :=
  match a, b with
  | XNaN, _ | _, XNaN => false
  | XNegInf, _ => true
  | _, XNegInf => false
  | _, XPosInf => true
  | XPosInf, _ => false
  | XFin p, XFin q => Qle_bool p q
  end.

Definition is_nan (a : xreal) : bool :=
  match a with
  | XNaN => true
  | _ => false
  end.

Definition py_lt (a b : pynum) : bool := xltb (num_value a) (num_value b).
Definition py_le (a b : pynum) : bool := xleb (num_value a) (num_value b).

(** ** Arithmetic *)

(** [a + b]. *)
Definition py_add (a b : pynum) : res pynum :=
  match a, b with
  | NInt x, NInt y => Ok (NInt (x + y))
  | NInt x, NFloat g => f <- float_of_int x ;; Ok (NFloat (fadd f g))
  | NFloat f, NInt y => g <- float_of_int y ;; Ok (NFloat (fadd f g))
  | NFloat f, NFloat g => Ok (NFloat (fadd f g))
  end.

(** [sum(l)]: the items are added from left to right, starting from the
    [int] 0, each float addition rounded on its own. *)
Definition py_sum (l : list pynum) : res pynum :=
  res_fold py_add l (NInt 0).

(** [a / n] for an [int] divisor: true division.  Two [int]s give the
    correctly rounded quotient. *)
Definition py_truediv (a : pynum) (n : Z) : res float :=
  if (n =? 0)%Z then Raise ZeroDivisionError
  else
    match a with
    | NInt x => overflow_check (fdiv (Zexact x) (Zexact n))
    | NFloat f => g <- float_of_int n ;; Ok (fdiv f g)
    end.

(** ** Fixed-point formatting: [format(x, ".kf")] *)

Definition digit_char (d : Z) : ascii :=
  ascii_of_nat (48 + Z.to_nat d).

(** The [k] low decimal digits of [n]. *)
Fixpoint frac_digits (k : nat) (n : Z) : string :=
  match k with
  | O => EmptyString
  | S k' => frac_digits k' (n / 10) ++ String (digit_char (n mod 10)) EmptyString
  end.

(** The numeral of [r / 10^k] with [k] digits after the point, [r >= 0]. *)
Definition render_fixed (k : nat) (r : Z) : string :=
  str_of_N (Z.to_N (r / 10 ^ Z.of_nat k))
  ++ match k with
     | O => EmptyString
     | _ => "." ++ frac_digits k r
     end.

(** [n / d] rounded to the nearest integer, ties to even ([n >= 0]). *)
Definition round_half_even (n : Z) (d : positive) : Z :=
  let q := (n / Zpos d)%Z in
  let r := (n mod Zpos d)%Z in
  match (2 * r ?= Zpos d)%Z with
  | Lt => q
  | Gt => (q + 1)%Z
  | Eq => if Z.even q then q else (q + 1)%Z
  end.

(** The magnitude of a finite float, times [10^k], rounded to an integer:
    Python formats the exact binary value, correctly rounded. *)
Definition scaled_round (k : nat) (m : positive) (e : Z) : Z :=
  let q := Q_of_finite false m e in
  round_half_even (Qnum q * 10 ^ Z.of_nat k) (Qden q).

Definition sign_text (s : bool) : string := if s then "-" else EmptyString.

Definition fmt_float (k : nat) (f : float) : string :=
  match f with
  | S754_nan => "nan"
  | S754_infinity s => sign_text s ++ "inf"
  | S754_zero s => sign_text s ++ render_fixed k 0
  | S754_finite s m e => sign_text s ++ render_fixed k (scaled_round k m e)
  end.

(** [f"{x:.kf}"] for a number: an [int] is converted to [float] first. *)
Definition fmt_num (k : nat) (x : pynum) : res string :=
  match x with
  | NInt z => f <- float_of_int z ;; Ok (fmt_float k f)
  | NFloat f => Ok (fmt_float k f)
  end.

(** Recogniser of the numerals [-?d+.d{k}] ([k > 0]). *)
Definition is_digit (c : ascii) : bool :=
  match digit_val c with
  | Some _ => true
  | None => false
  end.

Fixpoint all_digits (s : string) : bool :=
  match s with
  | EmptyString => true
  | String c s' => is_digit c && all_digits s'
  end.

Fixpoint fixed_tail (k : nat) (seen : bool) (s : string) : bool :=
  match s with
  | EmptyString => false
  | String c s' =>
      if Ascii.eqb c "."%char then
        seen && (String.length s' =? k) && all_digits s'
      else is_digit c && fixed_tail k true s'
  end.

Definition is_fixed_decimal (k : nat) (s : string) : bool :=
  match s with
  | String "-"%char s' => fixed_tail k false s'
  | _ => fixed_tail k false s
  end.

(* ===================================================================== *)
(** * Python containers and decoded JSON *)
(* ===================================================================== *)

(** A [dict] keeps its keys in insertion order: an association list in
    which every key occurs once. *)
Definition dict (K V : Type) : Type := list (K * V).

Section Dict.
Context {K V : Type} (eqb : K -> K -> bool).

(** [d.get(k)]. *)
Fixpoint dict_get (d : dict K V) (k : K) : option V :=
  match d with
  | [] => None
  | (k', v) :: d' => if eqb k k' then Some v else dict_get d' k
  end.

(** [d[k] = v]: a present key keeps its position. *)
Fixpoint dict_set (d : dict K V) (k : K) (v : V) : dict K V :=
  match d with
  | [] => [(k, v)]
  | (k', v') :: d' =>
      if eqb k k' then (k', v) :: d' else (k', v') :: dict_set d' k v
  end.

(** [d[k]], raising [KeyError]. *)
Definition dict_item (d : dict K V) (k : K) : res V :=
  match dict_get d k with
  | Some v => Ok v
  | None => Raise KeyError
  end.
End Dict.

(** [d[k].append(x)] on a [defaultdict(list)]. *)
Fixpoint dict_append {K A : Type} (eqb : K -> K -> bool)
    (d : dict K (list A)) (k : K) (x : A) : dict K (list A) :=
  match d with
  | [] => [(k, [x])]
  | (k', xs) :: d' =>
      if eqb k k' then (k', xs ++ [x]) :: d'
      else (k', xs) :: dict_append eqb d' k x
  end.

(** The distinct elements of a list, in order of first occurrence: the
    elements of [set(l)]. *)
Fixpoint dedup (l : list string) : list string :=
  match l with
  | [] => []
  | x :: l' => x :: filter (fun y => negb (String.eqb y x)) (dedup l')
  end.

(** ** [min] and [sorted] with a key *)

Section KeyOrder.
Context {A : Type} {T : Type} (ltb : T -> T -> bool) (key : A -> T).

(** [min(l, key=key)]: the first item is kept until a later one has a
    strictly smaller key. *)
Fixpoint min_from (best : A) (l : list A) : A :=
  match l with
  | [] => best
  | x :: l' =>
      if ltb (key x) (key best) then min_from x l' else min_from best l'
  end.

Definition py_min (l : list A) : res A :=
  match l with
  | [] => Raise ValueError
  | x :: l' => Ok (min_from x l')
  end.

(** [sorted(l, key=key)] and [l.sort(key=key)], as CPython's [list.sort]
    carries them out on a list of fewer than 64 items.  [count_run] finds
    the run the list starts with: if the second item is below the first,
    the longest prefix in which every item is below the one before it,
    which is then reversed; otherwise the longest prefix in which no item
    is below the one before it.  [binarysort] then takes the remaining
    items one by one and puts each in the slot a binary search finds for
    it in the items sorted so far.  Only [<] is used on the keys.

    On a longer list CPython sorts stretches of 32 to 64 items in this
    way and merges them, and from version 3.13 on it looks for the first
    run in another way.  When [<] orders the keys (no key is NaN) the
    result is in every case the one stable ascending arrangement of the
    list, and it is the list computed here; the order of a list with a
    NaN key is only stated below for lists on which these steps are the
    whole of the sort. *)
Fixpoint ascending_run (prev : A) (l : list A) : nat :=
  match l with
  | [] => 0
  | x :: l' =>
      if ltb (key x) (key prev) then 0 else S (ascending_run x l')
  end.

Fixpoint descending_run (prev : A) (l : list A) : nat :=
  match l with
  | [] => 0
  | x :: l' =>
      if ltb (key x) (key prev) then S (descending_run x l') else 0
  end.

(** The length of the run and whether it is descending. *)
Definition count_run (l : list A) : nat * bool :=
  match l with
  | [] => (0, false)
  | x :: l' =>
      match l' with
      | [] => (1, false)
      | y :: l'' =>
          if ltb (key y) (key x) then (2 + descending_run y l'', true)
          else (2 + ascending_run y l'', false)
      end
  end.

(** The slot of [pivot] among the sorted items [a], searched between
    [lo] and [hi]: [p = lo + ((hi - lo) >> 1)], then [hi = p] if the
    pivot is below [a[p]] and [lo = p + 1] otherwise, until they meet. *)
Fixpoint bisect (fuel : nat) (a : list A) (pivot : A) (lo hi : nat) : nat :=
  match fuel with
  | 0 => lo
  | S fuel' =>
      if hi <=? lo then lo
      else
        let p := lo + (hi - lo) / 2 in
        if ltb (key pivot) (key (nth p a pivot))
        then bisect fuel' a pivot lo p
        else bisect fuel' a pivot (S p) hi
  end.

Fixpoint binarysort (a rest : list A) : list A :=
  match rest with
  | [] => a
  | pivot :: rest' =>
      let l := bisect (List.length a) a pivot 0 (List.length a) in
      binarysort (firstn l a ++ pivot :: skipn l a) rest'
  end.

Definition py_sorted (l : list A) : list A :=
  let '(n, descending) := count_run l in
  let run := firstn n l in
  binarysort (if descending then rev run else run) (skipn n l).
End KeyOrder.

(** [sorted(set(l))] for strings. *)
Definition sorted_set (l : list string) : list string :=
  py_sorted String.ltb (fun s => s) (dedup l).

(** ** Decoded JSON documents *)

#[local] Set Warnings "-register-all".
Inductive pyval : Type :=
| PNone
| PBool (b : bool)
| PInt (z : Z)
| PFloat (f : float)
| PStr (s : string)
| PList (items : list pyval)
| PDict (items : list (string * pyval)).

Definition type_name (v : pyval) : string :=
  match v with
  | PNone => "NoneType"
  | PBool _ => "bool"
  | PInt _ => "int"
  | PFloat _ => "float"
  | PStr _ => "str"
  | PList _ => "list"
  | PDict _ => "dict"
  end.

Definition no_attribute (v : pyval) (attr : string) : exn :=
  AttributeError ("'" ++ type_name v ++ "' object has no attribute '"
                  ++ attr ++ "'").

(** [v.get(k, default)]. *)
Definition py_get (v : pyval) (k : string) (default : pyval) : res pyval :=
  match v with
  | PDict items =>
      Ok (match dict_get String.eqb items k with
          | Some x => x
          | None => default
          end)
  | _ => Raise (no_attribute v "get")
  end.

(** [v.items()]. *)
Definition py_items (v : pyval) : res (list (string * pyval)) :=
  match v with
  | PDict items => Ok items
  | _ => Raise (no_attribute v "items")
  end.

(** [isinstance(v, (int, float))], with the number when it holds. *)
Definition as_number (v : pyval) : option pynum :=
  match v with
  | PBool b => Some (NInt (Z.b2z b))
  | PInt z => Some (NInt z)
  | PFloat f => Some (NFloat f)
  | _ => None
  end.

(* ===================================================================== *)
(** * [collect_metrics.py]: scanning and selection *)
(* ===================================================================== *)

(** One step of [os.walk(root_dir)], with what the file system answers
    for the directory: the relative path [os.path.relpath(dirpath,
    root_dir)], the outcome of opening and decoding its
    [test_metrics.json], the file's modification time and that time as
    [strftime] prints it.

    An entry stands for a directory whose result file, when the scripts
    ask for its time, has one that [os.path.getmtime] returns and
    [datetime.fromtimestamp] converts.  Both calls sit outside the [try]
    blocks of the scripts: a file for which one of them raises (a
    dangling link, a time after the year 9999) ends the scan with that
    exception, and such a tree is not described by a list of entries. *)
Inductive file_read : Type :=
| Unreadable (e : exn)
| Parsed (data : pyval).

Record walk_entry : Type := {
  dirpath : string;
  rel_dir : string;
  filenames : list string;
  metrics_file : file_read;
  mtime : float;
  time_str : string
}.

Record run : Type := {
  r_MAE : pyval;
  r_RMSE : pyval;
  r_MAPE : pyval;
  r_path : string;
  r_setting : string;
  r_time : string;
  r_timestamp : float
}.

Definition run_key : Type := (string * string)%type.

Definition key_eqb (a b : run_key) : bool :=
  String.eqb (fst a) (fst b) && String.eqb (snd a) (snd b).

Definition metrics_name : string := "test_metrics.json".
Definition os_sep : ascii := "/"%char.

Definition has_metrics (e : walk_entry) : bool :=
  existsb (String.eqb metrics_name) (filenames e).

(** The body of the [try] block: decode, then read the overall triple
    [(mae, mape, rmse)]. *)
Definition read_overall (fr : file_read) : res (pyval * pyval * pyval) :=
  match fr with
  | Unreadable e => Raise e
  | Parsed data =>
      overall <- py_get data "overall" (PDict []) ;;
      mae <- py_get overall "MAE" PNone ;;
      mape <- py_get overall "MAPE" PNone ;;
      rmse <- py_get overall "RMSE" PNone ;;
      Ok (mae, mape, rmse)
  end.

Definition warn_line (metrics_path : string) (e : exn) : string :=
  "[WARN] 读取 " ++ metrics_path ++ " 失败: " ++ exn_text e.

(** [setting.split("_")[0]]. *)
Definition dataset_of (setting : string) : string :=
  hd EmptyString (split_on "_"%char setting).

(** The scan state: the run repository and the lines written to the
    diagnostic stream. *)
Definition scan_state : Type := (dict run_key (list run) * list string)%type.

(** One iteration of the loop of [collect_all_runs]. *)
Definition collect_step (st : scan_state) (e : walk_entry) : scan_state :=
  let '(all_runs, err) := st in
  if negb (has_metrics e) then st
  else
    let metrics_path := path_join (dirpath e) metrics_name in
    match read_overall (metrics_file e) with
    | Raise ex => (all_runs, err ++ [warn_line metrics_path ex])
    | Ok (mae, mape, rmse) =>
        let parts := split_on os_sep (rel_dir e) in
        if List.length parts <? 2 then st
        else
          match parts with
          | model :: setting :: _ =>
              let dataset := dataset_of setting in
              let key := (model, dataset) in
              (dict_append key_eqb all_runs key
                 {| r_MAE := mae; r_RMSE := rmse; r_MAPE := mape;
                    r_path := metrics_path; r_setting := setting;
                    r_time := time_str e; r_timestamp := mtime e |},
               err)
          | _ => st
          end
    end.

Definition collect_from (st : scan_state) (walk : list walk_entry)
    : scan_state :=
  fold_left collect_step walk st.

Definition collect_all_runs (walk : list walk_entry) : scan_state :=
  collect_from ([], []) walk.

(** [mae_or_inf], the key of both [min] and [sort]. *)
Definition num_or_inf (v : pyval) : pynum :=
  match as_number v with
  | Some n => n
  | None => NFloat f_inf
  end.

Definition mae_or_inf (r : run) : pynum := num_or_inf (r_MAE r).

Definition choose_best (all_runs : dict run_key (list run))
    : res (dict run_key run) :=
  res_fold
    (fun best (item : run_key * list run) =>
       let '(key, runs) := item in
       best_run <- py_min py_lt mae_or_inf runs ;;
       Ok (dict_set key_eqb best key best_run))
    all_runs [].

(* ===================================================================== *)
(** * Console output *)
(* ===================================================================== *)

(** A computation that prints lines to standard output and then returns
    or raises; the lines printed before an exception stay printed.  The
    stream takes every line: an output that [print] cannot encode or
    write is not modelled. *)
Definition io (A : Type) : Type := (list string * res A)%type.

Definition io_ret {A} (a : A) : io A := ([], Ok a).

Definition io_bind {A B} (m : io A) (f : A -> io B) : io B :=
  match m with
  | (out, Ok a) => let '(out', r) := f a in (out ++ out', r)
  | (out, Raise e) => (out, Raise e)
  end.

Definition io_print (line : string) : io unit := ([line], Ok tt).

Definition io_lift {A} (r : res A) : io A := ([], r).

Declare Scope io_scope.
Delimit Scope io_scope with io.
Notation "x <-- m ;; k" := (io_bind m (fun x => k))
  (at level 61, m at next level, right associativity) : io_scope.
Notation "m ;;; k" := (io_bind m (fun _ => k))
  (at level 61, right associativity) : io_scope.
Local Open Scope io_scope.

(** A [for] loop whose body prints. *)
Fixpoint io_for {A} (l : list A) (body : A -> io unit) : io unit :=
  match l with
  | [] => io_ret tt
  | x :: l' => body x ;;; io_for l' body
  end.

(* ===================================================================== *)
(** * The table renderer shared by both printers *)
(* ===================================================================== *)

Inductive align : Type := AlignLeft | AlignRight | AlignCenter.

(** The [aligns] argument of [format_row]: one tag for every cell, or a
    list indexed like the cells. *)
Inductive aligns : Type :=
| AlignAll (a : align)
| AlignEach (l : list align).

Definition border_line (col_widths : list nat) : string :=
  "+" ++ str_join "+" (map (fun w => str_repeat "-"%char (w + 2)) col_widths)
      ++ "+".

Definition pad (a : align) (text : string) (w : nat) : string :=
  match a with
  | AlignLeft => ljust text w
  | AlignRight => rjust text w
  | AlignCenter => center text w
  end.

(** The loop of [format_row], from cell number [i] on. *)
Fixpoint format_cells (col_widths : list nat) (al : aligns) (i : nat)
    (cells : list string) (row : string) : res string :=
  match cells with
  | [] => Ok row
  | text :: rest =>
      w <- list_get col_widths i ;;
      a <- match al with
           | AlignAll a => Ok a
           | AlignEach l => list_get l i
           end ;;
      format_cells col_widths al (S i) rest
        (row ++ " " ++ pad a text w ++ " |")
  end.

Definition format_row (col_widths : list nat) (cells : list string)
    (al : aligns) : res string :=
  format_cells col_widths al 0 cells "|".

(** [col_widths[i] = max(col_widths[i], n)]. *)
Definition bump (col_widths : list nat) (i n : nat) : res (list nat) :=
  old <- list_get col_widths i ;;
  list_set col_widths i (Nat.max old n).

(** [max(g)] over a generator of lengths. *)
Definition py_max_nat (l : list nat) : res nat :=
  match l with
  | [] => Raise ValueError
  | x :: l' => Ok (fold_left Nat.max l' x)
  end.

(* ===================================================================== *)
(** * [collect_metrics.py]: the leaderboard *)
(* ===================================================================== *)

Definition no_results_message : string :=
  "没有在指定目录下找到任何 test_metrics.json".

Definition model_names (best : dict run_key run) : list string :=
  sorted_set (map (fun kv => fst (fst kv)) best).

Definition dataset_names {V} (d : dict run_key V) : list string :=
  sorted_set (map (fun kv => snd (fst kv)) d).

(** [{d: i for i, d in enumerate(datasets)}]. *)
Definition enumerate {A} (l : list A) : list (nat * A) :=
  combine (seq 0 (List.length l)) l.

Definition index_dict (datasets : list string) : dict string nat :=
  fold_left (fun acc (p : nat * string) =>
               dict_set String.eqb acc (snd p) (fst p))
            (enumerate datasets) [].

(** The list [maes] built for model [m]: the numeric MAE of the best run
    of every dataset that has one for [m]. *)
Definition eligible_maes (best : dict run_key run) (datasets : list string)
    (m : string) : list pynum :=
  flat_map
    (fun d =>
       match dict_get key_eqb best (m, d) with
       | None => []
       | Some info =>
           match as_number (r_MAE info) with
           | Some mae => [mae]
           | None => []
           end
       end)
    datasets.

(** [sum(maes) / len(maes)], or infinity for an empty list. *)
Definition avg_mae (maes : list pynum) : res pynum :=
  match maes with
  | [] => Ok (NFloat f_inf)
  | _ =>
      s <- py_sum maes ;;
      q <- py_truediv s (Z.of_nat (List.length maes)) ;;
      Ok (NFloat q)
  end.

Definition model_avg_mae (best : dict run_key run)
    (models datasets : list string) : res (dict string pynum) :=
  res_fold
    (fun acc m =>
       v <- avg_mae (eligible_maes best datasets m) ;;
       Ok (dict_set String.eqb acc m v))
    models [].

(** The sort key [lambda mm: model_avg_mae.get(mm, float("inf"))]. *)
Definition avg_key (avg : dict string pynum) (mm : string) : pynum :=
  match dict_get String.eqb avg mm with
  | Some v => v
  | None => NFloat f_inf
  end.

Definition rank_models (avg : dict string pynum) (models : list string)
    : list string :=
  py_sorted py_lt (avg_key avg) models.

(** The row order of the leaderboard. *)
Definition ranked_models (best : dict run_key run) : res (list string) :=
  let models := model_names best in
  avg <- model_avg_mae best models (dataset_names best) ;;
  Ok (rank_models avg models).

(** [f"{v:.kf}" if isinstance(v, (int, float)) else ""]. *)
Definition fmt_metric (k : nat) (v : pyval) : res string :=
  match as_number v with
  | Some n => fmt_num k n
  | None => Ok EmptyString
  end.

Definition f_100 : float := binary_normalize prec emax 100 0 false.

Definition cell : Type := (string * string * string)%type.

Section Builtins.
(** Two built-ins are left open: [float(s)] on a string ([None] when it
    raises [ValueError]) and [str(v)] on a float, a list or a dict.
    They are reached only by [format_mape] on a MAPE that is not a
    number. *)
Variable float_of_str : string -> option float.
Variable repr_of : pyval -> string.

(** [float(v)]. *)
Definition py_float (v : pyval) : res float :=
  match v with
  | PNone => Raise TypeError
  | PBool b => float_of_int (Z.b2z b)
  | PInt z => float_of_int z
  | PFloat f => Ok f
  | PStr s =>
      match float_of_str s with
      | Some f => Ok f
      | None => Raise ValueError
      end
  | PList _ | PDict _ => Raise TypeError
  end.

(** [str(v)]. *)
Definition py_str (v : pyval) : string :=
  match v with
  | PNone => "None"
  | PBool true => "True"
  | PBool false => "False"
  | PInt z => str_of_Z z
  | PStr s => s
  | PFloat _ | PList _ | PDict _ => repr_of v
  end.

Definition format_mape (mape : pyval) : string :=
  match mape with
  | PNone => EmptyString
  | _ =>
      match py_float mape with
      | Raise _ => py_str mape
      | Ok v =>
          let v := if py_lt (NFloat v) (NInt 1) then fmul v f_100 else v in
          fmt_float 2 v ++ "%"
      end
  end.

(** The three strings of the cell of model [m] and dataset [d]. *)
Definition cell_strings (best : dict run_key run) (m d : string)
    : res cell :=
  match dict_get key_eqb best (m, d) with
  | None => Ok (EmptyString, EmptyString, EmptyString)
  | Some info =>
      mae_s <- fmt_metric 2 (r_MAE info) ;;
      rmse_s <- fmt_metric 2 (r_RMSE info) ;;
      Ok (mae_s, rmse_s, format_mape (r_MAPE info))
  end.

(** The dictionary [values], filled model by model, dataset by
    dataset. *)
Definition cell_values (best : dict run_key run)
    (models datasets : list string) : res (dict run_key cell) :=
  res_fold
    (fun acc m =>
       res_fold
         (fun acc d =>
            c <- cell_strings best m d ;;
            Ok (dict_set key_eqb acc (m, d) c))
         datasets acc)
    models [].

(** The three width updates of one column group. *)
Definition bump_group (d2i : dict string nat) (col_widths : list nat)
    (d : string) (a b c : nat) : res (list nat) :=
  di <- dict_item String.eqb d2i d ;;
  let base := 1 + 3 * di in
  w <- bump col_widths base a ;;
  w <- bump w (base + 1) b ;;
  bump w (base + 2) c.

Definition summary_widths (models datasets : list string)
    (d2i : dict string nat) (values : dict run_key cell)
    : res (list nat) :=
  let num_cols := 1 + 3 * List.length datasets in
  let col_widths := repeat 0 num_cols in
  longest <- py_max_nat (map String.length models) ;;
  col_widths <-
    list_set col_widths 0
      (Nat.max (String.length "Model")
         (Nat.max (String.length "Dataset")
            (Nat.max (String.length "Metric") longest))) ;;
  col_widths <-
    res_fold
      (fun w d =>
         w <- bump_group d2i w d
                (Nat.max (String.length "MAE") (String.length d))
                (String.length "RMSE") (String.length "MAPE") ;;
         Ok w)
      datasets col_widths ;;
  res_fold
    (fun w (item : run_key * cell) =>
       let '((m, d), (mae_s, rmse_s, mape_s)) := item in
       bump_group d2i w d (String.length mae_s) (String.length rmse_s)
         (String.length mape_s))
    values col_widths.

(** The cells of the data row of model [m]. *)
Definition row_cells (values : dict run_key cell) (datasets : list string)
    (m : string) : res (list string) :=
  groups <-
    res_map
      (fun d =>
         c <- dict_item key_eqb values (m, d) ;;
         let '(mae_s, rmse_s, mape_s) := c in
         Ok [mae_s; rmse_s; mape_s])
      datasets ;;
  Ok (m :: List.concat groups).

Definition header1_cells (datasets : list string) : list string :=
  "Dataset" :: flat_map (fun d => [d; EmptyString; EmptyString]) datasets.

Definition header2_cells (datasets : list string) : list string :=
  "Metric" :: flat_map (fun _ => ["MAE"; "RMSE"; "MAPE"]) datasets.

(** Everything [print_summary_table] computes before its first
    [print]. *)
Record summary_layout : Type := {
  sl_models : list string;
  sl_datasets : list string;
  sl_values : dict run_key cell;
  sl_widths : list nat
}.

Definition summary_prepare (best : dict run_key run) : res summary_layout :=
  let models := model_names best in
  let datasets := dataset_names best in
  let d2i := index_dict datasets in
  avg <- model_avg_mae best models datasets ;;
  let models := rank_models avg models in
  values <- cell_values best models datasets ;;
  col_widths <- summary_widths models datasets d2i values ;;
  Ok {| sl_models := models; sl_datasets := datasets;
        sl_values := values; sl_widths := col_widths |}.

Definition print_row (col_widths : list nat) (cells : list string)
    (al : aligns) : io unit :=
  line <-- io_lift (format_row col_widths cells al) ;;
  io_print line.

(** The body of the loop that prints the data rows. *)
Definition print_model_row (sl : summary_layout) (m : string) : io unit :=
  let datasets := sl_datasets sl in
  let num_cols := 1 + 3 * List.length datasets in
  cells <-- io_lift (row_cells (sl_values sl) datasets m) ;;
  print_row (sl_widths sl) cells
    (AlignEach (AlignLeft :: repeat AlignRight (num_cols - 1))).

Definition summary_print (sl : summary_layout) : io unit :=
  let col_widths := sl_widths sl in
  let datasets := sl_datasets sl in
  io_print (border_line col_widths) ;;;
  print_row col_widths (header1_cells datasets) (AlignAll AlignCenter) ;;;
  print_row col_widths (header2_cells datasets) (AlignAll AlignCenter) ;;;
  io_print (border_line col_widths) ;;;
  io_for (sl_models sl) (print_model_row sl) ;;;
  io_print (border_line col_widths).

Definition print_summary_table (best_metrics : dict run_key run)
    : io unit :=
  match best_metrics with
  | [] => io_print no_results_message
  | _ =>
      sl <-- io_lift (summary_prepare best_metrics) ;;
      summary_print sl
  end.
End Builtins.

(* ===================================================================== *)
(** * [collect_metrics.py]: the per-dataset detail tables *)
(* ===================================================================== *)

Record detail_row : Type := {
  d_model : string;
  d_time : string;
  d_timestamp : float;
  d_MAE : pyval;
  d_RMSE : pyval;
  d_MAPE : pyval
}.

Definition detail_of (m : string) (r : run) : detail_row :=
  {| d_model := m; d_time := r_time r; d_timestamp := r_timestamp r;
     d_MAE := r_MAE r; d_RMSE := r_RMSE r; d_MAPE := r_MAPE r |}.

(** The list [rows] gathered for dataset [d], before it is sorted. *)
Definition rows_for (all_runs : dict run_key (list run)) (d : string)
    : list detail_row :=
  flat_map
    (fun (item : run_key * list run) =>
       let '((m, dd), runs) := item in
       if negb (String.eqb dd d) then [] else map (detail_of m) runs)
    all_runs.

Definition row_mae_or_inf (row : detail_row) : pynum := num_or_inf (d_MAE row).

(** [rows.sort(key=mae_or_inf)]. *)
Definition sorted_rows (all_runs : dict run_key (list run)) (d : string)
    : list detail_row :=
  py_sorted py_lt row_mae_or_inf (rows_for all_runs d).

(** A row once its three [_s] strings are filled in. *)
Record shown_row : Type := {
  s_row : detail_row;
  MAE_s : string;
  RMSE_s : string;
  MAPE_s : string
}.

Definition detail_headers : list string :=
  ["Model"; "Time"; "MAE"; "RMSE"; "MAPE"].

Definition detail_aligns : aligns :=
  AlignEach [AlignLeft; AlignLeft; AlignRight; AlignRight; AlignRight].

Definition detail_cells (row : shown_row) : list string :=
  [d_model (s_row row); d_time (s_row row); MAE_s row; RMSE_s row;
   MAPE_s row].

Definition detail_title (d : string) : string := "===== " ++ d ++ " =====".

Definition detail_widths (rows : list shown_row) : res (list nat) :=
  res_fold
    (fun w row =>
       w <- bump w 0 (String.length (d_model (s_row row))) ;;
       w <- bump w 1 (String.length (d_time (s_row row))) ;;
       w <- bump w 2 (String.length (MAE_s row)) ;;
       w <- bump w 3 (String.length (RMSE_s row)) ;;
       bump w 4 (String.length (MAPE_s row)))
    rows (map String.length detail_headers).

Section DetailTables.
Variable float_of_str : string -> option float.
Variable repr_of : pyval -> string.

Definition show_row (row : detail_row) : res shown_row :=
  mae_s <- fmt_metric 4 (d_MAE row) ;;
  rmse_s <- fmt_metric 4 (d_RMSE row) ;;
  Ok {| s_row := row; MAE_s := mae_s; RMSE_s := rmse_s;
        MAPE_s := format_mape float_of_str repr_of (d_MAPE row) |}.

(** The grid of one detail table: border, header, border, one line per
    row, border. *)
Definition print_detail_row (col_widths : list nat) (row : shown_row)
    : io unit :=
  print_row col_widths (detail_cells row) detail_aligns.

Definition detail_grid (col_widths : list nat) (rows : list shown_row)
    : io unit :=
  io_print (border_line col_widths) ;;;
  print_row col_widths detail_headers (AlignAll AlignCenter) ;;;
  io_print (border_line col_widths) ;;;
  io_for rows (print_detail_row col_widths) ;;;
  io_print (border_line col_widths).

(** The body of the loop over the datasets. *)
Definition print_detail_table (all_runs : dict run_key (list run))
    (d : string) : io unit :=
  match rows_for all_runs d with
  | [] => io_ret tt
  | _ =>
      rows <-- io_lift (res_map show_row (sorted_rows all_runs d)) ;;
      col_widths <-- io_lift (detail_widths rows) ;;
      io_print EmptyString ;;;
      io_print (detail_title d) ;;;
      detail_grid col_widths rows
  end.

Definition print_detail_tables (all_runs : dict run_key (list run))
    : io unit :=
  match all_runs with
  | [] => io_ret tt
  | _ => io_for (dataset_names all_runs) (print_detail_table all_runs)
  end.

(** ** [main] *)

(** What a run of the program leaves behind: the lines on standard
    output, the lines on the diagnostic stream, and whether it returned
    (exit status 0) or died on an exception. *)
Record outcome : Type := {
  stdout : list string;
  stderr : list string;
  status : res unit
}.

Definition main (walk : list walk_entry) : outcome :=
  let '(all_runs, err) := collect_all_runs walk in
  let '(out, r) :=
    (best_metrics <-- io_lift (choose_best all_runs) ;;
     print_summary_table float_of_str repr_of best_metrics ;;;
     print_detail_tables all_runs) in
  {| stdout := out; stderr := err; status := r |}.
End DetailTables.

(* ===================================================================== *)
(** * [wandb_visualize_test_metrics.py]: horizon extraction *)
(* ===================================================================== *)

(** [collect_all_runs] and [choose_best] of this script are the same text
    as in [collect_metrics.py]; the definitions above stand for both. *)

Record horizon_row : Type := {
  h_model : string;
  h_dataset : string;
  h_setting : string;
  h_horizon : Z;
  h_MAE : pyval;
  h_MAPE : pyval;
  h_RMSE : pyval;
  h_time : string;
  h_path : string;
  h_timestamp : float
}.

(** The horizon a key stands for, [None] when the loop [continue]s. *)
Definition horizon_of_key (key : string) : option Z :=
  if String.eqb key "overall" then Some 0%Z
  else if negb (prefix "horizon_" key) then None
  else
    match nth_error (split_on "_"%char key) 1 with
    | Some tok => py_int tok
    | None => None
    end.

(** The row of one recognised entry. *)
Definition horizon_entry (e : walk_entry) (model setting : string)
    (horizon : Z) (val : pyval) : res horizon_row :=
  mae <- py_get val "MAE" PNone ;;
  mape <- py_get val "MAPE" PNone ;;
  rmse <- py_get val "RMSE" PNone ;;
  Ok {| h_model := model; h_dataset := dataset_of setting;
        h_setting := setting; h_horizon := horizon;
        h_MAE := mae; h_MAPE := mape; h_RMSE := rmse;
        h_time := time_str e;
        h_path := path_join (dirpath e) metrics_name;
        h_timestamp := mtime e |}.

(** The loop [for key, val in data.items()] of one file. *)
Definition file_rows (e : walk_entry) (model setting : string)
    (items : list (string * pyval)) (rows : list horizon_row)
    : res (list horizon_row) :=
  res_fold
    (fun rows (kv : string * pyval) =>
       match horizon_of_key (fst kv) with
       | None => Ok rows
       | Some horizon =>
           row <- horizon_entry e model setting horizon (snd kv) ;;
           Ok (rows ++ [row])
       end)
    items rows.

(** The scan, from a state made of the rows gathered and the warnings
    written so far.  An exception that escapes leaves the warnings and
    loses the rows. *)
Fixpoint collect_horizon_from (walk : list walk_entry)
    (rows : list horizon_row) (err : list string)
    : list string * res (list horizon_row) :=
  match walk with
  | [] => (err, Ok rows)
  | e :: walk' =>
      if negb (has_metrics e) then collect_horizon_from walk' rows err
      else
        let metrics_path := path_join (dirpath e) metrics_name in
        let parts := split_on os_sep (rel_dir e) in
        if List.length parts <? 2 then collect_horizon_from walk' rows err
        else
          match parts with
          | model :: setting :: _ =>
              match metrics_file e with
              | Unreadable ex =>
                  collect_horizon_from walk' rows
                    (err ++ [warn_line metrics_path ex])
              | Parsed data =>
                  match (items <- py_items data ;;
                         file_rows e model setting items rows) with
                  | Ok rows' => collect_horizon_from walk' rows' err
                  | Raise ex => (err, Raise ex)
                  end
              end
          | _ => collect_horizon_from walk' rows err
          end
  end.

Definition collect_horizon_rows (walk : list walk_entry)
    : list string * res (list horizon_row) :=
  collect_horizon_from walk [] [].

(* ===================================================================== *)
(** * [wandb_visualize_test_metrics.py]: [main] *)
(* ===================================================================== *)

(** The calls into the [wandb] library are recorded, in order, with
    their arguments; what the library does with them is not part of the
    script.  A table is recorded when it is logged, with the rows that
    [add_data] received. *)
Inductive wandb_cell : Type :=
| WNone
| WFloat (f : float)
| WInt (z : Z)
| WStr (s : string).

Inductive wandb_call : Type :=
| WandbInit (project name root_dir : string)
| WandbLog (key : string) (columns : list string)
    (rows : list (list wandb_cell))
| WandbFinish.

(** [a < b] on the keys [(model, dataset)], as Python compares tuples of
    strings. *)
Definition key_ltb (a b : run_key) : bool :=
  String.ltb (fst a) (fst b)
  || (String.eqb (fst a) (fst b) && String.ltb (snd a) (snd b)).

(** [sorted(d.items())] for a dictionary keyed by [(model, dataset)]:
    the keys of a dictionary differ, so the comparison of two items is
    decided by their keys. *)
Definition sorted_items {V} (d : dict run_key V) : list (run_key * V) :=
  py_sorted key_ltb fst d.

Definition run_columns : list string :=
  ["model"; "dataset"; "MAE"; "RMSE"; "MAPE"; "setting"; "time"; "path"].

Definition horizon_columns : list string :=
  ["model"; "dataset"; "setting"; "horizon"; "MAE"; "MAPE"; "RMSE";
   "time"; "path"].

Definition done_message : string :=
  "同步到 wandb 完成。你可以在网页上用 Tables 构建各种图表。".

(** [args.run_name or f"metrics-summary-{stamp}"], where [stamp] is the
    current time as [strftime] prints it. *)
Definition run_name_or (run_name : option string) (stamp : string)
    : string :=
  match run_name with
  | Some (String c s) => String c s
  | _ => "metrics-summary-" ++ stamp
  end.

Module WandbVisualize.
Section Main.
Variable float_of_str : string -> option float.

(** [float(v) if v is not None else None]. *)
Definition float_or_none (v : pyval) : res wandb_cell :=
  match v with
  | PNone => Ok WNone
  | _ => f <- py_float float_of_str v ;; Ok (WFloat f)
  end.

(** The arguments of [add_data] for a run. *)
Definition run_row (model dataset : string) (info : run)
    : res (list wandb_cell) :=
  mae <- float_or_none (r_MAE info) ;;
  rmse <- float_or_none (r_RMSE info) ;;
  mape <- float_or_none (r_MAPE info) ;;
  Ok [WStr model; WStr dataset; mae; rmse; mape; WStr (r_setting info);
      WStr (r_time info); WStr (r_path info)].

Definition best_table (best_metrics : dict run_key run)
    : res (list (list wandb_cell)) :=
  res_map
    (fun item : run_key * run =>
       let '((model, dataset), info) := item in run_row model dataset info)
    (sorted_items best_metrics).

Definition all_table (all_runs : dict run_key (list run))
    : res (list (list wandb_cell)) :=
  groups <-
    res_map
      (fun item : run_key * list run =>
         let '((model, dataset), runs) := item in
         res_map (run_row model dataset) runs)
      (sorted_items all_runs) ;;
  Ok (List.concat groups).

Definition horizon_table_row (row : horizon_row) : res (list wandb_cell) :=
  mae <- float_or_none (h_MAE row) ;;
  mape <- float_or_none (h_MAPE row) ;;
  rmse <- float_or_none (h_RMSE row) ;;
  Ok [WStr (h_model row); WStr (h_dataset row); WStr (h_setting row);
      WInt (h_horizon row); mae; mape; rmse; WStr (h_time row);
      WStr (h_path row)].

Definition horizon_table (horizon_rows : list horizon_row)
    : res (list (list wandb_cell)) :=
  res_map horizon_table_row horizon_rows.

(** What a run of the script leaves behind: the lines on the two
    streams, the calls made into [wandb], and how it ended. *)
Record outcome : Type := {
  stdout : list string;
  stderr : list string;
  calls : list wandb_call;
  status : res unit
}.

Definition failed (err : list string) (calls : list wandb_call) (ex : exn)
    : outcome :=
  {| stdout := []; stderr := err; calls := calls; status := Raise ex |}.

(** [main], for the command line [--root root_dir --project project] and
    the optional [--run-name]; the tree is read twice, once by each
    scan. *)
Definition main (root_dir project : string) (run_name : option string)
    (stamp : string) (walk : list walk_entry) : outcome :=
  let '(all_runs, err1) := collect_all_runs walk in
  match choose_best all_runs with
  | Raise ex => failed err1 [] ex
  | Ok best_metrics =>
      let '(err2, horizon) := collect_horizon_rows walk in
      let err := err1 ++ err2 in
      match horizon with
      | Raise ex => failed err [] ex
      | Ok horizon_rows =>
          let init :=
            WandbInit project (run_name_or run_name stamp) root_dir in
          match best_table best_metrics with
          | Raise ex => failed err [init] ex
          | Ok rows1 =>
              let log1 := WandbLog "summary/best_runs" run_columns rows1 in
              match all_table all_runs with
              | Raise ex => failed err [init; log1] ex
              | Ok rows2 =>
                  let log2 :=
                    WandbLog "detail/all_runs" run_columns rows2 in
                  match horizon_table horizon_rows with
                  | Raise ex => failed err [init; log1; log2] ex
                  | Ok rows3 =>
                      let log3 :=
                        WandbLog "horizon/metrics" horizon_columns rows3 in
                      {| stdout := [done_message]; stderr := err;
                         calls := [init; log1; log2; log3; WandbFinish];
                         status := Ok tt |}
                  end
              end
          end
      end
  end.
End Main.
End WandbVisualize.

(* ===================================================================== *)
(** * The vocabulary of the statements *)
(* ===================================================================== *)

(** Predicates the statements are phrased with, and the sample
    repositories and files they are evaluated on. *)

(** ** Numbers *)

(** A number whose value is not NaN. *)
Definition not_nan (n : pynum) : Prop := is_nan (num_value n) = false.

(** ** The best-run selection *)

(** The representation invariant of the run repository: every key once,
    every key with at least one run. *)
Definition repo_wf (all_runs : dict run_key (list run)) : Prop :=
  NoDup (map fst all_runs) /\ Forall (fun kv => snd kv <> []) all_runs.

(** Sample runs. *)
Definition sample_run (mae : pyval) (path : string) : run :=
  {| r_MAE := mae; r_RMSE := PNone; r_MAPE := PNone; r_path := path;
     r_setting := "D_1"; r_time := "2024-01-01 10:00";
     r_timestamp := S754_zero false |}.

Definition f_one : float := float_of_decimal 10 1.

Definition c1_repo : dict run_key (list run) :=
  [(("M", "D"), [sample_run (PFloat f_one) "a"; sample_run PNone "b";
                 sample_run (PInt 1) "c"])].

(** ** The leaderboard order *)

(** The mean of model [m], as the loop over the models computes it. *)
Definition mean_of (best : dict run_key run) (m : string) : res pynum :=
  avg_mae (eligible_maes best (dataset_names best) m).

(** Whether dataset [d] contributes to the mean of [m]. *)
Definition has_numeric_mae (best : dict run_key run) (m d : string) : bool :=
  match dict_get key_eqb best (m, d) with
  | Some info =>
      match as_number (r_MAE info) with
      | Some _ => true
      | None => false
      end
  | None => false
  end.

(** The scenario of the specification: A has MAE 5 on X and 7 on Y, B has
    MAE 4 on X only. *)
Definition c2_best : dict run_key run :=
  [(("A", "X"), sample_run (PInt 5) "a/x");
   (("A", "Y"), sample_run (PInt 7) "a/y");
   (("B", "X"), sample_run (PInt 4) "b/x")].

Definition c2_nan_best : dict run_key run :=
  [(("A", "X"), sample_run (PFloat f_nan) "a/x");
   (("B", "X"), sample_run (PFloat f_one) "b/x")].

Definition lex_lt (a b : string) : Prop := String.ltb a b = true.

(** [a == b] on number values. *)
Definition xeqb (a b : xreal) : bool :=
  match a, b with
  | XNegInf, XNegInf | XPosInf, XPosInf => true
  | XFin p, XFin q => Qeq_bool p q
  | _, _ => false
  end.

Definition py_eq (a b : pynum) : bool := xeqb (num_value a) (num_value b).

Definition c10_best : dict run_key run :=
  [(("B", "X"), sample_run PNone "b/x");
   (("C", "X"), sample_run (PInt 1) "c/x");
   (("A", "X"), sample_run (PStr "n/a") "a/x")].

(** Seven models on one dataset, one of them with a NaN. *)
Definition c10_nan_best : dict run_key run :=
  [(("A", "X"), sample_run (PFloat (float_of_decimal 1 1)) "a/x");
   (("B", "X"), sample_run (PFloat (float_of_decimal 2 1)) "b/x");
   (("C", "X"), sample_run (PFloat (float_of_decimal 20 1)) "c/x");
   (("D", "X"), sample_run (PFloat f_nan) "d/x");
   (("E", "X"), sample_run (PFloat f_one) "e/x");
   (("F", "X"), sample_run (PFloat (float_of_decimal 5 1)) "f/x");
   (("G", "X"), sample_run (PFloat f_one) "g/x")].

(** ** The table renderer *)

(** Every line of a table with column widths [ws] is this long. *)
Definition line_length (ws : list nat) : nat :=
  1 + list_sum (map (fun w => w + 3) ws).

Definition aligns_cover (al : aligns) (n : nat) : Prop :=
  match al with
  | AlignAll _ => True
  | AlignEach l => n <= List.length l
  end.

(** [w'] has the columns of [w], none narrower. *)
Definition le_widths (w w' : list nat) : Prop :=
  List.length w = List.length w' /\ forall j, nth j w 0 <= nth j w' 0.

(** The three bounds a column group [k] owes to the lengths [a], [b],
    [c]. *)
Definition group_fits (k a b c : nat) (w : list nat) : Prop :=
  a <= nth (1 + 3 * k) w 0
  /\ b <= nth (1 + 3 * k + 1) w 0
  /\ c <= nth (1 + 3 * k + 2) w 0.

Definition cell_lengths (c : cell) : nat * nat * nat :=
  let '(a, b, c) := c in (String.length a, String.length b, String.length c).

Definition fits (text : string) (w : nat) : Prop := String.length text <= w.

(** The triple of a data cell as [row_cells] reads it. *)
Definition cell3 (values : dict run_key cell) (m d : string) : list string :=
  match dict_get key_eqb values (m, d) with
  | Some (a, b, c) => [a; b; c]
  | None => []
  end.

(** What [summary_prepare] hands to the printing part. *)
Definition summary_ready (sl : summary_layout) : Prop :=
  let W := sl_widths sl in
  let datasets := sl_datasets sl in
  List.length W = 1 + 3 * List.length datasets
  /\ 7 <= nth 0 W 0
  /\ (forall m, In m (sl_models sl) -> String.length m <= nth 0 W 0)
  /\ (forall k d, nth_error datasets k = Some d ->
        group_fits k (Nat.max 3 (String.length d)) 4 4 W)
  /\ (forall m d a b c k,
        In ((m, d), (a, b, c)) (sl_values sl) ->
        nth_error datasets k = Some d ->
        group_fits k (String.length a) (String.length b)
          (String.length c) W)
  /\ (forall m d, In m (sl_models sl) -> In d datasets ->
        exists c, dict_get key_eqb (sl_values sl) (m, d) = Some c).

(** The shape of a printed grid: a border, the header lines, a border,
    the data lines, a border. *)
Definition grid (border : string) (header body : list string)
    : list string :=
  border :: header ++ border :: body ++ [border].

Definition detail_row_fits (row : shown_row) (w : list nat) : Prop :=
  String.length (d_model (s_row row)) <= nth 0 w 0
  /\ String.length (d_time (s_row row)) <= nth 1 w 0
  /\ String.length (MAE_s row) <= nth 2 w 0
  /\ String.length (RMSE_s row) <= nth 3 w 0
  /\ String.length (MAPE_s row) <= nth 4 w 0.

(** A leaderboard of two models and two datasets. *)
Definition c9_best : dict run_key run :=
  [(("STID", "PEMS04"),
    {| r_MAE := PFloat (float_of_decimal 18345 3);
       r_RMSE := PFloat (float_of_decimal 2999 2);
       r_MAPE := PFloat (float_of_decimal 1234 4);
       r_path := "p"; r_setting := "PEMS04_100_12_12";
       r_time := "2024-05-01 09:30"; r_timestamp := S754_zero false |});
   (("HyperD", "PEMS08"), sample_run (PInt 14) "q")].

(** ** Fixed-point numerals *)

Definition is_finite (f : float) : bool :=
  match f with
  | S754_zero _ | S754_finite _ _ _ => true
  | _ => false
  end.

(** The float a number is formatted from. *)
Definition to_float (n : pynum) : res float :=
  match n with
  | NInt z => float_of_int z
  | NFloat f => Ok f
  end.


(** ** The detail tables *)

Definition c7_repo : dict run_key (list run) :=
  [(("A", "X"), [sample_run (PFloat (float_of_decimal 25 1)) "a1";
                 sample_run PNone "a2"]);
   (("B", "Y"), [sample_run (PInt 9) "b1"]);
   (("C", "X"), [sample_run (PFloat (float_of_decimal 25 1)) "c1";
                 sample_run (PInt 2) "c2"])].

Definition c7_nan_repo : dict run_key (list run) :=
  [(("A", "X"), [sample_run (PFloat f_nan) "a"]);
   (("B", "X"), [sample_run (PFloat f_one) "b"])].

(** Stand-ins for the two open built-ins in closed examples, none of
    which reaches them. *)
Definition sample_float_of_str : string -> option float := fun _ => None.
Definition sample_repr_of : pyval -> string := fun _ => "?".

(** ** The cells of the leaderboard *)

Definition c5_best : dict run_key run :=
  [(("A", "X"),
    {| r_MAE := PFloat (float_of_decimal 18345 3);
       r_RMSE := PNone;
       r_MAPE := PFloat (float_of_decimal 1523 4);
       r_path := "p"; r_setting := "X_1";
       r_time := "2024-05-01 09:30"; r_timestamp := S754_zero false |})].


(** ** Path segments and the dataset name *)

Fixpoint contains_char (c : ascii) (s : string) : bool :=
  match s with
  | EmptyString => false
  | String x s' => Ascii.eqb x c || contains_char c s'
  end.

Definition c6_entry (rel : string) (file : file_read) : walk_entry :=
  {| dirpath := ("root/" ++ rel)%string; rel_dir := rel;
     filenames := ["cfg.py"; "test_metrics.json"];
     metrics_file := file; mtime := S754_zero false;
     time_str := "2024-01-01 10:00" |}.

(** A result file one level below the root that does not hold JSON. *)
Definition c6_unreadable : walk_entry :=
  c6_entry "ModelA"
    (Unreadable (OSError "Expecting value: line 1 column 1 (char 0)")).

Definition c6_file : file_read :=
  Parsed (PDict [("overall",
                  PDict [("MAE", PFloat (float_of_decimal 12345 3));
                         ("RMSE", PFloat (float_of_decimal 200 1))]);
                 ("horizon_1",
                  PDict [("MAE", PFloat (float_of_decimal 100 1))])]).

(** ** Failures during the scan *)

(** A directory whose result file yields a run. *)
Definition eligible (e : walk_entry) : bool :=
  has_metrics e
  && match read_overall (metrics_file e) with
     | Ok _ => true
     | Raise _ => false
     end
  && (2 <=? List.length (split_on os_sep (rel_dir e))).

(** What [main] does once the repository is built. *)
Definition report (float_of_str : string -> option float)
    (repr_of : pyval -> string) (all_runs : dict run_key (list run))
    : io unit :=
  best_metrics <-- io_lift (choose_best all_runs) ;;
  print_summary_table float_of_str repr_of best_metrics ;;;
  print_detail_tables float_of_str repr_of all_runs.

Definition c8_unreadable : walk_entry :=
  c6_entry "ModelA/PEMS04_1/x"
    (Unreadable (OSError "Expecting value: line 1 column 1 (char 0)")).

(** ** Horizon extraction *)

Definition is_dict (v : pyval) : bool :=
  match v with
  | PDict _ => true
  | _ => false
  end.

Definition recognised (kv : string * pyval) : bool :=
  match horizon_of_key (fst kv) with
  | Some _ => true
  | None => false
  end.

(** The keys the specification calls well formed: ["horizon_"] followed
    by an integer numeral, with no other text. *)
Definition spec_horizon_key (key : string) : bool :=
  prefix "horizon_" key
  && match py_int (substring 8 (String.length key - 8) key) with
     | Some _ => true
     | None => false
     end.

Definition c3_entry : walk_entry :=
  c6_entry "ModelA/PEMS04_1/x" (Parsed (PDict [("overall", PInt 5)])).

Definition c3_good : walk_entry :=
  c6_entry "ModelB/PEMS04_1/x" c6_file.

Definition c4_entry : walk_entry :=
  c6_entry "ModelA/PEMS04_1/x"
    (Parsed (PDict [("horizon_3_extra",
                     PDict [("MAE", PFloat f_one)])])).

(** ** The scan, directory by directory *)

(** The run a directory adds to the repository, with its key; [None]
    when the directory is passed over or its file fails. *)
Definition entry_run (e : walk_entry) : option (run_key * run) :=
  if has_metrics e then
    match read_overall (metrics_file e), split_on os_sep (rel_dir e) with
    | Ok (mae, mape, rmse), model :: setting :: _ =>
        Some ((model, dataset_of setting),
              {| r_MAE := mae; r_RMSE := rmse; r_MAPE := mape;
                 r_path := path_join (dirpath e) metrics_name;
                 r_setting := setting; r_time := time_str e;
                 r_timestamp := mtime e |})
    | _, _ => None
    end
  else None.

(** The warning a directory adds to the diagnostic stream. *)
Definition entry_warning (e : walk_entry) : list string :=
  if has_metrics e then
    match read_overall (metrics_file e) with
    | Raise ex => [warn_line (path_join (dirpath e) metrics_name) ex]
    | Ok _ => []
    end
  else [].

(** The runs the directories of [walk] add under [key], in the order of
    the traversal. *)
Definition runs_of_key (key : run_key) (walk : list walk_entry) : list run :=
  flat_map
    (fun e =>
       match entry_run e with
       | Some (k, r) => if key_eqb k key then [r] else []
       | None => []
       end)
    walk.

(** A result file that is read without error but lies too close to the
    root to name a model and a setting. *)
Definition passed_over (e : walk_entry) : bool :=
  has_metrics e
  && match read_overall (metrics_file e) with
     | Ok _ => true
     | Raise _ => false
     end
  && (List.length (split_on os_sep (rel_dir e)) <? 2).

(** All the runs of a repository. *)
Definition all_runs_of (all_runs : dict run_key (list run)) : list run :=
  List.concat (map snd all_runs).

(** The shape of a document from which the overall metrics can be read:
    an object whose ["overall"] entry is absent or is an object. *)
Definition overall_shape (data : pyval) : bool :=
  match data with
  | PDict items =>
      match dict_get String.eqb items "overall" with
      | None | Some (PDict _) => true
      | Some _ => false
      end
  | _ => false
  end.

(** [d.get(k)] on the entries of an object. *)
Definition entry_or_none (items : list (string * pyval)) (k : string)
    : pyval :=
  match dict_get String.eqb items k with
  | Some v => v
  | None => PNone
  end.

(** The keys under which the directories of [walk] add a run, one per
    run, in the order of the traversal. *)
Definition keys_of_walk (walk : list walk_entry) : list run_key :=
  flat_map
    (fun e =>
       match entry_run e with
       | Some (k, _) => [k]
       | None => []
       end)
    walk.

(** A list of keys without its repetitions: every key at the place of
    its first occurrence. *)
Fixpoint first_seen (l : list run_key) : list run_key :=
  match l with
  | [] => []
  | k :: l' => k :: filter (fun k' => negb (key_eqb k' k)) (first_seen l')
  end.

(** A computation whose only possible exception is the [OverflowError]
    of converting an [int] too large for a [float]. *)
Definition only_overflow {A} (r : res A) : Prop :=
  forall e, r = Raise e -> e = OverflowError.

(** [isinstance(v, int)]: a [bool] is an [int]. *)
Definition is_int (v : pyval) : bool :=
  match v with
  | PInt _ | PBool _ => true
  | _ => false
  end.

(** A run neither of whose MAE and RMSE is an [int]. *)
Definition float_metrics (r : run) : Prop :=
  is_int (r_MAE r) = false /\ is_int (r_RMSE r) = false.

(** The value of a decimal numeral read from the left, starting from
    [acc]. *)
Fixpoint uint_value (d : Decimal.uint) (acc : Z) : Z :=
  match d with
  | Decimal.Nil => acc
  | Decimal.D0 l => uint_value l (10 * acc)
  | Decimal.D1 l => uint_value l (10 * acc + 1)
  | Decimal.D2 l => uint_value l (10 * acc + 2)
  | Decimal.D3 l => uint_value l (10 * acc + 3)
  | Decimal.D4 l => uint_value l (10 * acc + 4)
  | Decimal.D5 l => uint_value l (10 * acc + 5)
  | Decimal.D6 l => uint_value l (10 * acc + 6)
  | Decimal.D7 l => uint_value l (10 * acc + 7)
  | Decimal.D8 l => uint_value l (10 * acc + 8)
  | Decimal.D9 l => uint_value l (10 * acc + 9)
  end.

(** ** Horizon extraction, directory by directory *)

(** The rows a directory adds to the horizon rows, or the exception its
    file ends the extraction with. *)
Definition entry_horizon_rows (e : walk_entry) : res (list horizon_row) :=
  if has_metrics e then
    match split_on os_sep (rel_dir e), metrics_file e with
    | model :: setting :: _, Parsed data =>
        items <- py_items data ;; file_rows e model setting items []
    | _, _ => Ok []
    end
  else Ok [].

Definition rows_or_nil (e : walk_entry) : list horizon_row :=
  match entry_horizon_rows e with
  | Ok rows => rows
  | Raise _ => []
  end.

(** The warning a directory adds during the horizon extraction. *)
Definition entry_horizon_warning (e : walk_entry) : list string :=
  if has_metrics e then
    match split_on os_sep (rel_dir e), metrics_file e with
    | _ :: _ :: _, Unreadable ex =>
        [warn_line (path_join (dirpath e) metrics_name) ex]
    | _, _ => []
    end
  else [].

(** An entry the loop over a document passes: a key it does not
    recognise, or a value that is an object. *)
Definition entry_safe (kv : string * pyval) : bool :=
  negb (recognised kv) || is_dict (snd kv).

(** A directory the horizon extraction passes without an exception. *)
Definition horizon_safe (e : walk_entry) : bool :=
  negb (has_metrics e)
  || (List.length (split_on os_sep (rel_dir e)) <? 2)
  || match metrics_file e with
     | Unreadable _ => true
     | Parsed (PDict items) => forallb entry_safe items
     | Parsed _ => false
     end.

(** ** The tables sent to [wandb] *)

(** [a <= b] on the keys. *)
Definition key_leb (a b : run_key) : bool := key_ltb a b || key_eqb a b.

(** The three metric values of a run and of a horizon row. *)
Definition run_metrics (r : run) : list pyval :=
  [r_MAE r; r_RMSE r; r_MAPE r].

Definition row_metrics (row : horizon_row) : list pyval :=
  [h_MAE row; h_MAPE row; h_RMSE row].

(** A metric value the tables accept: [None], or a value [float]
    converts. *)
Definition loggable (float_of_str : string -> option float) (v : pyval)
    : Prop :=
  exists c, WandbVisualize.float_or_none float_of_str v = Ok c.

(** The calls of a complete run of the script. *)
Definition full_calls (project name root_dir : string)
    (rows1 rows2 rows3 : list (list wandb_cell)) : list wandb_call :=
  [WandbInit project name root_dir;
   WandbLog "summary/best_runs" run_columns rows1;
   WandbLog "detail/all_runs" run_columns rows2;
   WandbLog "horizon/metrics" horizon_columns rows3;
   WandbFinish].

(** ** Sample trees for the further properties *)

(** The run and the first horizon row of the well-formed sample file. *)
Definition c3_run : run :=
  {| r_MAE := PFloat (float_of_decimal 12345 3);
     r_RMSE := PFloat (float_of_decimal 200 1);
     r_MAPE := PNone;
     r_path := "root/ModelB/PEMS04_1/x/test_metrics.json";
     r_setting := "PEMS04_1";
     r_time := "2024-01-01 10:00";
     r_timestamp := S754_zero false |}.

Definition c3_overall : list (string * pyval) :=
  [("MAE", PFloat (float_of_decimal 12345 3));
   ("RMSE", PFloat (float_of_decimal 200 1))].

Definition c3_items : list (string * pyval) :=
  [("overall", PDict c3_overall);
   ("horizon_1", PDict [("MAE", PFloat (float_of_decimal 100 1))])].

Definition c3_row : horizon_row :=
  {| h_model := "ModelB"; h_dataset := "PEMS04"; h_setting := "PEMS04_1";
     h_horizon := 0;
     h_MAE := PFloat (float_of_decimal 12345 3);
     h_MAPE := PNone;
     h_RMSE := PFloat (float_of_decimal 200 1);
     h_time := "2024-01-01 10:00";
     h_path := "root/ModelB/PEMS04_1/x/test_metrics.json";
     h_timestamp := S754_zero false |}.

(** A file whose MAPE is a text that is not a numeral. *)
Definition text_mape_entry : walk_entry :=
  c6_entry "ModelA/PEMS04_1/x"
    (Parsed (PDict [("overall",
                     PDict [("MAE", PFloat f_one);
                            ("MAPE", PStr "n/a")])])).

(** ** The widths of the leaderboard *)

(** What an update of column group [di] with the lengths [a], [b], [c]
    asks of column [col]: one of the three lengths, or nothing. *)
Definition group_part (col di a b c : nat) : nat :=
  if col =? 1 + 3 * di then a
  else if col =? 1 + 3 * di + 1 then b
  else if col =? 1 + 3 * di + 2 then c
  else 0.

(** The cells of the leaderboard under dataset [d]. *)
Definition cells_of (values : dict run_key cell) (d : string)
    : list cell :=
  map snd (filter (fun it : run_key * cell => String.eqb (snd (fst it)) d)
             values).

Definition mae_len (c : cell) : nat := String.length (fst (fst c)).
Definition rmse_len (c : cell) : nat := String.length (snd (fst c)).
Definition mape_len (c : cell) : nat := String.length (snd c).

(** [d2i[d]] for a dataset of the table. *)
Definition column_group (datasets : list string) (d : string) : nat :=
  match dict_get String.eqb (index_dict datasets) d with
  | Some k => k
  | None => 0
  end.

(** What [print_summary_table] computes for the sample leaderboard
    [c9_best] before it prints. *)
Definition c9_layout : summary_layout :=
  {| sl_models := ["HyperD"; "STID"];
     sl_datasets := ["PEMS04"; "PEMS08"];
     sl_values :=
       [(("HyperD", "PEMS04"), (EmptyString, EmptyString, EmptyString));
        (("HyperD", "PEMS08"), ("14.00", EmptyString, EmptyString));
        (("STID", "PEMS04"), ("18.34", "29.99", "12.34%"));
        (("STID", "PEMS08"), (EmptyString, EmptyString, EmptyString))];
     sl_widths := [7; 6; 5; 6; 6; 4; 4] |}.

(* ===================================================================== *)
(** * Facts about the Python layer *)
(* ===================================================================== *)

(** ** The order on number values *)

Lemma Qltb_iff (p q : Q) : Qltb p q = true <-> (p < q)%Q.
Proof.
  unfold Qltb. rewrite Qlt_alt.
  destruct (p ?= q)%Q; split; intro H; congruence.
Qed.

Lemma xltb_irrefl (a : xreal) : xltb a a = false.
Proof.
  destruct a as [| |q|]; simpl; trivial.
  destruct (Qltb q q) eqn:E; trivial.
  apply Qltb_iff in E. exfalso. exact (Qlt_irrefl _ E).
Qed.

Lemma xltb_trans (a b c : xreal) :
  xltb a b = true -> xltb b c = true -> xltb a c = true.
Proof.
  destruct a as [| |p|], b as [| |q|], c as [| |r|]; simpl;
    try congruence.
  rewrite !Qltb_iff. apply Qlt_trans.
Qed.

Lemma xltb_xleb (a b : xreal) : xltb a b = true -> xleb a b = true.
Proof.
  destruct a as [| |p|], b as [| |q|]; simpl; try congruence.
  rewrite Qltb_iff, Qle_bool_iff. apply Qlt_le_weak.
Qed.

Lemma xleb_total (a b : xreal) :
  is_nan a = false -> is_nan b = false ->
  xltb a b = false -> xleb b a = true.
Proof.
  destruct a as [| |p|], b as [| |q|]; simpl; try congruence.
  intros _ _ H. apply Qle_bool_iff. apply Qnot_lt_le.
  intro L. apply Qltb_iff in L. congruence.
Qed.

Lemma xleb_trans (a b c : xreal) :
  xleb a b = true -> xleb b c = true -> xleb a c = true.
Proof.
  destruct a as [| |p|], b as [| |q|], c as [| |r|]; simpl;
    try congruence.
  rewrite !Qle_bool_iff. apply Qle_trans.
Qed.

Lemma xltb_xleb_trans (a b c : xreal) :
  xltb a b = true -> xleb b c = true -> xltb a c = true.
Proof.
  destruct a as [| |p|], b as [| |q|], c as [| |r|]; simpl;
    try congruence.
  rewrite !Qltb_iff, Qle_bool_iff. apply Qlt_le_trans.
Qed.

Lemma xleb_xltb (a b : xreal) : xleb a b = true -> xltb b a = false.
Proof.
  destruct a as [| |p|], b as [| |q|]; simpl; try congruence.
  rewrite Qle_bool_iff. intro H.
  destruct (Qltb q p) eqn:E; trivial.
  apply Qltb_iff in E. exfalso. exact (Qlt_not_le _ _ E H).
Qed.

Lemma xleb_nan_l (a b : xreal) : xleb a b = true -> is_nan a = false.
Proof. destruct a; simpl; congruence. Qed.

Lemma xleb_nan_r (a b : xreal) : xleb a b = true -> is_nan b = false.
Proof. destruct a, b; simpl; congruence. Qed.

(** ** The lexicographic order on strings *)

Lemma str_compare_refl (s : string) : String.compare s s = Eq.
Proof.
  induction s as [|c s IH]; simpl; trivial.
  unfold Ascii.compare. now rewrite N.compare_refl.
Qed.

Lemma str_ltb_irrefl (s : string) : String.ltb s s = false.
Proof. unfold String.ltb. now rewrite str_compare_refl. Qed.

Lemma str_compare_trans (a b c : string) :
  String.compare a b = Lt -> String.compare b c = Lt ->
  String.compare a c = Lt.
Proof.
  revert b c.
  induction a as [|x a IH]; intros [|y b] [|z c]; simpl; try congruence.
  unfold Ascii.compare.
  destruct (N.compare_spec (N_of_ascii x) (N_of_ascii y)) as [E1|L1|G1];
    try congruence;
    destruct (N.compare_spec (N_of_ascii y) (N_of_ascii z)) as [E2|L2|G2];
    try congruence; intros H1 H2.
  - rewrite E1, E2, N.compare_refl. eauto.
  - rewrite E1. now apply N.compare_lt_iff in L2 as ->.
  - rewrite <- E2. now apply N.compare_lt_iff in L1 as ->.
  - assert (L : (N_of_ascii x < N_of_ascii z)%N) by lia.
    now apply N.compare_lt_iff in L as ->.
Qed.

Lemma str_ltb_trans (a b c : string) :
  String.ltb a b = true -> String.ltb b c = true -> String.ltb a c = true.
Proof.
  unfold String.ltb.
  destruct (String.compare a b) eqn:E1; try congruence.
  destruct (String.compare b c) eqn:E2; try congruence.
  now rewrite (str_compare_trans _ _ _ E1 E2).
Qed.

Lemma str_ltb_total (a b : string) :
  String.ltb a b = false -> String.ltb b a = false -> a = b.
Proof.
  unfold String.ltb. rewrite (String.compare_antisym b a).
  destruct (String.compare a b) eqn:E; simpl; try congruence.
  intros _ _. now apply String.compare_eq_iff.
Qed.

(** ** [min] and [sorted] *)

Lemma in_firstn {A} (n : nat) (l : list A) (x : A) :
  In x (firstn n l) -> In x l.
Proof.
  intros H. rewrite <- (firstn_skipn n l). apply in_or_app. now left.
Qed.

Lemma in_skipn {A} (n : nat) (l : list A) (x : A) :
  In x (skipn n l) -> In x l.
Proof.
  intros H. rewrite <- (firstn_skipn n l). apply in_or_app. now right.
Qed.

Section SortFacts.
Context {A T : Type} (ltb : T -> T -> bool) (key : A -> T).

Lemma binarysort_perm (rest : list A) :
  forall a, Permutation (binarysort ltb key a rest) (a ++ rest).
Proof.
  induction rest as [|x rest IH]; intros a; simpl.
  - now rewrite app_nil_r.
  - rewrite IH. transitivity ((x :: a) ++ rest).
    + apply Permutation_app_tail. symmetry.
      set (r := bisect ltb key (List.length a) a x 0 (List.length a)).
      rewrite <- (firstn_skipn r a) at 1. apply Permutation_middle.
    + simpl. apply Permutation_middle.
Qed.

Lemma py_sorted_perm (l : list A) : Permutation (py_sorted ltb key l) l.
Proof.
  unfold py_sorted. destruct (count_run ltb key l) as [n desc].
  rewrite binarysort_perm.
  transitivity (firstn n l ++ skipn n l); [|now rewrite firstn_skipn].
  apply Permutation_app_tail.
  destruct desc; [symmetry; apply Permutation_rev | reflexivity].
Qed.

Lemma py_sorted_In (l : list A) (x : A) :
  In x (py_sorted ltb key l) <-> In x l.
Proof.
  split; apply Permutation_in;
    [ apply py_sorted_perm | symmetry; apply py_sorted_perm ].
Qed.

Lemma py_sorted_length (l : list A) :
  List.length (py_sorted ltb key l) = List.length l.
Proof. apply Permutation_length, py_sorted_perm. Qed.

Section Ordered.
Variable leb : T -> T -> bool.
Variable good : T -> Prop.
Hypothesis total :
  forall a b, good a -> good b -> ltb a b = false -> leb b a = true.
Hypothesis lt_le : forall a b, ltb a b = true -> leb a b = true.
Hypothesis le_trans :
  forall a b c, leb a b = true -> leb b c = true -> leb a c = true.
Hypothesis lt_trans :
  forall a b c, ltb a b = true -> ltb b c = true -> ltb a c = true.
Hypothesis lt_le_trans :
  forall a b c, ltb a b = true -> leb b c = true -> ltb a c = true.

Let le_key (a b : A) : Prop := leb (key a) (key b) = true.
Let gt_key (a b : A) : Prop := ltb (key b) (key a) = true.

(** A family of items none of which has a key below another's. *)
Let tied (p : A -> bool) (l : list A) : Prop :=
  forall x y, In x l -> In y l -> p x = true -> p y = true ->
              ltb (key y) (key x) = false.

Lemma sorted_cons_le (x y : A) (l : list A) :
  le_key x y -> StronglySorted le_key (y :: l) ->
  StronglySorted le_key (x :: y :: l).
Proof.
  intros L S. constructor; trivial. constructor; trivial.
  apply StronglySorted_inv in S as [_ F].
  rewrite Forall_forall in *. intros z Hz. eapply le_trans; eauto.
  now apply F.
Qed.

Lemma ascending_run_sorted (l : list A) :
  forall x,
    good (key x) -> (forall y, In y l -> good (key y)) ->
    StronglySorted le_key (x :: firstn (ascending_run ltb key x l) l).
Proof.
  induction l as [|y l IH]; intros x Gx G; simpl.
  - repeat constructor.
  - destruct (ltb (key y) (key x)) eqn:E; simpl.
    + repeat constructor.
    + apply sorted_cons_le.
      * apply total; trivial. apply G; simpl; auto.
      * apply IH; [apply G; simpl; auto | intros; apply G; simpl; auto].
Qed.

Lemma descending_run_sorted (l : list A) :
  forall x,
    StronglySorted gt_key (x :: firstn (descending_run ltb key x l) l).
Proof.
  induction l as [|y l IH]; intros x; simpl.
  - repeat constructor.
  - destruct (ltb (key y) (key x)) eqn:E; simpl.
    + specialize (IH y). constructor; trivial. constructor; trivial.
      apply StronglySorted_inv in IH as [_ F].
      rewrite Forall_forall in *. intros z Hz.
      unfold gt_key. eapply lt_trans; [apply F; exact Hz | exact E].
    + repeat constructor.
Qed.

Lemma sorted_snoc (R : A -> A -> Prop) (l : list A) (x : A) :
  StronglySorted R l -> (forall y, In y l -> R y x) ->
  StronglySorted R (l ++ [x]).
Proof.
  induction 1 as [|a l S IH F]; intros H; simpl.
  - repeat constructor.
  - constructor.
    + apply IH. intros; apply H; simpl; auto.
    + rewrite Forall_forall in *. intros z Hz.
      apply in_app_or in Hz as [Hz|[<-|[]]]; [now apply F|].
      apply H; simpl; auto.
Qed.

Lemma descending_rev_sorted (l : list A) :
  StronglySorted gt_key l -> StronglySorted le_key (rev l).
Proof.
  induction 1 as [|a l S IH F]; simpl; [constructor|].
  apply sorted_snoc; trivial.
  rewrite Forall_forall in F. intros y Hy. apply in_rev in Hy.
  apply lt_le. now apply F.
Qed.

Lemma descending_rev_filter (p : A -> bool) (l : list A) :
  StronglySorted gt_key l -> tied p l ->
  filter p (rev l) = filter p l.
Proof.
  induction 1 as [|a l S IH F]; intros H; simpl; trivial.
  rewrite filter_app, IH by (intros x y Hx Hy; apply H; simpl; auto).
  simpl. destruct (p a) eqn:Pa; [|apply app_nil_r].
  assert (E : filter p l = []).
  { rewrite Forall_forall in F.
    destruct (filter p l) as [|y t] eqn:Ef; trivial.
    assert (Hy : In y (filter p l)) by (rewrite Ef; simpl; auto).
    apply filter_In in Hy as [Hy Py].
    pose proof (F y Hy) as G. unfold gt_key in G.
    rewrite (H a y) in G; simpl; auto. discriminate. }
  now rewrite E.
Qed.

Lemma sorted_nth (l : list A) (d : A) :
  StronglySorted le_key l ->
  forall i j, i < j -> j < List.length l -> le_key (nth i l d) (nth j l d).
Proof.
  induction 1 as [|a l S IH F]; intros i j Hij Hj; simpl in Hj; [lia|].
  destruct j as [|j]; [lia|]. destruct i as [|i]; simpl.
  - rewrite Forall_forall in F. apply F. apply nth_In. lia.
  - apply IH; lia.
Qed.

Lemma half_lt (n : nat) : 0 < n -> n / 2 < n.
Proof. intros H. apply Nat.div_lt; lia. Qed.

(** The slot found by the binary search splits the sorted items into
    those the pivot is not below and those it is below. *)
Lemma bisect_spec (a : list A) (pivot : A) :
  StronglySorted le_key a ->
  forall fuel lo hi,
    lo <= hi -> hi <= List.length a -> hi - lo <= fuel ->
    (forall i, i < lo -> ltb (key pivot) (key (nth i a pivot)) = false) ->
    (forall i, hi <= i -> i < List.length a ->
               ltb (key pivot) (key (nth i a pivot)) = true) ->
    let r := bisect ltb key fuel a pivot lo hi in
    r <= List.length a
    /\ (forall i, i < r -> ltb (key pivot) (key (nth i a pivot)) = false)
    /\ (forall i, r <= i -> i < List.length a ->
                  ltb (key pivot) (key (nth i a pivot)) = true).
Proof.
  intros S. induction fuel as [|fuel IH]; intros lo hi L1 L2 L3 B1 B2.
  - simpl. assert (hi = lo) by lia. subst. repeat split; auto. 
  - cbn [bisect]. destruct (Nat.leb_spec hi lo) as [H|H].
    + assert (hi = lo) by lia. subst. repeat split; auto.
    + pose proof (half_lt (hi - lo)) as Hh.
      set (p := lo + (hi - lo) / 2) in *.
      assert (Hp : lo <= p < hi) by (unfold p; lia).
      destruct (ltb (key pivot) (key (nth p a pivot))) eqn:E.
      * apply IH; trivial; try lia.
        intros i Hi Hl. destruct (Nat.eq_dec i p) as [->|N]; trivial.
        eapply lt_le_trans; [exact E|].
        apply (sorted_nth a pivot S); lia.
      * apply IH; trivial; try lia.
        intros i Hi. destruct (Nat.eq_dec i p) as [->|N]; trivial.
        destruct (ltb (key pivot) (key (nth i a pivot))) eqn:E'; trivial.
        rewrite <- E. symmetry. eapply lt_le_trans; [exact E'|].
        apply (sorted_nth a pivot S); lia.
Qed.

Lemma bisect_split (a : list A) (pivot : A) :
  StronglySorted le_key a ->
  let r := bisect ltb key (List.length a) a pivot 0 (List.length a) in
  (forall x, In x (firstn r a) -> ltb (key pivot) (key x) = false)
  /\ (forall x, In x (skipn r a) -> ltb (key pivot) (key x) = true).
Proof.
  intros S r.
  destruct (bisect_spec a pivot S (List.length a) 0 (List.length a))
    as (R & B1 & B2); try lia.
  fold r in R, B1, B2. split.
  - intros x Hx. apply (In_nth _ _ pivot) in Hx as (i & Hi & <-).
    rewrite length_firstn in Hi. rewrite nth_firstn.
    destruct (Nat.ltb_spec i r); [|lia]. apply B1. lia.
  - intros x Hx. apply (In_nth _ _ pivot) in Hx as (i & Hi & <-).
    rewrite length_skipn in Hi. rewrite nth_skipn. apply B2; lia.
Qed.

Lemma sorted_app (l1 l2 : list A) :
  StronglySorted le_key (l1 ++ l2) ->
  StronglySorted le_key l1 /\ StronglySorted le_key l2.
Proof.
  induction l1 as [|a l1 IH]; simpl; intros S.
  - split; [constructor | exact S].
  - apply StronglySorted_inv in S as [S F].
    destruct (IH S) as [S1 S2]. split; trivial.
    constructor; trivial. rewrite Forall_forall in *.
    intros z Hz. apply F. apply in_or_app. now left.
Qed.

Lemma sorted_insert (l1 l2 : list A) (x : A) :
  StronglySorted le_key l1 -> StronglySorted le_key l2 ->
  (forall y, In y l1 -> le_key y x) ->
  (forall y, In y l2 -> le_key x y) ->
  StronglySorted le_key (l1 ++ x :: l2).
Proof.
  induction 1 as [|a l S IH F]; intros S2 H1 H2; simpl.
  - constructor; trivial. now apply Forall_forall.
  - constructor.
    + apply IH; trivial. intros; apply H1; simpl; auto.
    + rewrite Forall_forall in *. intros z Hz.
      apply in_app_or in Hz as [Hz|[<-|Hz]].
      * now apply F.
      * apply H1; simpl; auto.
      * eapply le_trans; [apply H1; simpl; auto | now apply H2].
Qed.

Lemma binarysort_sorted (rest : list A) :
  forall a,
    (forall x, In x (a ++ rest) -> good (key x)) ->
    StronglySorted le_key a ->
    StronglySorted le_key (binarysort ltb key a rest).
Proof.
  induction rest as [|x rest IH]; intros a G S; simpl; trivial.
  destruct (bisect_split a x S) as [B1 B2].
  set (r := bisect ltb key (List.length a) a x 0 (List.length a)) in *.
  assert (Sa : StronglySorted le_key (firstn r a ++ skipn r a))
    by now rewrite firstn_skipn.
  apply sorted_app in Sa as [S1 S2].
  assert (Gx : good (key x)) by (apply G, in_or_app; simpl; auto).
  assert (Ga : forall y, In y a -> good (key y))
    by (intros; apply G, in_or_app; auto).
  apply IH.
  - intros y Hy. apply G. apply in_app_or in Hy as [Hy|Hy].
    + apply in_app_or in Hy as [Hy|[<-|Hy]].
      * apply in_or_app. left. eapply in_firstn; eauto.
      * apply in_or_app. simpl; auto.
      * apply in_or_app. left. eapply in_skipn; eauto.
    + apply in_or_app. simpl; auto.
  - apply sorted_insert; trivial.
    + intros y Hy. apply total; trivial; [|now apply B1].
      apply Ga. eapply in_firstn; eauto.
    + intros y Hy. apply lt_le. now apply B2.
Qed.

Lemma binarysort_stable (p : A -> bool) (rest : list A) :
  forall a,
    (forall x, In x (a ++ rest) -> good (key x)) ->
    StronglySorted le_key a ->
    tied p (a ++ rest) ->
    filter p (binarysort ltb key a rest) = filter p a ++ filter p rest.
Proof.
  induction rest as [|x rest IH]; intros a G S H; simpl;
    [now rewrite app_nil_r|].
  destruct (bisect_split a x S) as [B1 B2].
  set (r := bisect ltb key (List.length a) a x 0 (List.length a)) in *.
  assert (Sa : StronglySorted le_key (firstn r a ++ skipn r a))
    by now rewrite firstn_skipn.
  apply sorted_app in Sa as [S1 S2].
  assert (Gx : good (key x)) by (apply G, in_or_app; simpl; auto).
  assert (Ga : forall y, In y a -> good (key y))
    by (intros; apply G, in_or_app; auto).
  assert (I : forall y, In y ((firstn r a ++ x :: skipn r a) ++ rest) ->
                        In y (a ++ x :: rest)).
  { intros y Hy. apply in_app_or in Hy as [Hy|Hy].
    - apply in_app_or in Hy as [Hy|[<-|Hy]].
      + apply in_or_app. left. eapply in_firstn; eauto.
      + apply in_or_app. simpl; auto.
      + apply in_or_app. left. eapply in_skipn; eauto.
    - apply in_or_app. simpl; auto. }
  assert (Fa : filter p (firstn r a) ++ filter p (skipn r a) = filter p a)
    by now rewrite <- filter_app, firstn_skipn.
  assert (E : filter p (firstn r a ++ x :: skipn r a)
              = filter p a ++ filter p [x]).
  { rewrite filter_app. cbn [filter]. destruct (p x) eqn:Px.
    - assert (Es : filter p (skipn r a) = []).
      { destruct (filter p (skipn r a)) as [|y t] eqn:Ef; trivial.
        assert (Hy : In y (filter p (skipn r a)))
          by (rewrite Ef; simpl; auto).
        apply filter_In in Hy as [Hy Py].
        pose proof (B2 y Hy) as C.
        rewrite (H y x) in C; trivial; try discriminate.
        - apply in_or_app. left. eapply in_skipn; eauto.
        - apply in_or_app. simpl; auto. }
      rewrite Es in *. now rewrite app_nil_r in Fa; rewrite Fa.
    - now rewrite app_nil_r. }
  rewrite IH.
  - rewrite E, <- app_assoc. f_equal. cbn [filter].
    now destruct (p x).
  - intros y Hy. apply G. now apply I.
  - apply sorted_insert; trivial.
    + intros y Hy. apply total; trivial; [|now apply B1].
      apply Ga. eapply in_firstn; eauto.
    + intros y Hy. apply lt_le. now apply B2.
  - intros y z Hy Hz. apply H; now apply I.
Qed.

(** The run the list starts with, put in ascending order. *)
Lemma count_run_sorted (l : list A) :
  (forall x, In x l -> good (key x)) ->
  StronglySorted le_key
    (if snd (count_run ltb key l)
     then rev (firstn (fst (count_run ltb key l)) l)
     else firstn (fst (count_run ltb key l)) l).
Proof.
  intros G. destruct l as [|x [|y l]]; simpl.
  - constructor.
  - repeat constructor.
  - destruct (ltb (key y) (key x)) eqn:E; cbn [fst snd].
    + apply descending_rev_sorted.
      change (2 + descending_run ltb key y l)
        with (S (S (descending_run ltb key y l))).
      cbn [firstn]. pose proof (descending_run_sorted l y) as D.
      constructor; trivial.
      apply Forall_forall. intros z [<-|Hz]; [exact E|].
      apply StronglySorted_inv in D as [_ F]. rewrite Forall_forall in F.
      unfold gt_key. eapply lt_trans; [apply F; exact Hz | exact E].
    + change (2 + ascending_run ltb key y l)
        with (S (S (ascending_run ltb key y l))).
      cbn [firstn]. apply sorted_cons_le.
      * apply total; trivial; apply G; simpl; auto.
      * apply ascending_run_sorted;
          [apply G; simpl; auto | intros; apply G; simpl; auto].
Qed.

Lemma count_run_stable (p : A -> bool) (l : list A) :
  tied p l ->
  filter p
    (if snd (count_run ltb key l)
     then rev (firstn (fst (count_run ltb key l)) l)
     else firstn (fst (count_run ltb key l)) l)
  = filter p (firstn (fst (count_run ltb key l)) l).
Proof.
  intros H. destruct l as [|x [|y l]]; simpl; trivial.
  destruct (ltb (key y) (key x)) eqn:E; cbn [fst snd]; trivial.
  change (2 + descending_run ltb key y l)
    with (S (S (descending_run ltb key y l))).
  cbn [firstn]. apply descending_rev_filter.
  - pose proof (descending_run_sorted l y) as D.
    constructor; trivial.
    apply Forall_forall. intros z [<-|Hz]; [exact E|].
    apply StronglySorted_inv in D as [_ F]. rewrite Forall_forall in F.
    unfold gt_key. eapply lt_trans; [apply F; exact Hz | exact E].
  - intros a b Ha Hb. apply H.
    + destruct Ha as [<-|[<-|Ha]]; simpl; auto.
      right; right. eapply in_firstn; eauto.
    + destruct Hb as [<-|[<-|Hb]]; simpl; auto.
      right; right. eapply in_firstn; eauto.
Qed.

Lemma py_sorted_sorted (l : list A) :
  (forall x, In x l -> good (key x)) ->
  StronglySorted le_key (py_sorted ltb key l).
Proof.
  intros G. unfold py_sorted.
  pose proof (count_run_sorted l G) as S.
  destruct (count_run ltb key l) as [n desc]. cbn [fst snd] in S.
  apply binarysort_sorted; trivial.
  intros x Hx. apply G.
  rewrite <- (firstn_skipn n l). apply in_app_or in Hx as [Hx|Hx];
    apply in_or_app; [left | now right].
  destruct desc; [now apply in_rev in Hx | exact Hx].
Qed.

(** Stability: a family of items none of which has a key below
    another's comes out in the order it came in. *)
Lemma py_sorted_stable (p : A -> bool) (l : list A) :
  (forall x, In x l -> good (key x)) ->
  (forall x y, In x l -> In y l -> p x = true -> p y = true ->
               ltb (key y) (key x) = false) ->
  filter p (py_sorted ltb key l) = filter p l.
Proof.
  intros G H. unfold py_sorted.
  pose proof (count_run_sorted l G) as S.
  pose proof (count_run_stable p l H) as F.
  destruct (count_run ltb key l) as [n desc]. cbn [fst snd] in S, F.
  assert (I : forall x,
             In x ((if desc then rev (firstn n l) else firstn n l)
                   ++ skipn n l) -> In x l).
  { intros x Hx. rewrite <- (firstn_skipn n l).
    apply in_app_or in Hx as [Hx|Hx];
      apply in_or_app; [left | now right].
    destruct desc; [now apply in_rev in Hx | exact Hx]. }
  rewrite binarysort_stable; trivial.
  - rewrite F, <- filter_app. now rewrite firstn_skipn.
  - intros x Hx. apply G. now apply I.
  - intros x y Hx Hy. apply H; now apply I.
Qed.
(** A list has one stable sorted arrangement: two arrangements of the
    same items that are both ascending and both keep the items of every
    class of equal keys in the same order are the same list. *)
Lemma sorted_stable_unique (l1 : list A) :
  forall l2,
    Permutation l1 l2 ->
    (forall x, In x l1 -> leb (key x) (key x) = true) ->
    StronglySorted le_key l1 -> StronglySorted le_key l2 ->
    (forall k, filter (fun x => leb (key x) k && leb k (key x)) l1
               = filter (fun x => leb (key x) k && leb k (key x)) l2) ->
    l1 = l2.
Proof.
  induction l1 as [|a t1 IH]; intros l2 P R S1 S2 F.
  - now apply Permutation_nil in P.
  - destruct l2 as [|b t2];
      [symmetry in P; now apply Permutation_nil in P|].
    apply StronglySorted_inv in S1 as [S1 F1].
    apply StronglySorted_inv in S2 as [S2 F2].
    rewrite Forall_forall in F1, F2.
    assert (Raa : leb (key a) (key a) = true) by (apply R; simpl; auto).
    assert (Lba : le_key b a).
    { assert (I : In a (b :: t2))
        by (apply (Permutation_in _ P); simpl; auto).
      destruct I as [->|I]; [exact Raa | now apply F2]. }
    assert (Lab : le_key a b).
    { assert (I : In b (a :: t1))
        by (apply (Permutation_in _ (Permutation_sym P)); simpl; auto).
      destruct I as [->|I]; [exact Raa | now apply F1]. }
    assert (E : a = b).
    { specialize (F (key a)). simpl in F.
      unfold le_key in Lba, Lab. rewrite Raa, Lba, Lab in F. simpl in F.
      congruence. }
    subst b. f_equal. apply IH; trivial.
    + now apply Permutation_cons_inv in P.
    + intros; apply R; simpl; auto.
    + intros k. specialize (F k). simpl in F.
      destruct (leb (key a) k && leb k (key a)); congruence.
Qed.

(** [min] returns the first item whose key is the least. *)
Lemma min_from_split (l : list A) :
  forall pre b mid,
    (forall r, In r (pre ++ b :: mid ++ l) -> good (key r)) ->
    (forall r, In r pre -> ltb (key b) (key r) = true) ->
    (forall r, In r mid -> leb (key b) (key r) = true) ->
    exists before after,
      pre ++ b :: mid ++ l = before ++ min_from ltb key b l :: after
      /\ (forall r, In r before ->
            ltb (key (min_from ltb key b l)) (key r) = true)
      /\ (forall r, In r after ->
            leb (key (min_from ltb key b l)) (key r) = true).
Proof.
  induction l as [|x l IH]; intros pre b mid G Hpre Hmid; simpl.
  - exists pre, mid. rewrite app_nil_r. auto.
  - destruct (ltb (key x) (key b)) eqn:E.
    + destruct (IH (pre ++ b :: mid) x []) as (bf & af & Eq & Hb & Ha).
      * intros r Hr. apply G.
        rewrite <- app_assoc in Hr. simpl in Hr. exact Hr.
      * intros r Hr. apply in_app_or in Hr.
        destruct Hr as [Hr|[<-|Hr]]; trivial.
        -- eapply lt_trans; [exact E|]. now apply Hpre.
        -- eapply lt_le_trans; [exact E|]. now apply Hmid.
      * intros r [].
      * exists bf, af. split; [|auto].
        rewrite <- Eq, <- app_assoc. reflexivity.
    + destruct (IH pre b (mid ++ [x])) as (bf & af & Eq & Hb & Ha).
      * intros r Hr. apply G.
        rewrite <- app_assoc in Hr. exact Hr.
      * exact Hpre.
      * intros r Hr. apply in_app_or in Hr.
        destruct Hr as [Hr|[<-|[]]]; [now apply Hmid|].
        apply total; trivial; apply G; apply in_or_app; right;
          simpl; [right; apply in_or_app; right; simpl; auto | auto].
      * exists bf, af. split; [|auto].
        rewrite <- Eq, <- app_assoc. reflexivity.
Qed.
End Ordered.
End SortFacts.

(** ** Dictionaries *)

Section DictFacts.
Context {K V : Type} (eqb : K -> K -> bool).
Hypothesis eqb_eq : forall a b, eqb a b = true <-> a = b.

Lemma eqb_refl_K (k : K) : eqb k k = true.
Proof. now apply eqb_eq. Qed.

Lemma eqb_neq_K (a b : K) : a <> b -> eqb a b = false.
Proof.
  intros N. destruct (eqb a b) eqn:E; trivial.
  apply eqb_eq in E. contradiction.
Qed.

Lemma dict_get_In (d : dict K V) (k : K) (v : V) :
  dict_get eqb d k = Some v -> In (k, v) d.
Proof.
  induction d as [|[k' v'] d IH]; simpl; [discriminate|].
  destruct (eqb k k') eqn:E.
  - apply eqb_eq in E. subst. intros [= ->]. now left.
  - auto.
Qed.

Lemma dict_get_None (d : dict K V) (k : K) :
  dict_get eqb d k = None <-> ~ In k (map fst d).
Proof.
  induction d as [|[k' v'] d IH]; simpl; [tauto|].
  destruct (eqb k k') eqn:E.
  - apply eqb_eq in E. subst. split; [discriminate | tauto].
  - rewrite IH. split.
    + intros N [H|H]; [|now apply N].
      subst k'. rewrite eqb_refl_K in E. discriminate.
    + intros N H. apply N. now right.
Qed.

Lemma dict_get_NoDup_In (d : dict K V) (k : K) (v : V) :
  NoDup (map fst d) -> In (k, v) d -> dict_get eqb d k = Some v.
Proof.
  induction d as [|[k' v'] d IH]; simpl; [tauto|].
  intros ND [[= -> ->]|H]; inversion_clear ND as [|? ? N ND'].
  - now rewrite eqb_refl_K.
  - rewrite eqb_neq_K; auto.
    intros ->. apply N. now apply (in_map fst) in H.
Qed.

Lemma dict_set_fresh (d : dict K V) (k : K) (v : V) :
  ~ In k (map fst d) -> dict_set eqb d k v = d ++ [(k, v)].
Proof.
  induction d as [|[k' v'] d IH]; simpl; trivial.
  intros N. rewrite eqb_neq_K by (intros ->; apply N; now left).
  rewrite IH; trivial. intro H. apply N. now right.
Qed.

Lemma dict_get_app (d1 d2 : dict K V) (k : K) :
  dict_get eqb (d1 ++ d2) k
  = match dict_get eqb d1 k with
    | Some v => Some v
    | None => dict_get eqb d2 k
    end.
Proof.
  induction d1 as [|[k' v'] d1 IH]; simpl; trivial.
  now destruct (eqb k k').
Qed.
End DictFacts.

Lemma key_eqb_eq (a b : run_key) : key_eqb a b = true <-> a = b.
Proof.
  destruct a as [a1 a2], b as [b1 b2]. unfold key_eqb. simpl.
  rewrite andb_true_iff, !String.eqb_eq. split.
  - now intros [-> ->].
  - now intros [= -> ->].
Qed.

(* ===================================================================== *)
(** * The best-run selection (C1) *)
(* ===================================================================== *)

Lemma py_lt_le_total (a b : pynum) :
  not_nan a -> not_nan b -> py_lt a b = false -> py_le b a = true.
Proof. apply xleb_total. Qed.

Lemma py_lt_le (a b : pynum) : py_lt a b = true -> py_le a b = true.
Proof. apply xltb_xleb. Qed.

Lemma py_le_trans (a b c : pynum) :
  py_le a b = true -> py_le b c = true -> py_le a c = true.
Proof. apply xleb_trans. Qed.

Lemma py_lt_trans (a b c : pynum) :
  py_lt a b = true -> py_lt b c = true -> py_lt a c = true.
Proof. apply xltb_trans. Qed.

Lemma py_lt_le_trans (a b c : pynum) :
  py_lt a b = true -> py_le b c = true -> py_lt a c = true.
Proof. apply xltb_xleb_trans. Qed.

(** On keys without NaN the result of [sorted] is determined by what
    Python promises of it (an ascending, stable arrangement of the
    items), so [py_sorted] is that result whatever the sorting algorithm
    and whatever the length of the list.  A NaN key is below nothing and
    has nothing below it: a list with such a key may have no ascending
    arrangement at all, and the result then depends on the steps of the
    algorithm. *)
Lemma py_sorted_canonical {A} (key : A -> pynum) (l l' : list A) :
  (forall x, In x l -> not_nan (key x)) ->
  Permutation l l' ->
  StronglySorted (fun a b => py_le (key a) (key b) = true) l' ->
  (forall k, filter (fun x => py_le (key x) k && py_le k (key x)) l'
             = filter (fun x => py_le (key x) k && py_le k (key x)) l) ->
  l' = py_sorted py_lt key l.
Proof.
  intros G P S F. symmetry.
  apply (sorted_stable_unique key py_le).
  - rewrite py_sorted_perm. exact P.
  - intros x Hx. apply py_sorted_In in Hx.
    apply py_lt_le_total; try now apply G.
    apply xltb_irrefl.
  - apply (py_sorted_sorted py_lt key py_le not_nan
             py_lt_le_total py_lt_le py_le_trans py_lt_trans
             py_lt_le_trans); exact G.
  - exact S.
  - intros k. rewrite F.
    apply (py_sorted_stable py_lt key py_le not_nan
             py_lt_le_total py_lt_le py_le_trans py_lt_trans
             py_lt_le_trans); [exact G|].
    intros x y _ _ Hx Hy.
    apply andb_prop in Hx as [Hx1 Hx2]. apply andb_prop in Hy as [Hy1 Hy2].
    apply xleb_xltb. exact (py_le_trans _ _ _ Hx1 Hy2).
Qed.

(** [min] over the runs of one key. *)
Lemma py_min_first_minimum (runs : list run) :
  runs <> [] ->
  (forall r, In r runs -> not_nan (mae_or_inf r)) ->
  exists sel before after,
    py_min py_lt mae_or_inf runs = Ok sel
    /\ runs = before ++ sel :: after
    /\ (forall r, In r before ->
          py_lt (mae_or_inf sel) (mae_or_inf r) = true)
    /\ (forall r, In r after ->
          py_le (mae_or_inf sel) (mae_or_inf r) = true).
Proof.
  destruct runs as [|b l]; [congruence|]. intros _ G. simpl.
  destruct (min_from_split py_lt mae_or_inf py_le not_nan
              py_lt_le_total py_lt_trans py_lt_le_trans l [] b [])
    as (bf & af & E & Hb & Ha).
  - exact G.
  - intros r [].
  - intros r [].
  - exists (min_from py_lt mae_or_inf b l), bf, af. auto.
Qed.

(** [choose_best] maps every key to the [min] of its runs. *)
Lemma choose_best_fold (all_runs : dict run_key (list run)) :
  forall acc,
    NoDup (map fst acc ++ map fst all_runs) ->
    Forall (fun kv => snd kv <> []) all_runs ->
    exists best,
      res_fold
        (fun best (item : run_key * list run) =>
           let '(key, runs) := item in
           best_run <- py_min py_lt mae_or_inf runs ;;
           Ok (dict_set key_eqb best key best_run))
        all_runs acc = Ok (acc ++ best)
      /\ Forall2 (fun kv b => fst b = fst kv
                              /\ py_min py_lt mae_or_inf (snd kv) = Ok (snd b))
           all_runs best.
Proof.
  induction all_runs as [|[key runs] rest IH]; intros acc ND NE; simpl.
  - exists []. rewrite app_nil_r. auto.
  - inversion_clear NE as [|? ? Hne NE'].
    destruct runs as [|r0 runs]; [now simpl in Hne|]. simpl.
    rewrite (dict_set_fresh key_eqb key_eqb_eq).
    2:{ intro H. apply NoDup_remove_2 in ND. apply ND.
        apply in_or_app. now left. }
    destruct (IH (acc ++ [(key, min_from py_lt mae_or_inf r0 runs)]))
      as (best & E & F); trivial.
    { rewrite map_app, <- app_assoc. exact ND. }
    exists ((key, min_from py_lt mae_or_inf r0 runs) :: best). split.
    + rewrite E, <- app_assoc. reflexivity.
    + constructor; auto.
Qed.

Lemma best_lookup (all_runs : dict run_key (list run)) :
  forall best key runs,
    NoDup (map fst all_runs) ->
    Forall2 (fun kv b => fst b = fst kv
                         /\ py_min py_lt mae_or_inf (snd kv) = Ok (snd b))
      all_runs best ->
    dict_get key_eqb all_runs key = Some runs ->
    exists sel, dict_get key_eqb best key = Some sel
                /\ py_min py_lt mae_or_inf runs = Ok sel.
Proof.
  induction all_runs as [|[k rs] rest IH]; intros best key runs ND F G.
  - discriminate.
  - inversion F as [|? [k' b] ? best' [Hk Hm] F']; subst. simpl in *.
    subst k'. destruct (key_eqb key k).
    + injection G as ->. eauto.
    + inversion_clear ND. eauto.
Qed.

Lemma choose_best_lookup (all_runs : dict run_key (list run))
    (key : run_key) (runs : list run) :
  repo_wf all_runs ->
  dict_get key_eqb all_runs key = Some runs ->
  exists best sel,
    choose_best all_runs = Ok best
    /\ dict_get key_eqb best key = Some sel
    /\ py_min py_lt mae_or_inf runs = Ok sel.
Proof.
  intros [ND NE] G.
  destruct (choose_best_fold all_runs [] ND NE) as (best & E & F).
  destruct (best_lookup all_runs best key runs ND F G) as (sel & Gs & M).
  exists best, sel. auto.
Qed.

Lemma mae_or_inf_not_nan (r : run) :
  (forall v, as_number (r_MAE r) = Some v -> not_nan v) ->
  not_nan (mae_or_inf r).
Proof.
  unfold mae_or_inf, num_or_inf. intros H.
  destruct (as_number (r_MAE r)); [now apply H | reflexivity].
Qed.

(** The repository [collect_all_runs] builds satisfies the invariant. *)
Lemma dict_append_keys (d : dict run_key (list run)) (k : run_key) (x : run) :
  (In k (map fst d) /\ map fst (dict_append key_eqb d k x) = map fst d)
  \/ (~ In k (map fst d)
      /\ map fst (dict_append key_eqb d k x) = map fst d ++ [k]).
Proof.
  induction d as [|[k' xs] d IH]; simpl.
  - right. tauto.
  - destruct (key_eqb k k') eqn:E.
    + apply key_eqb_eq in E. subst. left. simpl. auto.
    + assert (N : k' <> k).
      { intros ->. rewrite (proj2 (key_eqb_eq k k) eq_refl) in E.
        discriminate. }
      destruct IH as [[I E']|[I E']]; simpl; rewrite E'.
      * left. auto.
      * right. split; trivial. tauto.
Qed.

Lemma dict_append_nonempty (d : dict run_key (list run)) (k : run_key)
    (x : run) :
  Forall (fun kv => snd kv <> []) d ->
  Forall (fun kv => snd kv <> []) (dict_append key_eqb d k x).
Proof.
  induction d as [|[k' xs] d IH]; intros F; simpl.
  - repeat constructor. discriminate.
  - inversion_clear F. destruct (key_eqb k k'); constructor; auto.
    simpl. now destruct xs.
Qed.

Lemma dict_append_wf (d : dict run_key (list run)) (k : run_key) (x : run) :
  repo_wf d -> repo_wf (dict_append key_eqb d k x).
Proof.
  intros [ND NE]. split; [|now apply dict_append_nonempty].
  destruct (dict_append_keys d k x) as [[_ ->]|[N ->]]; trivial.
  apply NoDup_app; trivial.
  - repeat constructor. simpl. tauto.
  - intros a Ha [<-|[]]. contradiction.
Qed.

Lemma collect_step_wf (st : scan_state) (e : walk_entry) :
  repo_wf (fst st) -> repo_wf (fst (collect_step st e)).
Proof.
  destruct st as [all_runs err]. unfold collect_step. intros W.
  destruct (negb (has_metrics e)); trivial.
  destruct (read_overall (metrics_file e)) as [[[mae mape] rmse]|ex];
    trivial.
  destruct (List.length (split_on os_sep (rel_dir e)) <? 2); trivial.
  destruct (split_on os_sep (rel_dir e)) as [|model [|setting rest]];
    trivial.
  simpl. now apply dict_append_wf.
Qed.

Lemma collect_from_wf (walk : list walk_entry) :
  forall st, repo_wf (fst st) -> repo_wf (fst (collect_from st walk)).
Proof.
  induction walk as [|e walk IH]; intros st W; simpl; trivial.
  apply IH. now apply collect_step_wf.
Qed.

Lemma collect_all_runs_wf (walk : list walk_entry) :
  repo_wf (fst (collect_all_runs walk)).
Proof.
  apply collect_from_wf. split; constructor.
Qed.

(** C1, as amended: for every key of the repository whose runs carry no
    NaN as MAE, [choose_best] selects a run of that key; every run
    recorded before it has a strictly greater MAE and every run recorded
    after it has a greater or equal one, an MAE that is absent (not a
    number) counting as positive infinity.  Hence the selected MAE is below
    or equal to the MAE of every run of the key that has one. *)
Theorem C1_choose_best_first_minimum :
  forall (all_runs : dict run_key (list run)) (key : run_key)
         (runs : list run),
    repo_wf all_runs ->
    dict_get key_eqb all_runs key = Some runs ->
    (forall r v, In r runs -> as_number (r_MAE r) = Some v -> not_nan v) ->
    exists best sel before after,
      choose_best all_runs = Ok best
      /\ dict_get key_eqb best key = Some sel
      /\ runs = before ++ sel :: after
      /\ (forall r, In r before ->
            py_lt (mae_or_inf sel) (mae_or_inf r) = true)
      /\ (forall r, In r after ->
            py_le (mae_or_inf sel) (mae_or_inf r) = true)
      /\ (forall r, as_number (r_MAE r) = None ->
            mae_or_inf r = NFloat f_inf)
      /\ (forall r v, In r runs -> as_number (r_MAE r) = Some v ->
            py_le (mae_or_inf sel) v = true).
Proof.
  intros all_runs key runs W G NN.
  destruct (choose_best_lookup all_runs key runs W G)
    as (best & sel & E & Gs & M).
  assert (Hne : runs <> []).
  { destruct W as [_ NE]. rewrite Forall_forall in NE.
    apply (NE (key, runs)). now apply (dict_get_In key_eqb key_eqb_eq). }
  assert (Hgood : forall r, In r runs -> not_nan (mae_or_inf r)).
  { intros r Hr. apply mae_or_inf_not_nan. intros v. now apply NN. }
  destruct (py_min_first_minimum runs Hne Hgood)
    as (sel' & bf & af & M' & Er & Hb & Ha).
  rewrite M in M'. injection M' as <-.
  exists best, sel, bf, af. repeat split; trivial.
  - intros r Hr. unfold mae_or_inf, num_or_inf. now rewrite Hr.
  - intros r v Hr Hv.
    assert (Ev : mae_or_inf r = v)
      by (unfold mae_or_inf, num_or_inf; now rewrite Hv).
    rewrite <- Ev. rewrite Er in Hr. apply in_app_or in Hr.
    assert (Hsel : In sel runs)
      by (rewrite Er; apply in_or_app; right; now left).
    destruct Hr as [Hr|[Hr|Hr]].
    + apply py_lt_le. now apply Hb.
    + subst r. apply py_lt_le_total; auto.
      unfold py_lt. apply xltb_irrefl.
    + now apply Ha.
Qed.

Lemma C1_witness :
  exists best sel before after,
    choose_best c1_repo = Ok best
    /\ dict_get key_eqb best ("M", "D") = Some sel
    /\ [sample_run (PFloat f_one) "a"; sample_run PNone "b";
        sample_run (PInt 1) "c"] = before ++ sel :: after
    /\ (forall r, In r before ->
          py_lt (mae_or_inf sel) (mae_or_inf r) = true)
    /\ (forall r, In r after ->
          py_le (mae_or_inf sel) (mae_or_inf r) = true)
    /\ (forall r, as_number (r_MAE r) = None ->
          mae_or_inf r = NFloat f_inf)
    /\ (forall r v,
          In r [sample_run (PFloat f_one) "a"; sample_run PNone "b";
                sample_run (PInt 1) "c"] ->
          as_number (r_MAE r) = Some v ->
          py_le (mae_or_inf sel) v = true).
Proof.
  apply (C1_choose_best_first_minimum c1_repo ("M", "D")).
  - split; [repeat constructor; simpl; tauto|].
    repeat constructor; discriminate.
  - reflexivity.
  - intros r v [<-|[<-|[<-|[]]]]; simpl; intros [= <-]; reflexivity.
Defined.

(** C1 as stated fails on a NaN: with a first run whose MAE is NaN and a
    second whose MAE is 1.0, the first is selected, and its MAE is not
    below or equal to 1.0. *)
Lemma C1_counterexample :
  choose_best [(("M", "D"), [sample_run (PFloat f_nan) "a";
                             sample_run (PFloat f_one) "b"])]
  = Ok [(("M", "D"), sample_run (PFloat f_nan) "a")]
  /\ as_number (r_MAE (sample_run (PFloat f_one) "b")) = Some (NFloat f_one)
  /\ py_le (mae_or_inf (sample_run (PFloat f_nan) "a")) (NFloat f_one)
     = false.
Proof. repeat split. Qed.

(* ===================================================================== *)
(** * The leaderboard order (C2, C10) *)
(* ===================================================================== *)

Lemma dict_get_set {V} (d : dict string V) (k k' : string) (v : V) :
  dict_get String.eqb (dict_set String.eqb d k v) k'
  = if String.eqb k' k then Some v else dict_get String.eqb d k'.
Proof.
  induction d as [|[k0 v0] d IH]; simpl.
  - reflexivity.
  - destruct (String.eqb k k0) eqn:E; simpl.
    + apply String.eqb_eq in E. subst k0.
      now destruct (String.eqb k' k).
    + rewrite IH. destruct (String.eqb k' k0) eqn:E0; trivial.
      apply String.eqb_eq in E0. subst k0.
      rewrite String.eqb_sym in E. now rewrite E.
Qed.

Lemma model_avg_fold (best : dict run_key run) (datasets models : list string) :
  forall acc avg,
    res_fold
      (fun acc m =>
         v <- avg_mae (eligible_maes best datasets m) ;;
         Ok (dict_set String.eqb acc m v))
      models acc = Ok avg ->
    forall m,
      (In m models ->
       exists v, avg_mae (eligible_maes best datasets m) = Ok v
                 /\ dict_get String.eqb avg m = Some v)
      /\ (~ In m models ->
          dict_get String.eqb avg m = dict_get String.eqb acc m).
Proof.
  induction models as [|x models IH]; intros acc avg H m; simpl in *.
  - injection H as <-. tauto.
  - destruct (avg_mae (eligible_maes best datasets x)) as [v|e] eqn:Ev;
      simpl in H; [|discriminate].
    destruct (IH _ _ H m) as [Hin Hout].
    split.
    + intros [->|Hm].
      * destruct (in_dec string_dec m models) as [I|N]; [auto|].
        exists v. split; trivial.
        rewrite (Hout N), dict_get_set. now rewrite String.eqb_refl.
      * auto.
    + intros N. rewrite Hout by tauto. rewrite dict_get_set.
      destruct (String.eqb m x) eqn:E; trivial.
      apply String.eqb_eq in E. subst. tauto.
Qed.

Lemma model_avg_mae_key (best : dict run_key run) (avg : dict string pynum) :
  model_avg_mae best (model_names best) (dataset_names best) = Ok avg ->
  forall m, In m (model_names best) -> mean_of best m = Ok (avg_key avg m).
Proof.
  intros H m Hm.
  destruct (model_avg_fold _ _ _ _ _ H m) as [Hin _].
  destruct (Hin Hm) as (v & Ev & G).
  unfold mean_of, avg_key. now rewrite G.
Qed.

(** The rows the table prints are the ranked models. *)
Lemma summary_prepare_ranked (float_of_str : string -> option float)
    (repr_of : pyval -> string) (best : dict run_key run)
    (sl : summary_layout) :
  summary_prepare float_of_str repr_of best = Ok sl ->
  ranked_models best = Ok (sl_models sl)
  /\ sl_datasets sl = dataset_names best.
Proof.
  unfold summary_prepare, ranked_models.
  destruct (model_avg_mae best (model_names best) (dataset_names best))
    as [avg|e]; simpl; [|discriminate].
  destruct (cell_values _ _ _ _ _) as [values|e]; simpl; [|discriminate].
  destruct (summary_widths _ _ _ _) as [w|e]; simpl; [|discriminate].
  intros [= <-]. simpl. auto.
Qed.

(** Which values enter the mean of a model. *)
Lemma eligible_maes_In (best : dict run_key run) (datasets : list string)
    (m : string) (v : pynum) :
  In v (eligible_maes best datasets m) <->
  exists d info, In d datasets
                 /\ dict_get key_eqb best (m, d) = Some info
                 /\ as_number (r_MAE info) = Some v.
Proof.
  unfold eligible_maes. rewrite in_flat_map. split.
  - intros (d & Hd & Hv).
    destruct (dict_get key_eqb best (m, d)) as [info|] eqn:G; [|easy].
    destruct (as_number (r_MAE info)) as [v'|] eqn:N; [|easy].
    destruct Hv as [<-|[]]. eauto.
  - intros (d & info & Hd & G & N). exists d. split; trivial.
    rewrite G, N. now left.
Qed.

Lemma eligible_maes_length (best : dict run_key run) (datasets : list string)
    (m : string) :
  List.length (eligible_maes best datasets m)
  = List.length (filter (has_numeric_mae best m) datasets).
Proof.
  unfold eligible_maes, has_numeric_mae.
  induction datasets as [|d ds IH]; simpl; trivial.
  rewrite length_app, IH.
  destruct (dict_get key_eqb best (m, d)) as [info|]; trivial.
  now destruct (as_number (r_MAE info)).
Qed.

Lemma avg_mae_empty (maes : list pynum) :
  maes = [] -> avg_mae maes = Ok (NFloat f_inf).
Proof. now intros ->. Qed.

Lemma py_le_inf (a : pynum) : not_nan a -> py_le a (NFloat f_inf) = true.
Proof.
  unfold not_nan, py_le. simpl. now destruct (num_value a).
Qed.

(** C2, as amended: when the means are computed and none of them is NaN,
    the rows are the models in ascending order of the mean of the best-run
    MAE over exactly the datasets for which the model has a best run with
    a numeric MAE (the mean is [sum / len] of those values, a dataset
    without one adding nothing); a model without any such value has the
    mean infinity, which no other mean exceeds.  In the scenario with A at
    5 and 7 and B at 4, the means are 6 and 4 and B comes first. *)
Theorem C2_rows_ascending_by_mean :
  (forall (best : dict run_key run) (rows : list string),
      ranked_models best = Ok rows ->
      (forall m v, In m (model_names best) -> mean_of best m = Ok v ->
                   not_nan v) ->
      exists mean : string -> pynum,
        Permutation rows (model_names best)
        /\ (forall m, In m rows -> mean_of best m = Ok (mean m))
        /\ StronglySorted (fun a b => py_le (mean a) (mean b) = true) rows
        /\ (forall m v,
              In v (eligible_maes best (dataset_names best) m) <->
              exists d info,
                In d (dataset_names best)
                /\ dict_get key_eqb best (m, d) = Some info
                /\ as_number (r_MAE info) = Some v)
        /\ (forall m,
              List.length (eligible_maes best (dataset_names best) m)
              = List.length (filter (has_numeric_mae best m)
                               (dataset_names best)))
        /\ (forall m, In m rows ->
              eligible_maes best (dataset_names best) m = [] ->
              mean m = NFloat f_inf
              /\ forall m', In m' rows -> py_le (mean m') (mean m) = true)
        /\ (forall float_of_str repr_of sl,
              summary_prepare float_of_str repr_of best = Ok sl ->
              sl_models sl = rows))
  /\ mean_of c2_best "A" = Ok (NFloat (float_of_decimal 60 1))
  /\ mean_of c2_best "B" = Ok (NFloat (float_of_decimal 40 1))
  /\ ranked_models c2_best = Ok ["B"; "A"].
Proof.
  split; [|repeat split].
  intros best rows R NN. unfold ranked_models in R.
  destruct (model_avg_mae best (model_names best) (dataset_names best))
    as [avg|e] eqn:Ea; simpl in R; [|discriminate].
  injection R as <-.
  pose proof (model_avg_mae_key best avg Ea) as K.
  assert (P : Permutation (rank_models avg (model_names best))
                (model_names best)) by apply py_sorted_perm.
  assert (I : forall m, In m (rank_models avg (model_names best)) ->
                        In m (model_names best))
    by (intros m; apply Permutation_in, P).
  exists (avg_key avg). repeat split.
  - exact P.
  - intros m Hm. apply K. now apply I.
  - apply (py_sorted_sorted py_lt (avg_key avg) py_le not_nan
             py_lt_le_total py_lt_le py_le_trans py_lt_trans
             py_lt_le_trans).
    intros m Hm. apply (NN m); trivial. now apply K.
  - apply eligible_maes_In.
  - apply eligible_maes_In.
  - apply eligible_maes_length.
  - pose proof (K m (I m H)) as E. unfold mean_of in E.
    rewrite H0 in E. simpl in E. now injection E as <-.
  - intros m' Hm'.
    pose proof (K m (I m H)) as E. unfold mean_of in E.
    rewrite H0 in E. simpl in E. injection E as <-.
    apply py_le_inf. apply (NN m'); [now apply I|]. apply K. now apply I.
  - intros fs rp sl S.
    destruct (summary_prepare_ranked fs rp best sl S) as [R _].
    unfold ranked_models in R. rewrite Ea in R. simpl in R.
    now injection R as <-.
Qed.

Lemma C2_witness :
  exists mean : string -> pynum,
    Permutation ["B"; "A"] (model_names c2_best)
    /\ (forall m, In m ["B"; "A"] -> mean_of c2_best m = Ok (mean m))
    /\ StronglySorted (fun a b => py_le (mean a) (mean b) = true) ["B"; "A"]
    /\ (forall m v,
          In v (eligible_maes c2_best (dataset_names c2_best) m) <->
          exists d info,
            In d (dataset_names c2_best)
            /\ dict_get key_eqb c2_best (m, d) = Some info
            /\ as_number (r_MAE info) = Some v)
    /\ (forall m,
          List.length (eligible_maes c2_best (dataset_names c2_best) m)
          = List.length (filter (has_numeric_mae c2_best m)
                           (dataset_names c2_best)))
    /\ (forall m, In m ["B"; "A"] ->
          eligible_maes c2_best (dataset_names c2_best) m = [] ->
          mean m = NFloat f_inf
          /\ forall m', In m' ["B"; "A"] -> py_le (mean m') (mean m) = true)
    /\ (forall float_of_str repr_of sl,
          summary_prepare float_of_str repr_of c2_best = Ok sl ->
          sl_models sl = ["B"; "A"]).
Proof.
  apply (proj1 C2_rows_ascending_by_mean c2_best ["B"; "A"]).
  - reflexivity.
  - intros m v [<-|[<-|[]]]; vm_compute; intros [= <-]; reflexivity.
Defined.

(** C2 as stated fails on a NaN: with A at NaN and B at 1.0 the rows are
    A then B, and the mean of A is not below or equal to the mean of B.
    Nor is the mean of B below or equal to that of A: these two rows have
    no ascending order. *)
Lemma C2_counterexample :
  ranked_models c2_nan_best = Ok ["A"; "B"]
  /\ mean_of c2_nan_best "A" = Ok (NFloat f_nan)
  /\ mean_of c2_nan_best "B" = Ok (NFloat f_one)
  /\ py_le (NFloat f_nan) (NFloat f_one) = false
  /\ py_le (NFloat f_one) (NFloat f_nan) = false.
Proof. repeat split. Qed.

(** ** Sets of names, sorted *)

Lemma str_leb_ltb (a b : string) :
  String.leb a b = true <-> String.ltb a b = true \/ a = b.
Proof.
  unfold String.leb, String.ltb.
  destruct (String.compare a b) eqn:E; split; intros H; auto;
    try discriminate.
  - right. now apply String.compare_eq_iff.
  - destruct H as [H| ->]; [discriminate|].
    now rewrite str_compare_refl in E.
Qed.

Lemma str_leb_total (a b : string) :
  String.ltb a b = false -> String.leb b a = true.
Proof.
  intros H. apply str_leb_ltb.
  destruct (String.ltb b a) eqn:E; auto.
  right. symmetry. now apply str_ltb_total.
Qed.

Lemma str_leb_trans (a b c : string) :
  String.leb a b = true -> String.leb b c = true -> String.leb a c = true.
Proof.
  rewrite !str_leb_ltb. intros [H1| ->] [H2| ->]; auto.
  left. eapply str_ltb_trans; eauto.
Qed.

Lemma dedup_In (l : list string) (x : string) : In x (dedup l) <-> In x l.
Proof.
  induction l as [|y l IH]; simpl; [tauto|].
  rewrite filter_In, IH, negb_true_iff, String.eqb_neq.
  destruct (string_dec y x); [subst|]; intuition congruence.
Qed.

Lemma dedup_NoDup (l : list string) : NoDup (dedup l).
Proof.
  induction l as [|y l IH]; simpl; constructor.
  - rewrite filter_In, String.eqb_refl. simpl. intros [_ H]. discriminate.
  - now apply NoDup_filter.
Qed.

Lemma sorted_set_In (l : list string) (x : string) :
  In x (sorted_set l) <-> In x l.
Proof. unfold sorted_set. now rewrite py_sorted_In, dedup_In. Qed.

Lemma sorted_set_NoDup (l : list string) : NoDup (sorted_set l).
Proof.
  unfold sorted_set.
  eapply Permutation_NoDup; [symmetry; apply py_sorted_perm|].
  apply dedup_NoDup.
Qed.

Lemma sorted_NoDup_strict (l : list string) :
  StronglySorted (fun a b => String.leb a b = true) l -> NoDup l ->
  StronglySorted lex_lt l.
Proof.
  induction 1 as [|a l S IH F]; intros ND; constructor;
    inversion_clear ND as [|? ? N ND'].
  - auto.
  - rewrite Forall_forall in *. intros x Hx.
    destruct (proj1 (str_leb_ltb a x) (F x Hx)) as [L| ->]; trivial.
    contradiction.
Qed.

Lemma str_ltb_leb_trans (a b c : string) :
  String.ltb a b = true -> String.leb b c = true -> String.ltb a c = true.
Proof.
  intros H1 H2. destruct (proj1 (str_leb_ltb b c) H2) as [L| <-]; trivial.
  exact (str_ltb_trans _ _ _ H1 L).
Qed.

(** [sorted(set(l))] is strictly increasing. *)
Lemma sorted_set_strict (l : list string) :
  StronglySorted lex_lt (sorted_set l).
Proof.
  apply sorted_NoDup_strict; [|apply sorted_set_NoDup].
  unfold sorted_set.
  apply (py_sorted_sorted String.ltb (fun s => s) String.leb
           (fun _ => True)).
  - intros a b _ _. apply str_leb_total.
  - intros a b H. apply str_leb_ltb. now left.
  - apply str_leb_trans.
  - apply str_ltb_trans.
  - apply str_ltb_leb_trans.
  - trivial.
Qed.

Lemma strict_sorted_unique (l1 : list string) :
  forall l2,
    StronglySorted lex_lt l1 -> StronglySorted lex_lt l2 ->
    (forall x, In x l1 <-> In x l2) -> l1 = l2.
Proof.
  induction l1 as [|a l1 IH]; intros [|b l2] S1 S2 E; trivial.
  - destruct (proj2 (E b)); simpl; auto.
  - destruct (proj1 (E a)); simpl; auto.
  - apply StronglySorted_inv in S1 as [S1 F1].
    apply StronglySorted_inv in S2 as [S2 F2].
    rewrite Forall_forall in F1, F2.
    assert (Eab : a = b).
    { destruct (proj1 (E a) (or_introl eq_refl)) as [->|Ha]; trivial.
      destruct (proj2 (E b) (or_introl eq_refl)) as [->|Hb]; trivial.
      pose proof (str_ltb_trans _ _ _ (F1 b Hb) (F2 a Ha)) as C.
      rewrite str_ltb_irrefl in C. discriminate. }
    subst b. f_equal. apply IH; trivial.
    intros x. split; intros Hx.
    + destruct (proj1 (E x) (or_intror Hx)) as [->|H]; trivial.
      pose proof (F1 _ Hx) as C. unfold lex_lt in C.
      rewrite str_ltb_irrefl in C. discriminate.
    + destruct (proj2 (E x) (or_intror Hx)) as [->|H]; trivial.
      pose proof (F2 _ Hx) as C. unfold lex_lt in C.
      rewrite str_ltb_irrefl in C. discriminate.
Qed.

(** The sorted set does not depend on the order in which the set is
    enumerated. *)
Lemma sorted_set_ext (l l' : list string) :
  (forall x, In x l <-> In x l') -> sorted_set l = sorted_set l'.
Proof.
  intros E. apply strict_sorted_unique; try apply sorted_set_strict.
  intros x. now rewrite !sorted_set_In.
Qed.

Lemma strongly_sorted_filter {A} (R : A -> A -> Prop) (p : A -> bool)
    (l : list A) :
  StronglySorted R l -> StronglySorted R (filter p l).
Proof.
  induction 1 as [|a l S IH F]; simpl; [constructor|].
  destruct (p a); trivial. constructor; trivial.
  rewrite Forall_forall in *. intros x Hx. apply F.
  now apply filter_In in Hx.
Qed.

(** ** Independence from the insertion order of the selection *)

Lemma dict_get_perm (d d' : dict run_key run) (k : run_key) :
  NoDup (map fst d) -> Permutation d d' ->
  dict_get key_eqb d' k = dict_get key_eqb d k.
Proof.
  intros ND P.
  assert (ND' : NoDup (map fst d'))
    by (eapply Permutation_NoDup; [apply Permutation_map, P | exact ND]).
  destruct (dict_get key_eqb d k) as [v|] eqn:G.
  - apply (dict_get_NoDup_In key_eqb key_eqb_eq); trivial.
    eapply Permutation_in; [exact P|].
    now apply (dict_get_In key_eqb key_eqb_eq).
  - apply (dict_get_None key_eqb key_eqb_eq) in G.
    apply (dict_get_None key_eqb key_eqb_eq). intro H. apply G.
    eapply Permutation_in; [symmetry; apply Permutation_map, P | exact H].
Qed.

Lemma res_fold_ext {A S} (f g : S -> A -> res S) (l : list A) :
  (forall s x, f s x = g s x) ->
  forall s, res_fold f l s = res_fold g l s.
Proof.
  intros E. induction l as [|x l IH]; intros s; simpl; trivial.
  rewrite E. destruct (g s x); simpl; auto.
Qed.

Lemma ranked_models_perm (best best' : dict run_key run) :
  NoDup (map fst best) -> Permutation best best' ->
  ranked_models best' = ranked_models best.
Proof.
  intros ND P. unfold ranked_models.
  assert (Em : model_names best' = model_names best).
  { apply sorted_set_ext. intros x.
    split; apply Permutation_in, Permutation_map;
      [symmetry; exact P | exact P]. }
  assert (Ed : dataset_names best' = dataset_names best).
  { apply sorted_set_ext. intros x.
    split; apply Permutation_in, Permutation_map;
      [symmetry; exact P | exact P]. }
  rewrite Em, Ed. unfold model_avg_mae.
  rewrite (res_fold_ext _
             (fun acc m =>
                v <- avg_mae (eligible_maes best (dataset_names best) m) ;;
                Ok (dict_set String.eqb acc m v))); trivial.
  intros s m. unfold eligible_maes.
  rewrite (flat_map_ext _
             (fun d =>
                match dict_get key_eqb best (m, d) with
                | Some info =>
                    match as_number (r_MAE info) with
                    | Some mae => [mae]
                    | None => []
                    end
                | None => []
                end)); trivial.
  intros d. now rewrite (dict_get_perm best best').
Qed.

Lemma py_eq_not_lt (a b : pynum) : py_eq a b = true -> py_lt b a = false.
Proof.
  unfold py_eq, py_lt.
  destruct (num_value a) as [| |p|], (num_value b) as [| |q|]; simpl;
    try congruence.
  intros E. apply Qeq_bool_iff in E.
  destruct (Qltb q p) eqn:L; trivial.
  apply Qltb_iff in L. rewrite E in L. exfalso. exact (Qlt_irrefl _ L).
Qed.

(** C10, as amended: when the means are computed and none of them is
    NaN, the row order depends only on the selection, not on the order in
    which its keys are enumerated; the list the ranking sort starts from
    is in strictly increasing lexicographic order; and any family of
    models whose means are pairwise equal, such as the models without any
    valid MAE, appears among the rows in that lexicographic order. *)
Theorem C10_ties_in_lexicographic_order :
  forall (best : dict run_key run) (rows : list string),
    ranked_models best = Ok rows ->
    (forall m v, In m (model_names best) -> mean_of best m = Ok v ->
                 not_nan v) ->
    StronglySorted lex_lt (model_names best)
    /\ (forall best', NoDup (map fst best) -> Permutation best best' ->
                      ranked_models best' = Ok rows)
    /\ (forall tied : string -> bool,
          (forall a b, In a rows -> In b rows ->
                       tied a = true -> tied b = true ->
                       exists va vb, mean_of best a = Ok va
                                     /\ mean_of best b = Ok vb
                                     /\ py_eq va vb = true) ->
          filter tied rows = filter tied (model_names best)
          /\ StronglySorted lex_lt (filter tied rows))
    /\ (forall m, In m rows ->
          eligible_maes best (dataset_names best) m = [] ->
          mean_of best m = Ok (NFloat f_inf)).
Proof.
  intros best rows R NN.
  split; [apply sorted_set_strict|].
  split; [intros best' ND P; now rewrite (ranked_models_perm best best')|].
  split.
  - intros tied T. unfold ranked_models in R.
    destruct (model_avg_mae best (model_names best) (dataset_names best))
      as [avg|e] eqn:Ea; simpl in R; [|discriminate].
    injection R as <-.
    pose proof (model_avg_mae_key best avg Ea) as K.
    assert (E : filter tied (rank_models avg (model_names best))
                = filter tied (model_names best)).
    { apply (py_sorted_stable py_lt (avg_key avg) py_le not_nan
               py_lt_le_total py_lt_le py_le_trans py_lt_trans
               py_lt_le_trans).
      - intros m Hm. apply (NN m); trivial. now apply K.
      - intros x y Hx Hy Tx Ty.
        destruct (T x y) as (va & vb & Ex & Ey & Q); trivial;
          try (now apply py_sorted_In).
        rewrite (K x Hx) in Ex. rewrite (K y Hy) in Ey.
        injection Ex as <-. injection Ey as <-.
        now apply py_eq_not_lt. }
    split; trivial. rewrite E.
    apply strongly_sorted_filter, sorted_set_strict.
  - intros m _ E. unfold mean_of. now rewrite E.
Qed.

Lemma C10_witness :
  StronglySorted lex_lt (model_names c10_best)
  /\ (forall best', NoDup (map fst c10_best) -> Permutation c10_best best' ->
                    ranked_models best' = Ok ["C"; "A"; "B"])
  /\ (forall tied : string -> bool,
        (forall a b, In a ["C"; "A"; "B"] -> In b ["C"; "A"; "B"] ->
                     tied a = true -> tied b = true ->
                     exists va vb, mean_of c10_best a = Ok va
                                   /\ mean_of c10_best b = Ok vb
                                   /\ py_eq va vb = true) ->
        filter tied ["C"; "A"; "B"] = filter tied (model_names c10_best)
        /\ StronglySorted lex_lt (filter tied ["C"; "A"; "B"]))
  /\ (forall m, In m ["C"; "A"; "B"] ->
        eligible_maes c10_best (dataset_names c10_best) m = [] ->
        mean_of c10_best m = Ok (NFloat f_inf)).
Proof.
  apply (C10_ties_in_lexicographic_order c10_best ["C"; "A"; "B"]).
  - reflexivity.
  - intros m v [<-|[<-|[<-|[]]]]; vm_compute; intros [= <-]; reflexivity.
Defined.

(** C10 as stated fails on a NaN.  Seven models have the means 0.1, 0.2,
    2.0, NaN, 1.0, 0.5 and 1.0 in the order of their names.  The run the
    sort finds at the start of the list is its first five items, since
    1.0 is not below NaN, and the binary search that places the last item
    never meets the other 1.0: G comes out before C, D and E, so that of
    the two models with the mean 1.0 the second in lexicographic order is
    printed first. *)
Lemma C10_counterexample :
  model_names c10_nan_best = ["A"; "B"; "C"; "D"; "E"; "F"; "G"]
  /\ ranked_models c10_nan_best = Ok ["A"; "B"; "F"; "G"; "C"; "D"; "E"]
  /\ mean_of c10_nan_best "D" = Ok (NFloat f_nan)
  /\ mean_of c10_nan_best "E" = Ok (NFloat f_one)
  /\ mean_of c10_nan_best "G" = Ok (NFloat f_one)
  /\ py_eq (NFloat f_one) (NFloat f_one) = true
  /\ String.ltb "E" "G" = true.
Proof. repeat split. Qed.

(* ===================================================================== *)
(** * The table renderer (C9) *)
(* ===================================================================== *)

(** ** Lengths of padded text *)

Lemma str_length_app (a b : string) :
  String.length (a ++ b) = String.length a + String.length b.
Proof. induction a as [|c a IH]; simpl; auto. Qed.

Lemma str_repeat_length (c : ascii) (n : nat) :
  String.length (str_repeat c n) = n.
Proof. induction n; simpl; auto. Qed.

Lemma ljust_length (text : string) (w : nat) :
  String.length (ljust text w) = Nat.max (String.length text) w.
Proof. unfold ljust. rewrite str_length_app, str_repeat_length. lia. Qed.

Lemma rjust_length (text : string) (w : nat) :
  String.length (rjust text w) = Nat.max (String.length text) w.
Proof. unfold rjust. rewrite str_length_app, str_repeat_length. lia. Qed.

Lemma center_left_le (marg w : nat) :
  Nat.div2 marg + (if Nat.odd marg && Nat.odd w then 1 else 0) <= marg.
Proof.
  pose proof (Nat.div2_odd marg) as E.
  destruct (Nat.odd marg); simpl in *; [destruct (Nat.odd w)|]; lia.
Qed.

Lemma center_length (text : string) (w : nat) :
  String.length (center text w) = Nat.max (String.length text) w.
Proof.
  unfold center. rewrite !str_length_app, !str_repeat_length.
  pose proof (center_left_le (w - String.length text) w). lia.
Qed.

Lemma pad_length (a : align) (text : string) (w : nat) :
  String.length (pad a text w) = Nat.max (String.length text) w.
Proof.
  destruct a; simpl;
    [apply ljust_length | apply rjust_length | apply center_length].
Qed.

(** The padded text is never shorter than the text: nothing is cut. *)
Lemma pad_keeps_text (a : align) (text : string) (w : nat) :
  exists l r : string, pad a text w = (l ++ text ++ r)%string.
Proof.
  destruct a; simpl; unfold ljust, rjust, center.
  - exists EmptyString. eexists. reflexivity.
  - eexists. exists EmptyString.
    f_equal. induction text; simpl; congruence.
  - eexists. eexists. reflexivity.
Qed.

(** ** The length of a grid line *)

Lemma str_join_length (ws : list nat) :
  ws <> [] ->
  String.length
    (str_join "+" (map (fun w => str_repeat "-"%char (w + 2)) ws)) + 1
  = list_sum (map (fun w => w + 3) ws).
Proof.
  induction ws as [|w ws IH]; [congruence|]. intros _.
  destruct ws as [|w' ws].
  - simpl. rewrite str_repeat_length. lia.
  - change (map ?f (w :: w' :: ws)) with (f w :: map f (w' :: ws)).
    cbn [str_join list_sum fold_right map] in *.
    rewrite !str_length_app, str_repeat_length in *.
    assert (N : w' :: ws <> []) by discriminate.
    specialize (IH N). simpl in *. lia.
Qed.

Lemma border_line_length (ws : list nat) :
  ws <> [] -> String.length (border_line ws) = line_length ws.
Proof.
  intros N. unfold border_line, line_length.
  rewrite !str_length_app. pose proof (str_join_length ws N). simpl in *.
  lia.
Qed.

Lemma skipn_cons_inv {A} (l : list A) :
  forall i x r,
    skipn i l = x :: r -> nth_error l i = Some x /\ skipn (S i) l = r.
Proof.
  induction l as [|y l IH]; intros [|i] x r H; simpl in *;
    try discriminate.
  - injection H as -> ->. auto.
  - now apply IH.
Qed.

(** A row whose cells fit their columns is formatted without error and
    has the length of the grid. *)
Lemma format_cells_fit (ws : list nat) (al : aligns) :
  aligns_cover al (List.length ws) ->
  forall cells suffix i row,
    skipn i ws = suffix ->
    Forall2 (fun text w => String.length text <= w) cells suffix ->
    exists line,
      format_cells ws al i cells row = Ok line
      /\ String.length line
         = String.length row + list_sum (map (fun w => w + 3) suffix).
Proof.
  intros C cells suffix i row E F. revert i row E.
  induction F as [|text w cells suffix Hle F IH]; intros i row E;
    cbn [format_cells].
  - exists row. split; trivial; simpl; lia.
  - destruct (skipn_cons_inv ws i w suffix E) as [Hn Hs].
    unfold list_get at 1. rewrite Hn. cbn [res_bind].
    assert (Hi : i < List.length ws)
      by (apply nth_error_Some; congruence).
    assert (exists a, match al with
                      | AlignAll a => Ok a
                      | AlignEach l => list_get l i
                      end = Ok a) as [a ->].
    { destruct al as [a|l]; [eauto|]. simpl in C. unfold list_get.
      destruct (nth_error l i) eqn:N; [eauto|].
      apply nth_error_None in N. lia. }
    cbn [res_bind].
    destruct (IH (S i) (row ++ " " ++ pad a text w ++ " |")%string Hs)
      as (line & -> & L).
    exists line. split; trivial.
    rewrite L, !str_length_app, pad_length. simpl. lia.
Qed.

Lemma format_row_fit (ws : list nat) (cells : list string) (al : aligns) :
  aligns_cover al (List.length ws) ->
  Forall2 (fun text w => String.length text <= w) cells ws ->
  exists line,
    format_row ws cells al = Ok line
    /\ String.length line = line_length ws.
Proof.
  intros C F.
  destruct (format_cells_fit ws al C cells ws 0 "|" eq_refl F)
    as (line & E & L).
  exists line. split; trivial.
Qed.

Lemma Forall2_by_nth {A B} (R : A -> B -> Prop) (da : A) (db : B)
    (l1 : list A) :
  forall l2,
    List.length l1 = List.length l2 ->
    (forall i, i < List.length l1 -> R (nth i l1 da) (nth i l2 db)) ->
    Forall2 R l1 l2.
Proof.
  induction l1 as [|a l1 IH]; intros [|b l2] L H; simpl in *;
    try discriminate; constructor.
  - apply (H 0). lia.
  - apply IH; [lia|]. intros i Hi. apply (H (S i)). lia.
Qed.

(** ** Width updates *)

Lemma list_get_ok {A} (l : list A) (i : nat) (d : A) :
  i < List.length l -> list_get l i = Ok (nth i l d).
Proof.
  intros H. unfold list_get. now rewrite (nth_error_nth' l d H).
Qed.

Lemma list_set_ok {A} (d : A) (l : list A) :
  forall i v,
    i < List.length l ->
    exists l',
      list_set l i v = Ok l'
      /\ List.length l' = List.length l
      /\ nth i l' d = v
      /\ forall j, j <> i -> nth j l' d = nth j l d.
Proof.
  induction l as [|x l IH]; intros [|i] v H; simpl in *; try lia.
  - exists (v :: l). repeat split; trivial.
    intros [|j] N; [congruence | reflexivity].
  - destruct (IH i v) as (l' & -> & L & Hn & Ho); [lia|].
    exists (x :: l'). simpl. repeat split; auto.
    intros [|j] N; trivial. apply Ho. lia.
Qed.

Lemma le_widths_refl (w : list nat) : le_widths w w.
Proof. split; auto. Qed.

Lemma le_widths_trans (a b c : list nat) :
  le_widths a b -> le_widths b c -> le_widths a c.
Proof.
  intros [L1 H1] [L2 H2]. split; [congruence|].
  intros j. specialize (H1 j). specialize (H2 j). lia.
Qed.

Lemma bump_spec (w : list nat) (i n : nat) :
  i < List.length w ->
  exists w', bump w i n = Ok w' /\ le_widths w w' /\ n <= nth i w' 0.
Proof.
  intros H. unfold bump. rewrite (list_get_ok w i 0 H). simpl.
  destruct (list_set_ok 0 w i (Nat.max (nth i w 0) n) H)
    as (w' & -> & L & Hn & Ho).
  exists w'. repeat split; auto; [|lia].
  intros j. destruct (Nat.eq_dec j i) as [->|N].
  - rewrite Hn. lia.
  - rewrite Ho by trivial. lia.
Qed.

(** A loop of width updates: every step keeps the number of columns,
    narrows none, and establishes a bound that later steps keep. *)
Lemma widths_fold {X} (f : list nat -> X -> res (list nat))
    (P : X -> list nat -> Prop) (n : nat) (items : list X) :
  (forall w x, In x items -> List.length w = n ->
               exists w', f w x = Ok w' /\ le_widths w w' /\ P x w') ->
  (forall x w w', P x w -> le_widths w w' -> P x w') ->
  forall w,
    List.length w = n ->
    exists w',
      res_fold f items w = Ok w' /\ le_widths w w'
      /\ forall x, In x items -> P x w'.
Proof.
  intros Step Mono. induction items as [|x items IH]; intros w L; simpl.
  - exists w. repeat split; auto. intros x [].
  - destruct (Step w x) as (w1 & -> & L1 & P1); simpl; auto.
    destruct IH with (w := w1) as (w2 & E & L2 & P2).
    + intros w0 y Hy. apply Step. now right.
    + destruct L1. congruence.
    + exists w2. split; trivial. split.
      * eapply le_widths_trans; eauto.
      * intros y [<-|Hy]; [eapply Mono; eauto | auto].
Qed.

Lemma py_max_nat_spec (l : list nat) :
  l <> [] ->
  exists m, py_max_nat l = Ok m /\ forall x, In x l -> x <= m.
Proof.
  destruct l as [|x l]; [congruence|]. intros _. simpl.
  eexists. split; [reflexivity|].
  assert (G : forall l a, a <= fold_left Nat.max l a
                          /\ forall y, In y l -> y <= fold_left Nat.max l a).
  { clear. induction l as [|z l IH]; intros a; simpl.
    - split; [lia | tauto].
    - destruct (IH (Nat.max a z)) as [H1 H2]. split; [lia|].
      intros y [<-|Hy]; [lia | auto]. }
  destruct (G l x) as [H1 H2]. intros y [<-|Hy]; auto.
Qed.

(** ** The index of a dataset *)

Lemma index_fold_other (l : list string) :
  forall s acc d,
    ~ In d l ->
    dict_get String.eqb
      (fold_left (fun acc (p : nat * string) =>
                    dict_set String.eqb acc (snd p) (fst p))
         (combine (seq s (List.length l)) l) acc) d
    = dict_get String.eqb acc d.
Proof.
  induction l as [|x l IH]; intros s acc d N; simpl; trivial.
  rewrite IH by (simpl in N; tauto). rewrite dict_get_set.
  destruct (String.eqb d x) eqn:E; trivial.
  apply String.eqb_eq in E. subst. simpl in N. tauto.
Qed.

Lemma index_fold_at (l : list string) :
  forall s acc k d,
    NoDup l -> nth_error l k = Some d ->
    dict_get String.eqb
      (fold_left (fun acc (p : nat * string) =>
                    dict_set String.eqb acc (snd p) (fst p))
         (combine (seq s (List.length l)) l) acc) d
    = Some (s + k).
Proof.
  induction l as [|x l IH]; intros s acc [|k] d ND H; simpl in *;
    try discriminate; inversion_clear ND as [|? ? N ND'].
  - injection H as ->. rewrite index_fold_other by trivial.
    rewrite dict_get_set, String.eqb_refl. f_equal. lia.
  - rewrite (IH (S s) _ k d ND' H). f_equal. lia.
Qed.

Lemma index_dict_at (datasets : list string) (k : nat) (d : string) :
  NoDup datasets -> nth_error datasets k = Some d ->
  dict_get String.eqb (index_dict datasets) d = Some k.
Proof.
  intros ND H. unfold index_dict, enumerate.
  now rewrite (index_fold_at datasets 0 [] k d ND H).
Qed.

Lemma nth_error_unique (l : list string) (i j : nat) (d : string) :
  NoDup l -> nth_error l i = Some d -> nth_error l j = Some d -> i = j.
Proof.
  intros ND Hi Hj. eapply NoDup_nth_error; eauto.
  - apply nth_error_Some. congruence.
  - congruence.
Qed.

(** ** The widths of the leaderboard *)

Lemma group_fits_mono (k a b c : nat) (w w' : list nat) :
  group_fits k a b c w -> le_widths w w' -> group_fits k a b c w'.
Proof.
  intros (Ha & Hb & Hc) [_ L]. unfold group_fits.
  pose proof (L (1 + 3 * k)). pose proof (L (1 + 3 * k + 1)).
  pose proof (L (1 + 3 * k + 2)). lia.
Qed.

Lemma bump_group_spec (d2i : dict string nat) (w : list nat) (d : string)
    (di a b c : nat) :
  dict_get String.eqb d2i d = Some di ->
  1 + 3 * di + 2 < List.length w ->
  exists w',
    bump_group d2i w d a b c = Ok w'
    /\ le_widths w w' /\ group_fits di a b c w'.
Proof.
  intros G L. unfold bump_group, dict_item. rewrite G. cbn [res_bind].
  destruct (bump_spec w (1 + 3 * di) a) as (w1 & -> & L1 & B1); [lia|].
  cbn [res_bind]. pose proof (proj1 L1) as E1.
  destruct (bump_spec w1 (1 + 3 * di + 1) b) as (w2 & -> & L2 & B2);
    [lia|].
  cbn [res_bind]. pose proof (proj1 L2) as E2.
  destruct (bump_spec w2 (1 + 3 * di + 2) c) as (w3 & -> & L3 & B3);
    [lia|].
  exists w3. split; trivial. split.
  - eapply le_widths_trans; [|exact L3].
    eapply le_widths_trans; eauto.
  - unfold group_fits. destruct L2 as [_ M2], L3 as [_ M3].
    pose proof (M2 (1 + 3 * di)). pose proof (M3 (1 + 3 * di)).
    pose proof (M3 (1 + 3 * di + 1)). lia.
Qed.

Lemma summary_widths_spec (models datasets : list string)
    (values : dict run_key cell) :
  models <> [] -> NoDup datasets ->
  (forall key c, In (key, c) values -> In (snd key) datasets) ->
  exists W,
    summary_widths models datasets (index_dict datasets) values = Ok W
    /\ List.length W = 1 + 3 * List.length datasets
    /\ 7 <= nth 0 W 0
    /\ (forall m, In m models -> String.length m <= nth 0 W 0)
    /\ (forall k d, nth_error datasets k = Some d ->
          group_fits k (Nat.max 3 (String.length d)) 4 4 W)
    /\ (forall m d a b c k,
          In ((m, d), (a, b, c)) values -> nth_error datasets k = Some d ->
          group_fits k (String.length a) (String.length b)
            (String.length c) W).
Proof.
  intros NE ND Hv. unfold summary_widths.
  destruct (py_max_nat_spec (map String.length models)) as (M & -> & HM).
  { destruct models; [congruence | discriminate]. }
  cbn [res_bind].
  set (n := 1 + 3 * List.length datasets).
  destruct (list_set_ok 0 (repeat 0 n) 0
              (Nat.max (String.length "Model")
                 (Nat.max (String.length "Dataset")
                    (Nat.max (String.length "Metric") M))))
    as (W0 & -> & L0 & H0 & _).
  { rewrite repeat_length. unfold n. lia. }
  cbn [res_bind]. rewrite repeat_length in L0.
  destruct (widths_fold
              (fun w d =>
                 w <- bump_group (index_dict datasets) w d
                        (Nat.max (String.length "MAE") (String.length d))
                        (String.length "RMSE") (String.length "MAPE") ;;
                 Ok w)
              (fun d w => forall k, nth_error datasets k = Some d ->
                 group_fits k (Nat.max 3 (String.length d)) 4 4 w)
              n datasets) with (w := W0) as (W1 & -> & L1 & P1); trivial.
  { intros w d Hd Lw. destruct (In_nth_error _ _ Hd) as (k & Hk).
    destruct (bump_group_spec (index_dict datasets) w d k
                (Nat.max (String.length "MAE") (String.length d))
                (String.length "RMSE") (String.length "MAPE"))
      as (w' & -> & Lw' & G).
    - now apply index_dict_at.
    - assert (k < List.length datasets)
        by (apply nth_error_Some; congruence).
      unfold n in Lw. lia.
    - exists w'. split; [reflexivity|]. split; [exact Lw'|].
      intros k' Hk'. rewrite (nth_error_unique _ _ _ _ ND Hk' Hk).
      exact G. }
  { intros d w w' P L k Hk. eapply group_fits_mono; eauto. }
  cbn [res_bind].
  destruct (widths_fold
              (fun w (item : run_key * cell) =>
                 let '((m, d), (mae_s, rmse_s, mape_s)) := item in
                 bump_group (index_dict datasets) w d
                   (String.length mae_s) (String.length rmse_s)
                   (String.length mape_s))
              (fun (item : run_key * cell) w =>
                 forall k, nth_error datasets k = Some (snd (fst item)) ->
                   let '(a, b, c) := cell_lengths (snd item) in
                   group_fits k a b c w)
              n values) with (w := W1) as (W2 & -> & L2 & P2).
  { intros w [[m d] [[a b] c]] Hi Lw.
    pose proof (Hv _ _ Hi) as Hd. simpl in Hd.
    destruct (In_nth_error _ _ Hd) as (k & Hk).
    destruct (bump_group_spec (index_dict datasets) w d k
                (String.length a) (String.length b) (String.length c))
      as (w' & -> & Lw' & G).
    - now apply index_dict_at.
    - assert (k < List.length datasets)
        by (apply nth_error_Some; congruence).
      unfold n in Lw. lia.
    - exists w'. split; [reflexivity|]. split; [exact Lw'|].
      simpl. intros k' Hk'.
      rewrite (nth_error_unique _ _ _ _ ND Hk' Hk). exact G. }
  { intros [[m d] [[a b] c]] w w' P L k Hk. simpl in *.
    eapply group_fits_mono; eauto. }
  { destruct L1. congruence. }
  exists W2.
  assert (L02 : le_widths W0 W2) by (eapply le_widths_trans; eauto).
  assert (H02 : nth 0 W0 0 <= nth 0 W2 0) by apply L02.
  rewrite H0 in H02.
  change (String.length "Model") with 5 in H02.
  change (String.length "Dataset") with 7 in H02.
  change (String.length "Metric") with 6 in H02.
  split; trivial. split; [destruct L02; unfold n in *; congruence|].
  split; [lia|]. split.
  - intros m Hm. pose proof (HM _ (in_map String.length _ _ Hm)). lia.
  - split.
    + intros k d Hk. eapply group_fits_mono; [|exact L2].
      apply P1; trivial. eapply nth_error_In; eauto.
    + intros m d a b c k Hi Hk. apply (P2 _ Hi k Hk).
Qed.

(** ** The dictionary of cell strings *)

Lemma key_eqb_refl (k : run_key) : key_eqb k k = true.
Proof. now apply key_eqb_eq. Qed.

Lemma dict_get_set_key {V} (d : dict run_key V) (k k' : run_key) (v : V) :
  dict_get key_eqb (dict_set key_eqb d k v) k'
  = if key_eqb k' k then Some v else dict_get key_eqb d k'.
Proof.
  induction d as [|[k0 v0] d IH]; simpl.
  - reflexivity.
  - destruct (key_eqb k k0) eqn:E; simpl.
    + apply key_eqb_eq in E. subst k0. now destruct (key_eqb k' k).
    + rewrite IH. destruct (key_eqb k' k0) eqn:E0; trivial.
      apply key_eqb_eq in E0. subst k0.
      destruct (key_eqb k' k) eqn:E1; trivial.
      apply key_eqb_eq in E1. subst. now rewrite key_eqb_refl in E.
Qed.

Lemma dict_set_In {V} (d : dict run_key V) (k k' : run_key) (v v' : V) :
  In (k', v') (dict_set key_eqb d k v) ->
  (k' = k /\ v' = v) \/ In (k', v') d.
Proof.
  induction d as [|[k0 v0] d IH]; simpl.
  - intros [[= <- <-]|[]]. auto.
  - destruct (key_eqb k k0) eqn:E; simpl.
    + apply key_eqb_eq in E. subst k0.
      intros [[= <- <-]|H]; auto.
    + intros [H|H]; auto. destruct (IH H); auto.
Qed.

Lemma res_fold_app {A S} (f : S -> A -> res S) (l1 l2 : list A) :
  forall s,
    res_fold f (l1 ++ l2) s = (s' <- res_fold f l1 s ;; res_fold f l2 s').
Proof.
  induction l1 as [|x l1 IH]; intros s; simpl; trivial.
  destruct (f s x); simpl; auto.
Qed.

(** A nested loop is a loop over the pairs. *)
Lemma res_fold_prod {A B S} (f : S -> A * B -> res S) (la : list A)
    (lb : list B) :
  forall s,
    res_fold (fun acc a => res_fold (fun acc b => f acc (a, b)) lb acc) la s
    = res_fold f (list_prod la lb) s.
Proof.
  induction la as [|a la IH]; intros s; simpl; trivial.
  rewrite res_fold_app.
  assert (E : forall s, res_fold (fun acc b => f acc (a, b)) lb s
                        = res_fold f (map (fun y => (a, y)) lb) s).
  { clear. induction lb as [|b lb IH]; intros s; simpl; trivial.
    destruct (f s (a, b)); simpl; auto. }
  rewrite E. destruct (res_fold f (map (fun y => (a, y)) lb) s); simpl; auto.
Qed.

Lemma dict_fold_spec {V} (g : run_key -> res V) (items : list run_key) :
  forall acc acc',
    res_fold (fun acc k => c <- g k ;; Ok (dict_set key_eqb acc k c))
      items acc = Ok acc' ->
    (forall k, In k items -> exists c, dict_get key_eqb acc' k = Some c)
    /\ (forall k c, dict_get key_eqb acc k = Some c ->
                    exists c', dict_get key_eqb acc' k = Some c')
    /\ (forall k c, In (k, c) acc' ->
                    In (k, c) acc \/ (In k items /\ g k = Ok c)).
Proof.
  induction items as [|x items IH]; intros acc acc' H; simpl in H.
  - injection H as <-. repeat split; eauto. intros k [].
  - destruct (g x) as [c|e] eqn:Eg; simpl in H; [|discriminate].
    destruct (IH _ _ H) as (H1 & H2 & H3). repeat split.
    + intros k [<-|Hk]; auto.
      apply (H2 x c). now rewrite dict_get_set_key, key_eqb_refl.
    + intros k c0 G. destruct (key_eqb k x) eqn:E.
      * apply (H2 k c). now rewrite dict_get_set_key, E.
      * apply (H2 k c0). now rewrite dict_get_set_key, E.
    + intros k c0 Hin. destruct (H3 _ _ Hin) as [Hs|[Hi Hg]].
      * destruct (dict_set_In _ _ _ _ _ Hs) as [[-> ->]|Ho]; simpl; auto.
      * simpl. auto.
Qed.

Lemma cell_values_spec (float_of_str : string -> option float)
    (repr_of : pyval -> string) (best : dict run_key run)
    (models datasets : list string) (values : dict run_key cell) :
  cell_values float_of_str repr_of best models datasets = Ok values ->
  (forall m d, In m models -> In d datasets ->
               exists c, dict_get key_eqb values (m, d) = Some c)
  /\ (forall key c, In (key, c) values -> In (snd key) datasets)
  /\ (forall m d c, In ((m, d), c) values ->
                    cell_strings float_of_str repr_of best m d = Ok c).
Proof.
  unfold cell_values. intros H.
  rewrite (res_fold_prod
             (fun acc (k : run_key) =>
                c <- cell_strings float_of_str repr_of best (fst k) (snd k) ;;
                Ok (dict_set key_eqb acc k c))) in H.
  destruct (dict_fold_spec _ _ _ _ H) as (H1 & _ & H3). repeat split.
  - intros m d Hm Hd. apply H1. now apply in_prod.
  - intros [m d] c Hin. destruct (H3 _ _ Hin) as [[]|[Hp _]].
    apply in_prod_iff in Hp. tauto.
  - intros m d c Hin. now destruct (H3 _ _ Hin) as [[]|[_ Hg]].
Qed.

(** ** Rows that fit *)

Lemma nth_triples {A} (g : string -> list A) (dflt : A) (ds : list string) :
  forall k j d,
    nth_error ds k = Some d -> j < 3 ->
    (forall x, In x ds -> List.length (g x) = 3) ->
    nth (3 * k + j) (flat_map g ds) dflt = nth j (g d) dflt.
Proof.
  induction ds as [|x ds IH]; intros [|k] j d H Hj L; simpl in H;
    try discriminate.
  - injection H as ->. cbn [flat_map]. rewrite app_nth1; trivial.
    rewrite L; simpl; auto.
  - cbn [flat_map]. rewrite app_nth2 by (rewrite L; simpl; auto; lia).
    rewrite L by (simpl; auto).
    replace (3 * S k + j - 3) with (3 * k + j) by lia.
    apply IH; trivial. intros y Hy. apply L. now right.
Qed.

Lemma flat_map_length3 {A} (g : string -> list A) (ds : list string) :
  (forall x, In x ds -> List.length (g x) = 3) ->
  List.length (flat_map g ds) = 3 * List.length ds.
Proof.
  induction ds as [|x ds IH]; intros L; cbn [flat_map]; trivial.
  rewrite length_app, (L x) by (simpl; auto).
  rewrite IH by (intros y Hy; apply L; now right).
  simpl. lia.
Qed.

(** A row made of a first cell and one triple per dataset fits as soon as
    the first cell and every triple do. *)
Lemma grouped_cells_fit (W : list nat) (datasets : list string)
    (first : string) (g : string -> list string) :
  List.length W = 1 + 3 * List.length datasets ->
  String.length first <= nth 0 W 0 ->
  (forall k d, nth_error datasets k = Some d ->
               exists a b c,
                 g d = [a; b; c]
                 /\ group_fits k (String.length a) (String.length b)
                      (String.length c) W) ->
  Forall2 fits (first :: flat_map g datasets) W.
Proof.
  intros LW H0 HG.
  assert (L3 : forall x, In x datasets -> List.length (g x) = 3).
  { intros x Hx. destruct (In_nth_error _ _ Hx) as (k & Hk).
    destruct (HG k x Hk) as (a & b & c & -> & _). reflexivity. }
  apply (Forall2_by_nth fits EmptyString 0).
  - simpl. rewrite (flat_map_length3 g datasets L3). lia.
  - simpl. rewrite (flat_map_length3 g datasets L3).
    intros [|i] Hi; [exact H0|].
    pose proof (Nat.div_mod_eq i 3) as E.
    pose proof (Nat.mod_upper_bound i 3) as B.
    assert (Hk : i / 3 < List.length datasets) by lia.
    destruct (nth_error datasets (i / 3)) as [d|] eqn:Hd;
      [|apply nth_error_None in Hd; lia].
    destruct (HG _ _ Hd) as (a & b & c & Eg & Fa & Fb & Fc).
    unfold fits. cbn [nth].
    rewrite E at 1. rewrite (nth_triples g EmptyString datasets _ _ d Hd);
      [|lia|exact L3].
    rewrite Eg.
    assert (C : i mod 3 = 0 \/ i mod 3 = 1 \/ i mod 3 = 2) by lia.
    destruct C as [C|[C|C]]; rewrite C; simpl nth at 1.
    + replace (S i) with (1 + 3 * (i / 3)) by lia. exact Fa.
    + replace (S i) with (1 + 3 * (i / 3) + 1) by lia. exact Fb.
    + replace (S i) with (1 + 3 * (i / 3) + 2) by lia. exact Fc.
Qed.

(** ** Printing *)

Lemma print_row_fit (ws : list nat) (cells : list string) (al : aligns) :
  aligns_cover al (List.length ws) ->
  Forall2 fits cells ws ->
  exists line,
    print_row ws cells al = ([line], Ok tt)
    /\ String.length line = line_length ws.
Proof.
  intros C F. destruct (format_row_fit ws cells al C F) as (line & E & L).
  exists line. split; trivial. unfold print_row. now rewrite E.
Qed.

Lemma io_for_lines {A} (body : A -> io unit) (P : string -> Prop)
    (l : list A) :
  (forall x, In x l -> exists line, body x = ([line], Ok tt) /\ P line) ->
  exists lines,
    io_for l body = (lines, Ok tt)
    /\ Forall2 (fun x line => body x = ([line], Ok tt)) l lines
    /\ Forall P lines.
Proof.
  induction l as [|x l IH]; intros H; simpl.
  - exists []. repeat split; constructor.
  - destruct (H x) as (line & E & Pl); [now left|].
    destruct IH as (lines & El & Ll & Fl); [intros; apply H; now right|].
    exists (line :: lines). rewrite E, El. simpl.
    repeat split; auto.
Qed.

Lemma row_cells_spec (values : dict run_key cell) (datasets : list string)
    (m : string) :
  (forall d, In d datasets ->
             exists c, dict_get key_eqb values (m, d) = Some c) ->
  row_cells values datasets m
  = Ok (m :: flat_map (cell3 values m) datasets).
Proof.
  intros H. unfold row_cells.
  assert (E : res_map
                (fun d =>
                   c <- dict_item key_eqb values (m, d) ;;
                   let '(mae_s, rmse_s, mape_s) := c in
                   Ok [mae_s; rmse_s; mape_s]) datasets
              = Ok (map (cell3 values m) datasets)).
  { induction datasets as [|d ds IH]; simpl; trivial.
    destruct (H d) as ([[a b] c] & G); [now left|].
    unfold dict_item at 1. unfold cell3 at 1. rewrite G. simpl.
    rewrite IH by (intros; apply H; now right). reflexivity. }
  rewrite E. simpl. now rewrite flat_map_concat_map.
Qed.

Lemma group_fits_weaken (k a b c a' b' c' : nat) (W : list nat) :
  group_fits k a b c W -> a' <= a -> b' <= b -> c' <= c ->
  group_fits k a' b' c' W.
Proof. unfold group_fits. lia. Qed.

Lemma grid_Forall (P : string -> Prop) (border : string)
    (header body : list string) :
  P border -> Forall P header -> Forall P body ->
  Forall P (grid border header body).
Proof.
  intros Pb Fh Fb. unfold grid. constructor; trivial.
  apply Forall_app. split; trivial. constructor; trivial.
  apply Forall_app. split; trivial. now constructor.
Qed.

Lemma summary_print_spec (sl : summary_layout) :
  summary_ready sl ->
  exists h1 h2 body,
    summary_print sl
    = (grid (border_line (sl_widths sl)) [h1; h2] body, Ok tt)
    /\ Forall2 (fun m line => print_model_row sl m = ([line], Ok tt))
         (sl_models sl) body
    /\ Forall (fun line =>
                 String.length line = line_length (sl_widths sl))
         (grid (border_line (sl_widths sl)) [h1; h2] body).
Proof.
  intros (LW & H0 & Hm & Hd & Hv & Hg).
  set (W := sl_widths sl) in *. set (datasets := sl_datasets sl) in *.
  assert (NW : W <> []) by (destruct W; simpl in LW; [lia | discriminate]).
  destruct (print_row_fit W (header1_cells datasets) (AlignAll AlignCenter))
    as (h1 & E1 & L1); [exact I| |].
  { apply grouped_cells_fit; trivial.
    intros k d Hk. exists d, EmptyString, EmptyString. split; trivial.
    eapply group_fits_weaken; [apply (Hd k d Hk)| | |];
      cbn [String.length]; lia. }
  destruct (print_row_fit W (header2_cells datasets) (AlignAll AlignCenter))
    as (h2 & E2 & L2); [exact I| |].
  { apply grouped_cells_fit; [trivial | cbn [String.length]; lia |].
    intros k d Hk. exists "MAE", "RMSE", "MAPE". split; trivial.
    eapply group_fits_weaken; [apply (Hd k d Hk)| | |];
      cbn [String.length]; lia. }
  destruct (io_for_lines (print_model_row sl)
              (fun line => String.length line = line_length W)
              (sl_models sl)) as (body & Eb & Lb & Fb).
  { intros m Hin. unfold print_model_row. fold W. fold datasets.
    rewrite row_cells_spec by (intros; now apply Hg).
    unfold io_lift, io_bind.
    destruct (print_row_fit W (m :: flat_map (cell3 (sl_values sl) m) datasets)
                (AlignEach
                   (AlignLeft
                    :: repeat AlignRight (1 + 3 * List.length datasets - 1))))
      as (line & E & L).
    - simpl. rewrite repeat_length. lia.
    - apply grouped_cells_fit; auto.
      intros k d Hk.
      destruct (Hg m d Hin (nth_error_In _ _ Hk)) as ([[a b] c] & G).
      exists a, b, c. unfold cell3. rewrite G. split; trivial.
      apply (Hv m d a b c k); trivial.
      now apply (dict_get_In key_eqb key_eqb_eq).
    - exists line. rewrite E. auto. }
  exists h1, h2, body. split; [|split; trivial].
  - unfold summary_print. fold W. fold datasets.
    unfold io_bind at 1. unfold io_print at 1.
    rewrite E1. unfold io_bind at 1.
    rewrite E2. unfold io_bind at 1. unfold io_print at 1.
    unfold io_bind at 1. rewrite Eb. unfold io_print.
    unfold io_bind. simpl. unfold grid. simpl. reflexivity.
  - apply grid_Forall; trivial.
    + now apply border_line_length.
    + now repeat constructor.
Qed.

Lemma sorted_set_nonempty (l : list string) : l <> [] -> sorted_set l <> [].
Proof.
  destruct l as [|x l]; [congruence|]. intros _ E.
  assert (H : In x (sorted_set (x :: l))) by (apply sorted_set_In; now left).
  rewrite E in H. exact H.
Qed.

Lemma rank_models_nonempty (avg : dict string pynum) (models : list string) :
  models <> [] -> rank_models avg models <> [].
Proof.
  intros N E. apply N. apply length_zero_iff_nil.
  unfold rank_models in E.
  rewrite <- (py_sorted_length py_lt (avg_key avg) models), E. reflexivity.
Qed.

Lemma summary_prepare_ready (float_of_str : string -> option float)
    (repr_of : pyval -> string) (best : dict run_key run)
    (sl : summary_layout) :
  best <> [] ->
  summary_prepare float_of_str repr_of best = Ok sl ->
  summary_ready sl.
Proof.
  intros NE. unfold summary_prepare.
  destruct (model_avg_mae best (model_names best) (dataset_names best))
    as [avg|e]; cbn [res_bind]; [|discriminate].
  destruct (cell_values float_of_str repr_of best
              (rank_models avg (model_names best)) (dataset_names best))
    as [values|e] eqn:Ev; cbn [res_bind]; [|discriminate].
  destruct (cell_values_spec _ _ _ _ _ _ Ev) as (Hget & Hkeys & _).
  destruct (summary_widths_spec (rank_models avg (model_names best))
              (dataset_names best) values)
    as (W & -> & LW & H0 & Hm & Hd & Hv).
  - apply rank_models_nonempty, sorted_set_nonempty.
    destruct best; [congruence | discriminate].
  - apply sorted_set_NoDup.
  - exact Hkeys.
  - cbn [res_bind]. intros [= <-]. unfold summary_ready. simpl.
    split; [exact LW|]. split; [exact H0|]. split; [exact Hm|].
    split; [exact Hd|]. split; [exact Hv | exact Hget].
Qed.

(** The leaderboard is printed whole or not at all. *)
Lemma print_summary_table_cases (float_of_str : string -> option float)
    (repr_of : pyval -> string) (best : dict run_key run) :
  best <> [] ->
  (exists e, summary_prepare float_of_str repr_of best = Raise e
             /\ print_summary_table float_of_str repr_of best = ([], Raise e))
  \/ (exists sl h1 h2 body,
        summary_prepare float_of_str repr_of best = Ok sl
        /\ print_summary_table float_of_str repr_of best
           = (grid (border_line (sl_widths sl)) [h1; h2] body, Ok tt)
        /\ Forall2 (fun m line => print_model_row sl m = ([line], Ok tt))
             (sl_models sl) body
        /\ Forall (fun line =>
                     String.length line = line_length (sl_widths sl))
             (grid (border_line (sl_widths sl)) [h1; h2] body)).
Proof.
  intros NE. unfold print_summary_table.
  destruct best as [|kv best']; [congruence|].
  destruct (summary_prepare float_of_str repr_of (kv :: best'))
    as [sl|e] eqn:E.
  - right.
    destruct (summary_print_spec sl
                (summary_prepare_ready _ _ _ _ NE E))
      as (h1 & h2 & body & Ep & Lb & F).
    exists sl, h1, h2, body. repeat split; trivial.
    unfold io_bind, io_lift. now rewrite Ep.
  - left. exists e. split; trivial.
Qed.

(** ** The widths and the grid of a detail table *)

Lemma detail_widths_spec (rows : list shown_row) :
  exists W,
    detail_widths rows = Ok W
    /\ le_widths (map String.length detail_headers) W
    /\ forall row, In row rows -> detail_row_fits row W.
Proof.
  unfold detail_widths.
  destruct (widths_fold
              (fun w row =>
                 w <- bump w 0 (String.length (d_model (s_row row))) ;;
                 w <- bump w 1 (String.length (d_time (s_row row))) ;;
                 w <- bump w 2 (String.length (MAE_s row)) ;;
                 w <- bump w 3 (String.length (RMSE_s row)) ;;
                 bump w 4 (String.length (MAPE_s row)))
              detail_row_fits 5 rows)
    with (w := map String.length detail_headers)
    as (W & E & L & P); trivial.
  - intros w row _ Lw.
    destruct (bump_spec w 0 (String.length (d_model (s_row row))))
      as (w0 & -> & L0 & B0); [lia|]. cbn [res_bind].
    pose proof (proj1 L0) as E0.
    destruct (bump_spec w0 1 (String.length (d_time (s_row row))))
      as (w1 & -> & L1 & B1); [lia|]. cbn [res_bind].
    pose proof (proj1 L1) as E1.
    destruct (bump_spec w1 2 (String.length (MAE_s row)))
      as (w2 & -> & L2 & B2); [lia|]. cbn [res_bind].
    pose proof (proj1 L2) as E2.
    destruct (bump_spec w2 3 (String.length (RMSE_s row)))
      as (w3 & -> & L3 & B3); [lia|]. cbn [res_bind].
    pose proof (proj1 L3) as E3.
    destruct (bump_spec w3 4 (String.length (MAPE_s row)))
      as (w4 & -> & L4 & B4); [lia|].
    exists w4. split; trivial. split.
    + eapply le_widths_trans; [exact L0|].
      eapply le_widths_trans; [exact L1|].
      eapply le_widths_trans; [exact L2|].
      eapply le_widths_trans; eauto.
    + unfold detail_row_fits.
      destruct L1 as [_ M1], L2 as [_ M2], L3 as [_ M3], L4 as [_ M4].
      pose proof (M1 0). pose proof (M2 0). pose proof (M3 0).
      pose proof (M4 0). pose proof (M2 1). pose proof (M3 1).
      pose proof (M4 1). pose proof (M3 2). pose proof (M4 2).
      pose proof (M4 3). lia.
  - intros row w w' (F0 & F1 & F2 & F3 & F4) [_ M].
    unfold detail_row_fits.
    pose proof (M 0). pose proof (M 1). pose proof (M 2).
    pose proof (M 3). pose proof (M 4). lia.
  - exists W. auto.
Qed.

Lemma detail_grid_spec (W : list nat) (rows : list shown_row) :
  le_widths (map String.length detail_headers) W ->
  (forall row, In row rows -> detail_row_fits row W) ->
  exists header body,
    detail_grid W rows = (grid (border_line W) [header] body, Ok tt)
    /\ Forall2 (fun row line => print_detail_row W row = ([line], Ok tt))
         rows body
    /\ Forall (fun line => String.length line = line_length W)
         (grid (border_line W) [header] body).
Proof.
  intros [LW M] F. simpl in LW.
  destruct W as [|w0 [|w1 [|w2 [|w3 [|w4 [|]]]]]]; try discriminate.
  set (W := [w0; w1; w2; w3; w4]) in *.
  pose proof (M 0) as M0. pose proof (M 1) as M1. pose proof (M 2) as M2.
  pose proof (M 3) as M3. pose proof (M 4) as M4.
  cbn [nth map detail_headers String.length W] in M0, M1, M2, M3, M4.
  destruct (print_row_fit W detail_headers (AlignAll AlignCenter))
    as (header & Eh & Lh); [exact I| |].
  { unfold detail_headers, W, fits.
    repeat constructor; cbn [String.length]; lia. }
  destruct (io_for_lines (print_detail_row W)
              (fun line => String.length line = line_length W) rows)
    as (body & Eb & Lb & Fb).
  { intros row Hin. apply print_row_fit.
    - simpl. lia.
    - destruct (F row Hin) as (F0 & F1 & F2 & F3 & F4).
      unfold detail_cells, W, fits. repeat constructor; assumption. }
  exists header, body. split; [|split; trivial].
  - unfold detail_grid. unfold io_bind at 1. unfold io_print at 1.
    rewrite Eh. unfold io_bind at 1. unfold io_bind at 1.
    unfold io_print at 1. unfold io_bind at 1. rewrite Eb.
    unfold io_print, io_bind. reflexivity.
  - apply grid_Forall; trivial.
    + apply border_line_length. discriminate.
    + now repeat constructor.
Qed.

(** A detail table is printed whole or not at all. *)
Lemma print_detail_table_cases (float_of_str : string -> option float)
    (repr_of : pyval -> string) (all_runs : dict run_key (list run))
    (d : string) :
  (rows_for all_runs d = []
   /\ print_detail_table float_of_str repr_of all_runs d = ([], Ok tt))
  \/ (exists e,
        res_map (show_row float_of_str repr_of) (sorted_rows all_runs d)
        = Raise e
        /\ print_detail_table float_of_str repr_of all_runs d
           = ([], Raise e))
  \/ (exists rows W header body,
        rows_for all_runs d <> []
        /\ res_map (show_row float_of_str repr_of) (sorted_rows all_runs d)
           = Ok rows
        /\ detail_widths rows = Ok W
        /\ print_detail_table float_of_str repr_of all_runs d
           = (EmptyString :: detail_title d
                :: grid (border_line W) [header] body, Ok tt)
        /\ Forall2 (fun row line => print_detail_row W row = ([line], Ok tt))
             rows body
        /\ Forall (fun line => String.length line = line_length W)
             (grid (border_line W) [header] body)).
Proof.
  unfold print_detail_table.
  destruct (rows_for all_runs d) as [|r0 rest] eqn:Er; [left; auto|].
  right.
  destruct (res_map (show_row float_of_str repr_of) (sorted_rows all_runs d))
    as [rows|e] eqn:Es.
  - right. destruct (detail_widths_spec rows) as (W & Ew & L & F).
    destruct (detail_grid_spec W rows L F)
      as (header & body & Eg & Lb & Fg).
    exists rows, W, header, body. repeat split; trivial; [discriminate|].
    unfold io_lift, io_bind. rewrite Ew. unfold io_print.
    now rewrite Eg.
  - left. exists e. auto.
Qed.

(** The output of a printing loop is the output of its iterations, up to
    the one that raises. *)
Lemma io_for_out {A} (body : A -> io unit) (l : list A) :
  exists k,
    fst (io_for l body)
    = List.concat (map (fun x => fst (body x)) (firstn k l)).
Proof.
  induction l as [|x l (k & IH)]; simpl.
  - exists 0. reflexivity.
  - unfold io_bind. destruct (body x) as [o [[]|e]] eqn:E.
    + exists (S k). destruct (io_for l body) as [o' r]. simpl in *.
      now rewrite E, IH.
    + exists 1. simpl. now rewrite E, app_nil_r.
Qed.

(** C9: all the lines the leaderboard prints have one length, and so
    have the border, header and data lines of every detail table; that
    length is fixed by the column widths, every padded cell being exactly
    as wide as its column because padding returns the text with blanks
    added, never a shortened text.  A table is printed whole or not at
    all. *)
Theorem C9_lines_of_a_table_have_one_length :
  forall (float_of_str : string -> option float) (repr_of : pyval -> string),
    (forall best, exists n,
        Forall (fun line => String.length line = n)
          (fst (print_summary_table float_of_str repr_of best)))
    /\ (forall best,
          best = []
          \/ fst (print_summary_table float_of_str repr_of best) = []
          \/ exists sl h1 h2 body,
               summary_prepare float_of_str repr_of best = Ok sl
               /\ print_summary_table float_of_str repr_of best
                  = (grid (border_line (sl_widths sl)) [h1; h2] body, Ok tt)
               /\ Forall2 (fun m line =>
                             print_model_row sl m = ([line], Ok tt))
                    (sl_models sl) body
               /\ Forall (fun line =>
                            String.length line = line_length (sl_widths sl))
                    (grid (border_line (sl_widths sl)) [h1; h2] body))
    /\ (forall all_runs d,
          fst (print_detail_table float_of_str repr_of all_runs d) = []
          \/ exists W header body,
               print_detail_table float_of_str repr_of all_runs d
               = (EmptyString :: detail_title d
                    :: grid (border_line W) [header] body, Ok tt)
               /\ List.length body = List.length (rows_for all_runs d)
               /\ Forall (fun line => String.length line = line_length W)
                    (grid (border_line W) [header] body))
    /\ (forall all_runs, exists k,
          fst (print_detail_tables float_of_str repr_of all_runs)
          = List.concat
              (map (fun d =>
                      fst (print_detail_table float_of_str repr_of
                             all_runs d))
                 (firstn k (dataset_names all_runs))))
    /\ (forall a text w,
          String.length (pad a text w) = Nat.max (String.length text) w
          /\ exists l r : string, pad a text w = (l ++ text ++ r)%string).
Proof.
  intros fs rp.
  assert (S : forall best,
             best = []
             \/ fst (print_summary_table fs rp best) = []
             \/ exists sl h1 h2 body,
                  summary_prepare fs rp best = Ok sl
                  /\ print_summary_table fs rp best
                     = (grid (border_line (sl_widths sl)) [h1; h2] body,
                        Ok tt)
                  /\ Forall2 (fun m line =>
                                print_model_row sl m = ([line], Ok tt))
                       (sl_models sl) body
                  /\ Forall (fun line =>
                               String.length line
                               = line_length (sl_widths sl))
                       (grid (border_line (sl_widths sl)) [h1; h2] body)).
  { intros best. destruct best as [|kv best]; [now left|]. right.
    destruct (print_summary_table_cases fs rp (kv :: best))
      as [(e & _ & ->)|(sl & h1 & h2 & body & E & -> & L & F)];
      [discriminate | now left |].
    right. exists sl, h1, h2, body. auto. }
  split; [|split; [exact S|split; [|split]]].
  - intros best.
    destruct (S best) as [->|[E|(sl & h1 & h2 & body & _ & E & _ & F)]].
    + eexists. simpl. constructor; [reflexivity | constructor].
    + exists 0. rewrite E. constructor.
    + exists (line_length (sl_widths sl)). now rewrite E.
  - intros all_runs d.
    destruct (print_detail_table_cases fs rp all_runs d)
      as [[_ ->]|[(e & _ & ->)|(rows & W & header & body & _ & Er & _ & -> & L & F)]];
      [now left | now left |].
    right. exists W, header, body. repeat split; trivial.
    rewrite <- (Forall2_length L).
    assert (Lr : forall l rows',
               res_map (show_row fs rp) l = Ok rows' ->
               List.length rows' = List.length l).
    { clear. induction l as [|x l IH]; intros rows' H; simpl in H.
      - now injection H as <-.
      - destruct (show_row fs rp x); simpl in H; [|discriminate].
        destruct (res_map (show_row fs rp) l); simpl in H; [|discriminate].
        injection H as <-. simpl. f_equal. now apply IH. }
    rewrite (Lr _ _ Er). unfold sorted_rows. apply py_sorted_length.
  - intros all_runs. unfold print_detail_tables.
    destruct all_runs as [|kv rest].
    + exists 0. reflexivity.
    + apply io_for_out.
  - intros a text w. split; [apply pad_length | apply pad_keeps_text].
Qed.

(** The leaderboard of two models on two datasets, as printed. *)
Example leaderboard_sample :
  print_summary_table sample_float_of_str sample_repr_of c9_best
  = (["+---------+--------+-------+--------+--------+------+------+";
      "| Dataset | PEMS04 |       |        | PEMS08 |      |      |";
      "|  Metric |  MAE   |  RMSE |  MAPE  |  MAE   | RMSE | MAPE |";
      "+---------+--------+-------+--------+--------+------+------+";
      "| HyperD  |        |       |        |  14.00 |      |      |";
      "| STID    |  18.34 | 29.99 | 12.34% |        |      |      |";
      "+---------+--------+-------+--------+--------+------+------+"],
     Ok tt).
Proof. vm_compute. reflexivity. Qed.

(* ===================================================================== *)
(** * Fixed-point numerals *)
(* ===================================================================== *)

Lemma fmt_num_to_float (k : nat) (n : pynum) :
  fmt_num k n = (f <- to_float n ;; Ok (fmt_float k f)).
Proof. now destruct n. Qed.

Lemma is_digit_not_point (c : ascii) :
  is_digit c = true -> Ascii.eqb c "."%char = false.
Proof.
  intros H. destruct (Ascii.eqb_spec c "."%char) as [->|]; trivial.
  discriminate.
Qed.

Lemma all_digits_app (a b : string) :
  all_digits (a ++ b) = all_digits a && all_digits b.
Proof.
  induction a as [|c a IH]; simpl; trivial.
  now rewrite IH, andb_assoc.
Qed.

Lemma digit_char_is_digit (d : Z) :
  (0 <= d < 10)%Z -> is_digit (digit_char d) = true.
Proof.
  intros H. unfold digit_char.
  assert (G : forall n, n < 10 -> is_digit (ascii_of_nat (48 + n)) = true).
  { intros n Hn. do 10 (destruct n as [|n]; [reflexivity|]). lia. }
  apply G. lia.
Qed.

Lemma frac_digits_length (k : nat) :
  forall n, String.length (frac_digits k n) = k.
Proof.
  induction k as [|k IH]; intros n; cbn [frac_digits]; trivial.
  rewrite str_length_app, IH. cbn [String.length]. lia.
Qed.

Lemma frac_digits_all_digits (k : nat) :
  forall n, all_digits (frac_digits k n) = true.
Proof.
  induction k as [|k IH]; intros n; cbn [frac_digits]; trivial.
  rewrite all_digits_app, IH. cbn [all_digits andb].
  rewrite digit_char_is_digit; trivial.
  apply Z.mod_pos_bound. lia.
Qed.

Lemma uint_all_digits (d : Decimal.uint) :
  all_digits (NilEmpty.string_of_uint d) = true.
Proof. induction d; simpl; trivial. Qed.

Lemma str_of_N_digits (n : N) :
  all_digits (str_of_N n) = true /\ str_of_N n <> EmptyString.
Proof.
  unfold str_of_N, NilZero.string_of_uint.
  destruct (N.to_uint n) as [|d|d|d|d|d|d|d|d|d|d]; simpl;
    (split; [try apply uint_all_digits; trivial | discriminate]).
Qed.

Lemma fixed_tail_app (k : nat) (fr : string) :
  forall ip seen,
    all_digits ip = true ->
    fixed_tail k seen (ip ++ "." ++ fr)
    = (seen || negb (String.eqb ip EmptyString))
      && (String.length fr =? k) && all_digits fr.
Proof.
  induction ip as [|c ip IH]; intros seen H; simpl in *.
  - now rewrite orb_false_r.
  - apply andb_true_iff in H as [Hc Hip].
    rewrite (is_digit_not_point c Hc), Hc, (IH true Hip).
    simpl. now rewrite orb_true_r.
Qed.

Lemma is_fixed_decimal_digit (k : nat) (c : ascii) (s : string) :
  is_digit c = true ->
  is_fixed_decimal k (String c s) = fixed_tail k false (String c s).
Proof.
  intros H. unfold is_fixed_decimal.
  destruct c as [[|] [|] [|] [|] [|] [|] [|] [|]]; try reflexivity.
  discriminate.
Qed.

(** A rendered numeral has the shape [d+.d{k}]. *)
Lemma render_fixed_shape (k : nat) (r : Z) (s : bool) :
  0 < k -> is_fixed_decimal k (sign_text s ++ render_fixed k r) = true.
Proof.
  intros Hk. unfold render_fixed.
  destruct k as [|k]; [lia|].
  set (ip := str_of_N (Z.to_N (r / 10 ^ Z.of_nat (S k)))).
  destruct (str_of_N_digits (Z.to_N (r / 10 ^ Z.of_nat (S k)))) as [D N].
  fold ip in D, N.
  assert (T : fixed_tail (S k) false (ip ++ "." ++ frac_digits (S k) r)
              = true).
  { rewrite fixed_tail_app by trivial.
    rewrite frac_digits_length, Nat.eqb_refl, frac_digits_all_digits.
    destruct ip; [congruence | reflexivity]. }
  destruct s; simpl sign_text.
  - exact T.
  - change (EmptyString ++ ?x)%string with x.
    destruct ip as [|c ip]; [congruence|].
    change ((String c ip ++ ?x)%string) with (String c (ip ++ x)) in *.
    rewrite is_fixed_decimal_digit; trivial.
    simpl in D. now apply andb_true_iff in D as [D _].
Qed.

Lemma fmt_float_shape (k : nat) (f : float) :
  0 < k -> is_finite f = true -> is_fixed_decimal k (fmt_float k f) = true.
Proof.
  intros Hk F. destruct f as [s|s| |s m e]; try discriminate; simpl;
    now apply render_fixed_shape.
Qed.



Lemma fmt_metric_spec (k : nat) (v : pyval) (s : string) :
  0 < k -> fmt_metric k v = Ok s ->
  match as_number v with
  | None => s = EmptyString
  | Some n =>
      exists f, to_float n = Ok f /\ s = fmt_float k f
                /\ (is_finite f = true -> is_fixed_decimal k s = true)
  end.
Proof.
  intros Hk. unfold fmt_metric.
  destruct (as_number v) as [n|]; [|now intros [= <-]].
  rewrite fmt_num_to_float.
  destruct (to_float n) as [f|e]; simpl; [|discriminate].
  intros [= <-]. exists f. repeat split; trivial.
  now apply fmt_float_shape.
Qed.

(* ===================================================================== *)
(** * The detail tables (C7) *)
(* ===================================================================== *)

Lemma rows_for_In (all_runs : dict run_key (list run)) (d : string)
    (row : detail_row) :
  In row (rows_for all_runs d) <->
  exists m runs r,
    In ((m, d), runs) all_runs /\ In r runs /\ row = detail_of m r.
Proof.
  unfold rows_for. rewrite in_flat_map. split.
  - intros ([[m dd] runs] & Hin & Hr).
    destruct (String.eqb_spec dd d) as [->|N]; simpl in Hr; [|easy].
    apply in_map_iff in Hr as (r & <- & Hr). eauto 6.
  - intros (m & runs & r & Hin & Hr & ->).
    exists ((m, d), runs). split; trivial.
    rewrite String.eqb_refl. simpl. now apply in_map.
Qed.

(** The unsorted rows are the runs of the matching keys, key after key,
    each key's runs in the order they were recorded. *)
Lemma rows_for_concat (all_runs : dict run_key (list run)) (d : string) :
  rows_for all_runs d
  = flat_map (fun kv => map (detail_of (fst (fst kv))) (snd kv))
      (filter (fun kv => String.eqb (snd (fst kv)) d) all_runs).
Proof.
  unfold rows_for. induction all_runs as [|[[m dd] runs] rest IH];
    simpl; trivial.
  rewrite IH. now destruct (String.eqb dd d).
Qed.

Lemma row_key_absent (row : detail_row) :
  as_number (d_MAE row) = None -> row_mae_or_inf row = NFloat f_inf.
Proof. unfold row_mae_or_inf, num_or_inf. now intros ->. Qed.

Lemma row_key_not_nan (row : detail_row) :
  (forall v, as_number (d_MAE row) = Some v -> not_nan v) ->
  not_nan (row_mae_or_inf row).
Proof.
  unfold row_mae_or_inf, num_or_inf. intros H.
  destruct (as_number (d_MAE row)); [now apply H | reflexivity].
Qed.

Lemma strongly_sorted_after {A} (R : A -> A -> Prop) (l1 l2 : list A)
    (a : A) :
  StronglySorted R (l1 ++ a :: l2) -> Forall (R a) l2.
Proof.
  induction l1 as [|x l1 IH]; simpl; intros S;
    apply StronglySorted_inv in S as [S F]; auto.
Qed.

Lemma py_le_from_inf (b : pynum) :
  py_le (NFloat f_inf) b = true -> num_value b = XPosInf.
Proof. unfold py_le. simpl. now destruct (num_value b). Qed.

Lemma res_map_show_rows (float_of_str : string -> option float)
    (repr_of : pyval -> string) (l : list detail_row) :
  forall rows,
    res_map (show_row float_of_str repr_of) l = Ok rows ->
    Forall2 (fun row s => show_row float_of_str repr_of row = Ok s) l rows
    /\ map s_row rows = l.
Proof.
  induction l as [|x l IH]; intros rows H; simpl in H.
  - injection H as <-. split; constructor.
  - destruct (show_row float_of_str repr_of x) as [s|e] eqn:E;
      simpl in H; [|discriminate].
    destruct (res_map (show_row float_of_str repr_of) l) as [ss|e];
      simpl in H; [|discriminate].
    injection H as <-. destruct (IH ss eq_refl) as [F M]. split.
    + now constructor.
    + simpl. f_equal; trivial.
      unfold show_row in E.
      destruct (fmt_metric 4 (d_MAE x)); simpl in E; [|discriminate].
      destruct (fmt_metric 4 (d_RMSE x)); simpl in E; [|discriminate].
      now injection E as <-.
Qed.

Lemma shown_rows_own (float_of_str : string -> option float)
    (repr_of : pyval -> string) (l : list detail_row)
    (rows : list shown_row) :
  Forall2 (fun row s => show_row float_of_str repr_of row = Ok s) l rows ->
  map s_row rows = l ->
  Forall (fun s => show_row float_of_str repr_of (s_row s) = Ok s) rows.
Proof.
  induction 1 as [|row s l rows H _ IH]; intros M; simpl in M;
    constructor; injection M as M1 M2.
  - now rewrite M1.
  - now apply IH.
Qed.

Lemma show_row_spec (float_of_str : string -> option float)
    (repr_of : pyval -> string) (row : detail_row) (s : shown_row) :
  show_row float_of_str repr_of row = Ok s ->
  s_row s = row
  /\ fmt_metric 4 (d_MAE row) = Ok (MAE_s s)
  /\ fmt_metric 4 (d_RMSE row) = Ok (RMSE_s s)
  /\ MAPE_s s = format_mape float_of_str repr_of (d_MAPE row).
Proof.
  unfold show_row.
  destruct (fmt_metric 4 (d_MAE row)) as [a|e]; simpl; [|discriminate].
  destruct (fmt_metric 4 (d_RMSE row)) as [b|e]; simpl; [|discriminate].
  intros [= <-]. auto.
Qed.

(** C7, as amended: the rows of the detail table of a dataset are the
    runs of every key with that dataset, all models together.  When none
    of their MAE is NaN they are in ascending order of MAE, an absent MAE
    counting as infinity, so that only rows whose key is infinite follow
    a row without MAE, and rows none of which has an MAE below another's
    keep the order in which they were gathered.  MAE and RMSE are printed by
    the four-decimal format, which gives [d+.dddd] for a finite value and
    the empty string for a value that is not a number.  The data lines of
    the table are these rows, in the sorted order when no MAE is NaN, and
    a dataset without rows prints nothing. *)
Theorem C7_detail_rows_sorted_and_stable :
  forall (float_of_str : string -> option float) (repr_of : pyval -> string)
         (all_runs : dict run_key (list run)) (d : string),
    (forall row,
        In row (rows_for all_runs d) <->
        exists m runs r,
          In ((m, d), runs) all_runs /\ In r runs /\ row = detail_of m r)
    /\ rows_for all_runs d
       = flat_map (fun kv => map (detail_of (fst (fst kv))) (snd kv))
           (filter (fun kv => String.eqb (snd (fst kv)) d) all_runs)
    /\ Permutation (sorted_rows all_runs d) (rows_for all_runs d)
    /\ ((forall row v, In row (rows_for all_runs d) ->
                       as_number (d_MAE row) = Some v -> not_nan v) ->
        StronglySorted
          (fun a b => py_le (row_mae_or_inf a) (row_mae_or_inf b) = true)
          (sorted_rows all_runs d)
        /\ (forall l1 a l2 b,
              sorted_rows all_runs d = l1 ++ a :: l2 ->
              as_number (d_MAE a) = None -> In b l2 ->
              num_value (row_mae_or_inf b) = XPosInf)
        /\ (forall tied : detail_row -> bool,
              (forall a b, In a (rows_for all_runs d) ->
                           In b (rows_for all_runs d) ->
                           tied a = true -> tied b = true ->
                           py_lt (row_mae_or_inf b) (row_mae_or_inf a)
                           = false) ->
              filter tied (sorted_rows all_runs d)
              = filter tied (rows_for all_runs d)))
    /\ (forall row s,
          show_row float_of_str repr_of row = Ok s ->
          s_row s = row
          /\ fmt_metric 4 (d_MAE row) = Ok (MAE_s s)
          /\ fmt_metric 4 (d_RMSE row) = Ok (RMSE_s s)
          /\ MAPE_s s = format_mape float_of_str repr_of (d_MAPE row))
    /\ (forall v s,
          fmt_metric 4 v = Ok s ->
          match as_number v with
          | None => s = EmptyString
          | Some n =>
              exists f, to_float n = Ok f /\ s = fmt_float 4 f
                        /\ (is_finite f = true ->
                            is_fixed_decimal 4 s = true)
          end)
    /\ (rows_for all_runs d = [] ->
        print_detail_table float_of_str repr_of all_runs d = ([], Ok tt))
    /\ (rows_for all_runs d <> [] ->
        forall out,
          print_detail_table float_of_str repr_of all_runs d = (out, Ok tt) ->
          exists rows W header body,
            Permutation (map s_row rows) (rows_for all_runs d)
            /\ ((forall row v, In row (rows_for all_runs d) ->
                               as_number (d_MAE row) = Some v -> not_nan v) ->
                map s_row rows = sorted_rows all_runs d)
            /\ Forall (fun s => show_row float_of_str repr_of (s_row s)
                                = Ok s) rows
            /\ out = EmptyString :: detail_title d
                       :: grid (border_line W) [header] body
            /\ Forall2 (fun row line =>
                          print_detail_row W row = ([line], Ok tt))
                 rows body).
Proof.
  intros fs rp all_runs d.
  split; [intros row; apply rows_for_In|].
  split; [apply rows_for_concat|].
  split; [apply py_sorted_perm|].
  split.
  { intros NN.
    assert (S : StronglySorted
                  (fun a b => py_le (row_mae_or_inf a) (row_mae_or_inf b)
                              = true) (sorted_rows all_runs d)).
    { apply (py_sorted_sorted py_lt row_mae_or_inf py_le not_nan
               py_lt_le_total py_lt_le py_le_trans py_lt_trans
               py_lt_le_trans).
      intros row Hr. apply row_key_not_nan. intros v. now apply NN. }
    split; trivial. split.
    - intros l1 a l2 b E Ha Hb. rewrite E in S.
      pose proof (strongly_sorted_after _ _ _ _ S) as F.
      rewrite Forall_forall in F. specialize (F b Hb). simpl in F.
      rewrite (row_key_absent a Ha) in F. now apply py_le_from_inf.
    - intros tied T.
      apply (py_sorted_stable py_lt row_mae_or_inf py_le not_nan
               py_lt_le_total py_lt_le py_le_trans py_lt_trans
               py_lt_le_trans); trivial.
      intros row Hr. apply row_key_not_nan. intros v. now apply NN. }
  split; [intros row s; apply show_row_spec|].
  split; [intros v s; apply fmt_metric_spec; lia|].
  split.
  { intros E. unfold print_detail_table. now rewrite E. }
  intros NE out E.
  destruct (print_detail_table_cases fs rp all_runs d)
    as [[E0 _]|[(e & _ & E1)|(rows & W & header & body & _ & Er & _ & E2 & L & _)]].
  - contradiction.
  - rewrite E1 in E. discriminate.
  - rewrite E2 in E. injection E as <-.
    destruct (res_map_show_rows fs rp _ _ Er) as [F M].
    exists rows, W, header, body.
    split; [rewrite M; apply py_sorted_perm|].
    split; [intros _; exact M|].
    split; [exact (shown_rows_own fs rp _ _ F M) | auto].
Qed.

(** C7 as stated fails on a NaN: with the run of A at NaN recorded before
    the run of B at 1.0, the sorted rows are A then B, and the MAE of A is
    not below or equal to the MAE of B.  Nor is the MAE of B below or
    equal to that of A: these two rows have no ascending order. *)
Lemma C7_counterexample :
  map d_model (sorted_rows c7_nan_repo "X") = ["A"; "B"]
  /\ map row_mae_or_inf (sorted_rows c7_nan_repo "X")
     = [NFloat f_nan; NFloat f_one]
  /\ py_le (NFloat f_nan) (NFloat f_one) = false
  /\ py_le (NFloat f_one) (NFloat f_nan) = false.
Proof. repeat split. Qed.

Lemma C7_witness :
  StronglySorted
    (fun a b => py_le (row_mae_or_inf a) (row_mae_or_inf b) = true)
    (sorted_rows c7_repo "X")
  /\ (forall l1 a l2 b,
        sorted_rows c7_repo "X" = l1 ++ a :: l2 ->
        as_number (d_MAE a) = None -> In b l2 ->
        num_value (row_mae_or_inf b) = XPosInf)
  /\ (forall tied : detail_row -> bool,
        (forall a b, In a (rows_for c7_repo "X") ->
                     In b (rows_for c7_repo "X") ->
                     tied a = true -> tied b = true ->
                     py_lt (row_mae_or_inf b) (row_mae_or_inf a) = false) ->
        filter tied (sorted_rows c7_repo "X")
        = filter tied (rows_for c7_repo "X")).
Proof.
  apply (proj1 (proj2 (proj2 (proj2
           (C7_detail_rows_sorted_and_stable
              sample_float_of_str sample_repr_of c7_repo "X"))))).
  intros row v H.
  repeat (destruct H as [<-|H]; [simpl; intros [= <-]; reflexivity|]).
  destruct H.
Defined.

(* ===================================================================== *)
(** * The cells of the leaderboard (C5) *)
(* ===================================================================== *)







(** The cells of the sample entry. *)
Example c5_sample_cell :
  cell_strings sample_float_of_str sample_repr_of c5_best "A" "X"
  = Ok ("18.34", EmptyString, "15.23%").
Proof. reflexivity. Qed.

(* ===================================================================== *)
(** * Path segments and the dataset name (C6) *)
(* ===================================================================== *)

Lemma split_on_nonempty (c : ascii) (s : string) : split_on c s <> [].
Proof.
  induction s as [|x s IH]; simpl; [discriminate|].
  destruct (Ascii.eqb x c); [discriminate|].
  destruct (split_on c s); discriminate.
Qed.

Lemma split_on_no_sep (c : ascii) (s : string) :
  contains_char c s = false -> split_on c s = [s].
Proof.
  induction s as [|x s IH]; simpl; trivial.
  intros H. apply orb_false_iff in H as [H1 H2].
  now rewrite H1, (IH H2).
Qed.

Lemma split_on_sep (c : ascii) (a b : string) :
  contains_char c a = false ->
  split_on c (a ++ String c b) = a :: split_on c b.
Proof.
  induction a as [|x a IH]; simpl.
  - intros _. now rewrite Ascii.eqb_refl.
  - intros H. apply orb_false_iff in H as [H1 H2].
    now rewrite H1, (IH H2).
Qed.

(** The first piece of a split: the text before the first separator. *)
Lemma split_on_first (c : ascii) (s : string) :
  exists tok rest pieces,
    split_on c s = tok :: pieces
    /\ s = (tok ++ rest)%string
    /\ contains_char c tok = false
    /\ ((rest = EmptyString /\ pieces = [])
        \/ exists r, rest = String c r /\ pieces = split_on c r).
Proof.
  induction s as [|x s (tok & rest & pieces & E & Es & N & R)]; simpl.
  - exists EmptyString, EmptyString, []. repeat split. now left.
  - destruct (Ascii.eqb x c) eqn:Ex.
    + apply Ascii.eqb_eq in Ex. subst x.
      exists EmptyString, (String c s), (split_on c s).
      repeat split. right. now exists s.
    + rewrite E. exists (String x tok), rest, pieces.
      split; [reflexivity|]. split; [simpl; congruence|].
      split; [simpl; now rewrite Ex | exact R].
Qed.

Lemma contains_char_app (c : ascii) (a b : string) :
  contains_char c (a ++ b) = contains_char c a || contains_char c b.
Proof.
  induction a as [|x a IH]; simpl; trivial.
  now rewrite IH, orb_assoc.
Qed.

Lemma split_on_length_lt_2 (c : ascii) (s : string) :
  List.length (split_on c s) < 2 <-> contains_char c s = false.
Proof.
  split.
  - destruct (split_on_first c s) as (tok & rest & pieces & E & -> & N & R).
    rewrite E. destruct R as [[-> ->]|(r & -> & ->)].
    + intros _. now rewrite contains_char_app, N.
    + simpl. pose proof (split_on_nonempty c r).
      destruct (split_on c r); [congruence | simpl; lia].
  - intros H. rewrite (split_on_no_sep c s H). simpl. lia.
Qed.

Lemma dataset_of_plain (setting : string) :
  contains_char "_"%char setting = false -> dataset_of setting = setting.
Proof.
  intros H. unfold dataset_of. now rewrite (split_on_no_sep _ _ H).
Qed.

Lemma dataset_of_prefix (a b : string) :
  contains_char "_"%char a = false ->
  dataset_of (a ++ String "_"%char b) = a.
Proof.
  intros H. unfold dataset_of. now rewrite (split_on_sep _ _ _ H).
Qed.

(** A result file directly under the root, or one level below, adds no
    run. *)
Example c6_shallow_files_skipped :
  collect_all_runs [c6_entry "." c6_file; c6_entry "ModelA" c6_file]
  = ([], []).
Proof. reflexivity. Qed.

(* ===================================================================== *)
(** * Failures during the scan (C3, C8) *)
(* ===================================================================== *)

Lemma collect_step_err (r : dict run_key (list run)) (err : list string)
    (e : walk_entry) :
  collect_step (r, err) e
  = (fst (collect_step (r, []) e), err ++ snd (collect_step (r, []) e)).
Proof.
  unfold collect_step.
  destruct (negb (has_metrics e)); simpl; [now rewrite app_nil_r|].
  destruct (read_overall (metrics_file e)) as [[[mae mape] rmse]|ex];
    simpl; trivial.
  destruct (List.length (split_on os_sep (rel_dir e)) <? 2); simpl;
    [now rewrite app_nil_r|].
  destruct (split_on os_sep (rel_dir e)) as [|model [|setting rest]];
    simpl; now rewrite app_nil_r.
Qed.

Lemma collect_from_cons (st : scan_state) (e : walk_entry)
    (walk : list walk_entry) :
  collect_from st (e :: walk) = collect_from (collect_step st e) walk.
Proof. reflexivity. Qed.

Lemma collect_from_err (walk : list walk_entry) :
  forall r err,
    collect_from (r, err) walk
    = (fst (collect_from (r, []) walk),
       err ++ snd (collect_from (r, []) walk)).
Proof.
  induction walk as [|e walk IH]; intros r err.
  - simpl. now rewrite app_nil_r.
  - rewrite !collect_from_cons, collect_step_err.
    destruct (collect_step (r, []) e) as [r1 err1]. simpl.
    rewrite (IH r1 (err ++ err1)), (IH r1 err1). simpl.
    now rewrite app_assoc.
Qed.

Lemma collect_from_app (l1 l2 : list walk_entry) (st : scan_state) :
  collect_from st (l1 ++ l2) = collect_from (collect_from st l1) l2.
Proof. apply fold_left_app. Qed.

(** A file that cannot be read, decoded or indexed leaves the repository
    as it is and writes one warning. *)
Lemma collect_step_unreadable (r : dict run_key (list run))
    (err : list string) (e : walk_entry) (ex : exn) :
  has_metrics e = true ->
  read_overall (metrics_file e) = Raise ex ->
  collect_step (r, err) e
  = (r, err ++ [warn_line (path_join (dirpath e) metrics_name) ex]).
Proof.
  intros H R. unfold collect_step. now rewrite H, R.
Qed.

Lemma collect_step_ineligible (r : dict run_key (list run))
    (err : list string) (e : walk_entry) :
  eligible e = false -> fst (collect_step (r, err) e) = r.
Proof.
  unfold eligible, collect_step. intros H.
  destruct (has_metrics e); simpl in *; trivial.
  destruct (read_overall (metrics_file e)) as [[[mae mape] rmse]|ex];
    simpl in *; trivial.
  destruct (List.length (split_on os_sep (rel_dir e))) as [|[|n]];
    simpl in *; trivial. discriminate.
Qed.

Lemma collect_from_ineligible (walk : list walk_entry) :
  forall r err,
    (forall e, In e walk -> eligible e = false) ->
    fst (collect_from (r, err) walk) = r.
Proof.
  induction walk as [|e walk IH]; intros r err H; trivial.
  rewrite collect_from_cons.
  pose proof (collect_step_ineligible r err e (H e (or_introl eq_refl)))
    as E.
  destruct (collect_step (r, err) e) as [r1 err1]. simpl in E. subst r1.
  apply IH. intros; apply H; now right.
Qed.

(** The scan of a tree with one more unreadable file: the same
    repository, and the same warnings with one more among them. *)
Lemma collect_all_runs_unreadable (l1 l2 : list walk_entry)
    (e : walk_entry) (ex : exn) :
  has_metrics e = true ->
  read_overall (metrics_file e) = Raise ex ->
  exists w1 w2,
    fst (collect_all_runs (l1 ++ e :: l2)) = fst (collect_all_runs (l1 ++ l2))
    /\ snd (collect_all_runs (l1 ++ l2)) = w1 ++ w2
    /\ snd (collect_all_runs (l1 ++ e :: l2))
       = w1 ++ warn_line (path_join (dirpath e) metrics_name) ex :: w2.
Proof.
  intros H R. unfold collect_all_runs.
  rewrite !collect_from_app, collect_from_cons.
  destruct (collect_from ([], []) l1) as [r1 err1].
  rewrite (collect_step_unreadable r1 err1 e ex H R).
  rewrite (collect_from_err l2 r1 (err1 ++ _)),
    (collect_from_err l2 r1 err1). simpl.
  exists err1, (snd (collect_from (r1, []) l2)).
  repeat split. now rewrite <- app_assoc.
Qed.

Lemma main_report (float_of_str : string -> option float)
    (repr_of : pyval -> string) (walk : list walk_entry) :
  main float_of_str repr_of walk
  = {| stdout := fst (report float_of_str repr_of
                        (fst (collect_all_runs walk)));
       stderr := snd (collect_all_runs walk);
       status := snd (report float_of_str repr_of
                        (fst (collect_all_runs walk))) |}.
Proof.
  unfold main, report. destruct (collect_all_runs walk) as [r err].
  simpl.
  match goal with |- context [let '(out, r) := ?x in _] => now destruct x end.
Qed.

(** C8: when no directory of the tree yields a run, the program returns
    normally having printed the one message and nothing else; and adding
    to any tree a result file that cannot be read, decoded or indexed
    changes neither what is printed nor how the program ends: it only adds
    one warning to the diagnostic stream. *)
Theorem C8_empty_scan_and_unreadable_files :
  forall (float_of_str : string -> option float) (repr_of : pyval -> string),
    (forall walk,
        (forall e, In e walk -> eligible e = false) ->
        stdout (main float_of_str repr_of walk) = [no_results_message]
        /\ status (main float_of_str repr_of walk) = Ok tt)
    /\ (forall l1 e l2 ex,
          has_metrics e = true ->
          read_overall (metrics_file e) = Raise ex ->
          stdout (main float_of_str repr_of (l1 ++ e :: l2))
          = stdout (main float_of_str repr_of (l1 ++ l2))
          /\ status (main float_of_str repr_of (l1 ++ e :: l2))
             = status (main float_of_str repr_of (l1 ++ l2))
          /\ exists w1 w2,
               stderr (main float_of_str repr_of (l1 ++ l2)) = w1 ++ w2
               /\ stderr (main float_of_str repr_of (l1 ++ e :: l2))
                  = w1 ++ warn_line (path_join (dirpath e) metrics_name) ex
                         :: w2).
Proof.
  intros fs rp. split.
  - intros walk H. rewrite main_report. cbn [stdout status].
    assert (E : fst (collect_all_runs walk) = [])
      by apply (collect_from_ineligible walk [] [] H).
    rewrite E. split; reflexivity.
  - intros l1 e l2 ex HM R. rewrite !main_report. cbn [stdout status stderr].
    destruct (collect_all_runs_unreadable l1 l2 e ex HM R)
      as (w1 & w2 & -> & E1 & E2).
    repeat split. exists w1, w2. auto.
Qed.

Lemma C8_witness :
  stdout (main sample_float_of_str sample_repr_of
            [c8_unreadable; c6_entry "ModelA" c6_file])
  = [no_results_message]
  /\ status (main sample_float_of_str sample_repr_of
               [c8_unreadable; c6_entry "ModelA" c6_file])
     = Ok tt.
Proof.
  apply (proj1 (C8_empty_scan_and_unreadable_files
                  sample_float_of_str sample_repr_of)).
  intros e [<-|[<-|[]]]; reflexivity.
Defined.

(* ===================================================================== *)
(** * Horizon extraction (C3, C4) *)
(* ===================================================================== *)

Lemma prefix_app (a r : string) : prefix a (a ++ r) = true.
Proof.
  induction a as [|c a IH]; simpl; [now destruct r|].
  destruct (ascii_dec c c); [exact IH | congruence].
Qed.

Lemma prefix_split (a s : string) :
  prefix a s = true -> exists r, s = (a ++ r)%string.
Proof.
  revert s. induction a as [|c a IH]; intros s H.
  - exists s. reflexivity.
  - destruct s as [|x s]; simpl in H; [discriminate|].
    destruct (ascii_dec c x) as [->|]; [|discriminate].
    destruct (IH s H) as (r & ->). exists r. reflexivity.
Qed.

(** The keys the loop recognises: ["overall"], and the keys that start
    with ["horizon_"] and whose text up to the next underscore, or to the
    end, is accepted by [int]. *)
Lemma str_app_nil_r (s : string) : (s ++ EmptyString)%string = s.
Proof. induction s; simpl; congruence. Qed.

Lemma horizon_of_key_spec (key : string) (h : Z) :
  horizon_of_key key = Some h <->
  (key = "overall" /\ h = 0%Z)
  \/ (key <> "overall"
      /\ exists tok rest,
           key = ("horizon_" ++ tok ++ rest)%string
           /\ contains_char "_"%char tok = false
           /\ (rest = EmptyString \/ exists r, rest = String "_"%char r)
           /\ py_int tok = Some h).
Proof.
  unfold horizon_of_key. split.
  - destruct (String.eqb_spec key "overall") as [->|N].
    + intros [= <-]. now left.
    + destruct (prefix "horizon_" key) eqn:P; simpl; [|discriminate].
      destruct (prefix_split _ _ P) as (r & ->).
      change (split_on "_"%char ("horizon_" ++ r))
        with ("horizon" :: split_on "_"%char r).
      destruct (split_on_first "_"%char r)
        as (tok & rest & pieces & E & -> & Nt & R).
      rewrite E. simpl nth_error.
      intros H. right. split; trivial. exists tok, rest.
      repeat split; trivial.
      destruct R as [[-> _]|(r' & -> & _)]; eauto.
  - intros [[-> ->]|(N & tok & rest & -> & Nt & R & I)]; [reflexivity|].
    apply String.eqb_neq in N. rewrite N, prefix_app. simpl negb.
    cbv iota.
    change (split_on "_"%char ("horizon_" ++ tok ++ rest))
      with ("horizon" :: split_on "_"%char (tok ++ rest)).
    destruct R as [->|(r & ->)].
    + rewrite str_app_nil_r, (split_on_no_sep _ _ Nt). exact I.
    + rewrite (split_on_sep _ _ _ Nt). exact I.
Qed.

Lemma horizon_entry_dict (e : walk_entry) (model setting : string)
    (h : Z) (items : list (string * pyval)) :
  exists row,
    horizon_entry e model setting h (PDict items) = Ok row
    /\ h_horizon row = h /\ h_model row = model
    /\ h_setting row = setting /\ h_dataset row = dataset_of setting
    /\ py_get (PDict items) "MAE" PNone = Ok (h_MAE row)
    /\ py_get (PDict items) "MAPE" PNone = Ok (h_MAPE row)
    /\ py_get (PDict items) "RMSE" PNone = Ok (h_RMSE row).
Proof.
  eexists. unfold horizon_entry. simpl. repeat split.
Qed.

(** The rows of one file: one row per recognised entry, in the order of
    the entries, when the value of every recognised entry is an object. *)
Lemma file_rows_spec (e : walk_entry) (model setting : string)
    (items : list (string * pyval)) :
  (forall kv, In kv items -> recognised kv = true ->
              is_dict (snd kv) = true) ->
  forall rows,
    exists new,
      file_rows e model setting items rows = Ok (rows ++ new)
      /\ Forall2
           (fun kv row =>
              exists h, horizon_of_key (fst kv) = Some h
                        /\ horizon_entry e model setting h (snd kv) = Ok row
                        /\ h_horizon row = h)
           (filter recognised items) new.
Proof.
  unfold file_rows.
  induction items as [|[key val] items IH]; intros D rows; simpl.
  - exists []. rewrite app_nil_r. split; constructor.
  - unfold recognised at 1. simpl.
    destruct (horizon_of_key key) as [h|] eqn:Hk.
    + assert (Dv : is_dict val = true).
      { apply (D (key, val)); [now left|]. unfold recognised. simpl.
        now rewrite Hk. }
      destruct val as [| | | | | |vitems]; try discriminate.
      destruct (horizon_entry_dict e model setting h vitems)
        as (row & Er & Hh & _).
      rewrite Er. cbn [res_bind].
      destruct (IH (fun kv H => D kv (or_intror H)) (rows ++ [row]))
        as (new & En & F).
      exists (row :: new). split.
      * rewrite En, <- app_assoc. reflexivity.
      * constructor; trivial. exists h. auto.
    + apply IH. intros kv H. apply D. now right.
Qed.

(** An unreadable file in the horizon scan: one warning, no row, and the
    scan goes on. *)
Lemma collect_horizon_unreadable (e : walk_entry) (walk : list walk_entry)
    (rows : list horizon_row) (err : list string) (ex : exn) :
  has_metrics e = true ->
  2 <= List.length (split_on os_sep (rel_dir e)) ->
  metrics_file e = Unreadable ex ->
  collect_horizon_from (e :: walk) rows err
  = collect_horizon_from walk rows
      (err ++ [warn_line (path_join (dirpath e) metrics_name) ex]).
Proof.
  intros H L U. cbn [collect_horizon_from]. rewrite H, U. simpl negb.
  cbv iota.
  destruct (split_on os_sep (rel_dir e)) as [|model [|setting rest]];
    simpl in L; try lia. reflexivity.
Qed.

(** C3, the case the code misses: a result file whose ["overall"] entry
    is a number is decoded without error.  [collect_all_runs] treats it as
    a failure of that file (one warning, no run, the next file is read),
    while [collect_horizon_rows] lets the [AttributeError] of [val.get]
    escape: the extraction ends with the exception and returns no row,
    not even those of the other files. *)
Theorem C3_shape_error_escapes_horizon_extraction :
  collect_all_runs [c3_entry; c3_good]
  = ([(("ModelB", "PEMS04"),
       [{| r_MAE := PFloat (float_of_decimal 12345 3);
           r_RMSE := PFloat (float_of_decimal 200 1);
           r_MAPE := PNone;
           r_path := "root/ModelB/PEMS04_1/x/test_metrics.json";
           r_setting := "PEMS04_1";
           r_time := "2024-01-01 10:00";
           r_timestamp := S754_zero false |}])],
     [warn_line "root/ModelA/PEMS04_1/x/test_metrics.json"
        (AttributeError "'int' object has no attribute 'get'")])
  /\ collect_horizon_rows [c3_entry; c3_good]
     = ([], Raise (AttributeError "'int' object has no attribute 'get'"))
  /\ (exists rows, collect_horizon_rows [c3_good] = ([], Ok rows)
                   /\ List.length rows = 2).
Proof.
  repeat split. eexists. split; reflexivity.
Qed.

(** C4, as amended: the loop over the entries of a decoded file
    recognises the key ["overall"], with horizon 0, and every key that
    starts with ["horizon_"] and whose text up to the next underscore, or
    to the end of the key, is accepted by [int], with that integer as
    horizon; it skips every other key.  When the value of every recognised
    entry is an object, the file yields exactly one row per recognised
    entry, in the order of the entries, each with the horizon of its key
    and the three metrics read from its value. *)
Theorem C4_one_row_per_recognised_key :
  forall (e : walk_entry) (model setting : string)
         (items : list (string * pyval)),
    (forall kv, In kv items -> recognised kv = true ->
                is_dict (snd kv) = true) ->
    (forall key h,
        horizon_of_key key = Some h <->
        (key = "overall" /\ h = 0%Z)
        \/ (key <> "overall"
            /\ exists tok rest,
                 key = ("horizon_" ++ tok ++ rest)%string
                 /\ contains_char "_"%char tok = false
                 /\ (rest = EmptyString
                     \/ exists r, rest = String "_"%char r)
                 /\ py_int tok = Some h))
    /\ (forall rows, exists new,
          file_rows e model setting items rows = Ok (rows ++ new)
          /\ List.length new = List.length (filter recognised items)
          /\ Forall2
               (fun kv row =>
                  exists h vitems,
                    horizon_of_key (fst kv) = Some h
                    /\ snd kv = PDict vitems
                    /\ h_horizon row = h
                    /\ h_model row = model /\ h_setting row = setting
                    /\ h_dataset row = dataset_of setting
                    /\ py_get (snd kv) "MAE" PNone = Ok (h_MAE row)
                    /\ py_get (snd kv) "MAPE" PNone = Ok (h_MAPE row)
                    /\ py_get (snd kv) "RMSE" PNone = Ok (h_RMSE row))
               (filter recognised items) new)
    /\ (has_metrics e = true ->
        (exists rest,
            split_on os_sep (rel_dir e) = model :: setting :: rest) ->
        metrics_file e = Parsed (PDict items) ->
        exists new,
          collect_horizon_rows [e] = ([], Ok new)
          /\ List.length new = List.length (filter recognised items)).
Proof.
  intros e model setting items D.
  split; [intros key h; apply horizon_of_key_spec|].
  assert (R : forall rows, exists new,
             file_rows e model setting items rows = Ok (rows ++ new)
             /\ List.length new = List.length (filter recognised items)
             /\ Forall2
                  (fun kv row =>
                     exists h vitems,
                       horizon_of_key (fst kv) = Some h
                       /\ snd kv = PDict vitems
                       /\ h_horizon row = h
                       /\ h_model row = model /\ h_setting row = setting
                       /\ h_dataset row = dataset_of setting
                       /\ py_get (snd kv) "MAE" PNone = Ok (h_MAE row)
                       /\ py_get (snd kv) "MAPE" PNone = Ok (h_MAPE row)
                       /\ py_get (snd kv) "RMSE" PNone = Ok (h_RMSE row))
                  (filter recognised items) new).
  { intros rows.
    destruct (file_rows_spec e model setting items D rows)
      as (new & E & F).
    exists new. split; trivial. split.
    - symmetry. eapply Forall2_length; eauto.
    - assert (Dk : Forall (fun kv => is_dict (snd kv) = true)
                     (filter recognised items)).
      { apply Forall_forall. intros kv Hk. apply filter_In in Hk as [Hi Hr].
        now apply D. }
      clear E. induction F as [|kv row l l' (h & Hk & He & Hh) F IH];
        constructor.
      + inversion_clear Dk as [|? ? Dv _].
        destruct (snd kv) as [| | | | | |vitems] eqn:Ev; try discriminate.
        destruct (horizon_entry_dict e model setting h vitems)
          as (row' & Er & G).
        rewrite Er in He. injection He as <-.
        exists h, vitems. tauto.
      + apply IH. now inversion_clear Dk. }
  split; [exact R|].
  intros HM (rest & Es) P.
  destruct (R []) as (new & E & L & _). exists new. split; trivial.
  unfold collect_horizon_rows. cbn [collect_horizon_from].
  rewrite HM, Es, P. simpl. simpl in E. now rewrite E.
Qed.

Lemma C4_witness :
  exists new,
    collect_horizon_rows [c3_good] = ([], Ok new)
    /\ List.length new = 2.
Proof.
  apply (proj2 (proj2
           (C4_one_row_per_recognised_key c3_good "ModelB" "PEMS04_1"
              [("overall",
                PDict [("MAE", PFloat (float_of_decimal 12345 3));
                       ("RMSE", PFloat (float_of_decimal 200 1))]);
               ("horizon_1",
                PDict [("MAE", PFloat (float_of_decimal 100 1))])]
              ltac:(intros kv [<-|[<-|[]]]; reflexivity)))).
  - reflexivity.
  - exists ["x"]. reflexivity.
  - reflexivity.
Defined.

(** C4 as stated fails on a key with text after the integer: the key
    ["horizon_3_extra"] is neither ["overall"] nor ["horizon_"] followed
    by an integer, and the file still yields a row, with horizon 3. *)
Lemma C4_counterexample :
  String.eqb "horizon_3_extra" "overall" = false
  /\ spec_horizon_key "horizon_3_extra" = false
  /\ py_int "3_extra" = None
  /\ exists row,
       collect_horizon_rows [c4_entry] = ([], Ok [row])
       /\ h_horizon row = 3%Z.
Proof.
  repeat split. eexists. split; reflexivity.
Qed.

(* ===================================================================== *)
(** * The scan as a whole *)
(* ===================================================================== *)

Lemma collect_step_entry (r : dict run_key (list run)) (err : list string)
    (e : walk_entry) :
  collect_step (r, err) e
  = (match entry_run e with
     | Some (k, x) => dict_append key_eqb r k x
     | None => r
     end,
     err ++ entry_warning e).
Proof.
  unfold collect_step, entry_run, entry_warning.
  destruct (has_metrics e); simpl; [|now rewrite app_nil_r].
  destruct (read_overall (metrics_file e)) as [[[mae mape] rmse]|ex];
    [|reflexivity].
  rewrite app_nil_r.
  destruct (split_on os_sep (rel_dir e)) as [|model [|setting rest]];
    reflexivity.
Qed.

Lemma key_eqb_sym (a b : run_key) : key_eqb a b = key_eqb b a.
Proof.
  unfold key_eqb. now rewrite (String.eqb_sym (fst a)), (String.eqb_sym (snd a)).
Qed.

Lemma dict_get_append (d : dict run_key (list run)) (k k' : run_key)
    (x : run) :
  dict_get key_eqb (dict_append key_eqb d k x) k'
  = if key_eqb k k' then
      Some (match dict_get key_eqb d k' with
            | Some l => l
            | None => []
            end ++ [x])
    else dict_get key_eqb d k'.
Proof.
  induction d as [|[k0 xs] d IH]; simpl.
  - rewrite (key_eqb_sym k' k). now destruct (key_eqb k k').
  - destruct (key_eqb k k0) eqn:E; simpl.
    + apply key_eqb_eq in E. subst k0. rewrite (key_eqb_sym k' k).
      now destruct (key_eqb k k').
    + destruct (key_eqb k' k0) eqn:E'; [|exact IH].
      apply key_eqb_eq in E'. subst k0. now rewrite E.
Qed.

Lemma collect_from_lookup (walk : list walk_entry) :
  forall r err key,
    Forall (fun kv => snd kv <> []) r ->
    dict_get key_eqb (fst (collect_from (r, err) walk)) key
    = match match dict_get key_eqb r key with
            | Some l => l
            | None => []
            end ++ runs_of_key key walk with
      | [] => None
      | runs => Some runs
      end.
Proof.
  induction walk as [|e walk IH]; intros r err key NE.
  - simpl. rewrite app_nil_r.
    destruct (dict_get key_eqb r key) as [l|] eqn:G; trivial.
    destruct l; trivial.
    apply (dict_get_In key_eqb key_eqb_eq) in G.
    rewrite Forall_forall in NE. now destruct (NE _ G).
  - rewrite collect_from_cons, collect_step_entry. cbn [runs_of_key flat_map].
    destruct (entry_run e) as [[k x]|].
    + rewrite IH by now apply dict_append_nonempty.
      rewrite dict_get_append.
      destruct (key_eqb k key); [now rewrite <- app_assoc | reflexivity].
    + now rewrite IH.
Qed.

Lemma scan_lookup (walk : list walk_entry) (key : run_key) :
  dict_get key_eqb (fst (collect_all_runs walk)) key
  = match runs_of_key key walk with
    | [] => None
    | runs => Some runs
    end.
Proof.
  unfold collect_all_runs.
  rewrite collect_from_lookup by constructor. reflexivity.
Qed.

(** X1: every key of the repository holds the runs its directories
    contributed, in the order in which the traversal met them, and a key
    is present exactly when there is such a run. *)
Theorem scan_runs_in_traversal_order :
  forall (walk : list walk_entry) (key : run_key),
    dict_get key_eqb (fst (collect_all_runs walk)) key
    = match runs_of_key key walk with
      | [] => None
      | runs => Some runs
      end.
Proof. exact scan_lookup. Qed.

Lemma all_runs_of_append (d : dict run_key (list run)) (k : run_key)
    (x : run) :
  List.length (all_runs_of (dict_append key_eqb d k x))
  = S (List.length (all_runs_of d)).
Proof.
  unfold all_runs_of.
  induction d as [|[k0 xs] d IH]; simpl; trivial.
  destruct (key_eqb k k0); simpl.
  - rewrite !length_app. simpl. lia.
  - rewrite !length_app, IH. lia.
Qed.

Lemma entry_run_eligible (e : walk_entry) :
  eligible e = match entry_run e with Some _ => true | None => false end.
Proof.
  unfold eligible, entry_run.
  destruct (has_metrics e); simpl; trivial.
  destruct (read_overall (metrics_file e)) as [[[mae mape] rmse]|ex];
    simpl; trivial.
  destruct (split_on os_sep (rel_dir e)) as [|model [|setting rest]];
    reflexivity.
Qed.

Lemma collect_from_accounts (walk : list walk_entry) :
  forall r err,
    snd (collect_from (r, err) walk) = err ++ flat_map entry_warning walk
    /\ List.length (all_runs_of (fst (collect_from (r, err) walk)))
       = List.length (all_runs_of r) + List.length (filter eligible walk).
Proof.
  induction walk as [|e walk IH]; intros r err.
  - simpl. now rewrite app_nil_r, Nat.add_0_r.
  - rewrite collect_from_cons, collect_step_entry.
    destruct (IH (match entry_run e with
                  | Some (k, x) => dict_append key_eqb r k x
                  | None => r
                  end) (err ++ entry_warning e)) as [E1 E2].
    split.
    + rewrite E1. simpl. now rewrite app_assoc.
    + rewrite E2. cbn [filter]. rewrite entry_run_eligible.
      destruct (entry_run e) as [[k x]|]; simpl; [|reflexivity].
      rewrite all_runs_of_append. lia.
Qed.

Lemma result_file_cases (e : walk_entry) :
  (if has_metrics e then 1 else 0)
  = (if eligible e then 1 else 0) + List.length (entry_warning e)
    + (if passed_over e then 1 else 0).
Proof.
  unfold eligible, entry_warning, passed_over.
  destruct (has_metrics e); [|reflexivity].
  destruct (read_overall (metrics_file e)) as [[[mae mape] rmse]|ex];
    [|reflexivity].
  generalize (List.length (split_on os_sep (rel_dir e))). intros n.
  destruct n as [|[|n]]; reflexivity.
Qed.

Lemma count_filter {A} (p : A -> bool) (l : list A) :
  List.length (filter p l)
  = list_sum (map (fun x => if p x then 1 else 0) l).
Proof.
  induction l as [|x l IH]; simpl; trivial.
  destruct (p x); simpl; now rewrite IH.
Qed.

(** X3: the scan accounts for every directory that holds a result file:
    the file adds one run, or one warning, or it is passed over in
    silence because it lies fewer than two segments below the root.  The
    diagnostic stream receives the warnings of the failing files, in the
    order of the traversal, and nothing else. *)
Theorem scan_accounts_for_every_result_file :
  forall walk : list walk_entry,
    snd (collect_all_runs walk) = flat_map entry_warning walk
    /\ List.length (all_runs_of (fst (collect_all_runs walk)))
       = List.length (filter eligible walk)
    /\ List.length (filter has_metrics walk)
       = List.length (all_runs_of (fst (collect_all_runs walk)))
         + List.length (snd (collect_all_runs walk))
         + List.length (filter passed_over walk).
Proof.
  intros walk.
  assert (E : snd (collect_all_runs walk) = flat_map entry_warning walk
              /\ List.length (all_runs_of (fst (collect_all_runs walk)))
                 = List.length (filter eligible walk))
    by exact (collect_from_accounts walk [] []).
  destruct E as [E1 E2]. rewrite E1, E2. repeat split.
  clear. induction walk as [|e walk IH]; trivial.
  cbn [flat_map]. rewrite length_app.
  rewrite !count_filter in *. cbn [map].
  repeat match goal with
         | |- context [list_sum (?a :: ?l)] =>
             change (list_sum (a :: l)) with (a + list_sum l)
         end.
  rewrite (result_file_cases e). lia.
Qed.

(* ===================================================================== *)
(** * Reading one result file *)
(* ===================================================================== *)

Lemma read_overall_shape (data : pyval) :
  (exists t, read_overall (Parsed data) = Ok t) <->
  overall_shape data = true.
Proof.
  unfold overall_shape, read_overall.
  destruct data as [| | | | | |items]; simpl;
    try (split; [intros [t H]; discriminate | discriminate]).
  destruct (dict_get String.eqb items "overall") as [v|]; simpl.
  - destruct v; simpl;
      try (split; [intros [t H]; discriminate | discriminate]).
    split; trivial. intros _. eexists. reflexivity.
  - split; trivial. intros _. eexists. reflexivity.
Qed.

(** X4: the metrics of a decoded file are read without error exactly when
    the document is an object whose ["overall"] entry is absent or is an
    object, whatever the entries hold.  An absent ["overall"] gives three
    absent metrics and an absent metric is [None]; any other shape,
    [null] included, ends in an [AttributeError] on [get]. *)
Theorem read_overall_outcomes :
  forall data : pyval,
    ((exists t, read_overall (Parsed data) = Ok t) <->
     overall_shape data = true)
    /\ (forall e, read_overall (Parsed data) = Raise e ->
          exists v, e = no_attribute v "get" /\ is_dict v = false)
    /\ (forall items,
          data = PDict items ->
          dict_get String.eqb items "overall" = None ->
          read_overall (Parsed data) = Ok (PNone, PNone, PNone))
    /\ (forall items ov,
          data = PDict items ->
          dict_get String.eqb items "overall" = Some (PDict ov) ->
          read_overall (Parsed data)
          = Ok (entry_or_none ov "MAE", entry_or_none ov "MAPE",
                entry_or_none ov "RMSE")).
Proof.
  intros data. split; [|split; [|split]].
  - apply read_overall_shape.
  - intros e. unfold read_overall.
    destruct data as [| | | | | |items]; simpl;
      try (intros [= <-]; eexists; split; reflexivity).
    destruct (dict_get String.eqb items "overall") as [v|]; simpl;
      [|discriminate].
    destruct v; simpl; intros [= <-]; eexists; split; reflexivity.
  - intros items -> E. unfold read_overall. simpl. now rewrite E.
  - intros items ov -> E. unfold read_overall. simpl. now rewrite E.
Qed.

(* ===================================================================== *)
(** * Selecting the best runs *)
(* ===================================================================== *)

Lemma min_from_In (b : run) (l : list run) :
  In (min_from py_lt mae_or_inf b l) (b :: l).
Proof.
  revert b. induction l as [|x l IH]; intros b; simpl; auto.
  destruct (py_lt (mae_or_inf x) (mae_or_inf b)).
  - right. apply IH.
  - destruct (IH b) as [H|H]; auto.
Qed.

Lemma py_min_In (runs : list run) (sel : run) :
  py_min py_lt mae_or_inf runs = Ok sel -> In sel runs.
Proof.
  destruct runs as [|b l]; simpl; [discriminate|].
  intros [= <-]. apply min_from_In.
Qed.

Lemma choose_fold_outcome (all_runs : dict run_key (list run)) :
  forall acc,
    (Forall (fun kv => snd kv <> []) all_runs ->
     exists best,
       res_fold
         (fun best (item : run_key * list run) =>
            let '(key, runs) := item in
            best_run <- py_min py_lt mae_or_inf runs ;;
            Ok (dict_set key_eqb best key best_run))
         all_runs acc = Ok best)
    /\ (Exists (fun kv => snd kv = []) all_runs ->
        res_fold
          (fun best (item : run_key * list run) =>
             let '(key, runs) := item in
             best_run <- py_min py_lt mae_or_inf runs ;;
             Ok (dict_set key_eqb best key best_run))
          all_runs acc = Raise ValueError).
Proof.
  induction all_runs as [|[key runs] rest IH]; intros acc.
  - split; [intros _; now exists acc | intros H; inversion H].
  - cbn [res_fold]. destruct runs as [|r runs]; cbn [py_min res_bind].
    + split; [|reflexivity].
      intros F. inversion F as [|? ? N]. now destruct N.
    + destruct (IH (dict_set key_eqb acc key
                      (min_from py_lt mae_or_inf r runs))) as [A B].
      split.
      * intros F. apply A. now inversion F.
      * intros E. apply B. inversion E as [? ? N|]; [discriminate|trivial].
Qed.

(** X5: the selection fails exactly when some key of the repository has
    an empty list of runs, with the [ValueError] of [min] on an empty
    list; it cannot fail in any other way. *)
Theorem choose_best_fails_only_on_empty :
  forall all_runs : dict run_key (list run),
    (Forall (fun kv => snd kv <> []) all_runs <->
     exists best, choose_best all_runs = Ok best)
    /\ (Exists (fun kv => snd kv = []) all_runs <->
        choose_best all_runs = Raise ValueError)
    /\ (forall e, choose_best all_runs = Raise e -> e = ValueError).
Proof.
  intros all_runs.
  destruct (choose_fold_outcome all_runs []) as [A B].
  fold (choose_best all_runs) in A, B.
  assert (D : Forall (fun kv : run_key * list run => snd kv <> []) all_runs
              \/ Exists (fun kv : run_key * list run => snd kv = [])
                   all_runs).
  { clear. induction all_runs as [|[k runs] rest [IH|IH]]; auto.
    destruct runs; [right; now left | left; constructor; [discriminate|trivial]]. }
  split; [|split].
  - split; trivial. intros [best E].
    destruct D as [D|D]; trivial. rewrite (B D) in E. discriminate.
  - split; trivial. intros E.
    destruct D as [D|D]; trivial. destruct (A D) as [best E'].
    rewrite E in E'. discriminate.
  - intros e E. destruct D as [D|D].
    + destruct (A D) as [best E']. rewrite E in E'. discriminate.
    + rewrite (B D) in E. now injection E as <-.
Qed.

Lemma scan_best_runs (walk : list walk_entry) :
  exists best,
    choose_best (fst (collect_all_runs walk)) = Ok best
    /\ map fst best = map fst (fst (collect_all_runs walk))
    /\ (forall key sel,
          dict_get key_eqb best key = Some sel ->
          In sel (runs_of_key key walk)
          /\ exists e, In e walk /\ entry_run e = Some (key, sel)).
Proof.
  destruct (collect_all_runs_wf walk) as [ND NE].
  destruct (choose_best_fold (fst (collect_all_runs walk)) [] ND NE)
    as (best & E & F).
  exists best. split; [exact E|].
  assert (K : map fst best = map fst (fst (collect_all_runs walk))).
  { clear - F. induction F as [|kv b l l' [H _] _ IH]; simpl; congruence. }
  split; [exact K|].
  intros key sel G.
  assert (I : In sel (runs_of_key key walk)).
  { apply (dict_get_In key_eqb key_eqb_eq) in G.
    assert (H : exists runs,
               In (key, runs) (fst (collect_all_runs walk))
               /\ py_min py_lt mae_or_inf runs = Ok sel).
    { clear - F G. induction F as [|[k runs] b l l' [H1 H2] _ IH].
      - destruct G.
      - destruct G as [->|G].
        + simpl in H1, H2. exists runs. subst k. split; [now left | exact H2].
        + destruct (IH G) as (runs' & I & M). exists runs'. split; auto.
          now right. }
    destruct H as (runs & I & M).
    apply (dict_get_NoDup_In key_eqb key_eqb_eq _ _ _ ND) in I.
    rewrite scan_lookup in I.
    destruct (runs_of_key key walk) as [|r rs]; [discriminate|].
    injection I as <-. now apply py_min_In. }
  split; [exact I|].
  unfold runs_of_key in I. apply in_flat_map in I.
  destruct I as (e & He & I). exists e. split; trivial.
  destruct (entry_run e) as [[k r]|]; [|destruct I].
  destruct (key_eqb k key) eqn:Ek; [|destruct I].
  apply key_eqb_eq in Ek. destruct I as [->|[]]. now subst k.
Qed.

(** X6: on the repository of a scan the selection never fails.  It keeps
    the keys of the repository, in their order, and the run it selects
    for a key is one of the runs the scan recorded under that key, hence
    the run of a directory of the tree. *)
Theorem scan_then_choose_best :
  forall walk : list walk_entry,
    exists best,
      choose_best (fst (collect_all_runs walk)) = Ok best
      /\ map fst best = map fst (fst (collect_all_runs walk))
      /\ (forall key sel,
            dict_get key_eqb best key = Some sel ->
            In sel (runs_of_key key walk)
            /\ exists e, In e walk /\ entry_run e = Some (key, sel)).
Proof. exact scan_best_runs. Qed.

Lemma scan_run_sources (walk : list walk_entry) (key : run_key)
    (runs : list run) (r : run) :
  In (key, runs) (fst (collect_all_runs walk)) -> In r runs ->
  exists e, In e walk /\ entry_run e = Some (key, r).
Proof.
  intros I1 I2.
  apply (dict_get_NoDup_In key_eqb key_eqb_eq _ _ _
           (proj1 (collect_all_runs_wf walk))) in I1.
  rewrite scan_lookup in I1.
  destruct (runs_of_key key walk) as [|r0 rs] eqn:E; [discriminate|].
  injection I1 as <-. rewrite <- E in I2.
  unfold runs_of_key in I2. apply in_flat_map in I2.
  destruct I2 as (e & He & I2). exists e. split; trivial.
  destruct (entry_run e) as [[k x]|]; [|destruct I2].
  destruct (key_eqb k key) eqn:Ek; [|destruct I2].
  apply key_eqb_eq in Ek. destruct I2 as [<-|[]]. now subst k.
Qed.

Lemma scan_run_member (walk : list walk_entry) (e : walk_entry)
    (key : run_key) (r : run) :
  In e walk -> entry_run e = Some (key, r) ->
  exists runs, In (key, runs) (fst (collect_all_runs walk)) /\ In r runs.
Proof.
  intros He Er.
  assert (I : In r (runs_of_key key walk)).
  { unfold runs_of_key. apply in_flat_map. exists e. split; trivial.
    rewrite Er, key_eqb_refl. now left. }
  pose proof (scan_lookup walk key) as L.
  destruct (runs_of_key key walk) as [|r0 rs]; [destruct I|].
  exists (r0 :: rs). split; trivial.
  now apply (dict_get_In key_eqb key_eqb_eq).
Qed.

(* ===================================================================== *)
(** * Path segments and the dataset name, in the scan (C6) *)
(* ===================================================================== *)

Lemma scan_warnings (walk : list walk_entry) :
  snd (collect_all_runs walk) = flat_map entry_warning walk.
Proof. exact (proj1 (collect_from_accounts walk [] [])). Qed.

Lemma scan_without_run (before after : list walk_entry) (e : walk_entry) :
  entry_run e = None ->
  fst (collect_all_runs (before ++ e :: after))
  = fst (collect_all_runs (before ++ after)).
Proof.
  intros Er. unfold collect_all_runs.
  rewrite !collect_from_app, collect_from_cons.
  destruct (collect_from ([], []) before) as [r0 err0].
  rewrite collect_step_entry, Er.
  rewrite (collect_from_err after r0 (err0 ++ entry_warning e)).
  now rewrite (collect_from_err after r0 err0).
Qed.

(** C6, as amended: a result file fewer than two path segments below the
    root (its relative path holds no separator) contributes no run, and
    the repository is the one of the tree without it.  The file is read
    before its depth is tested: it is passed over in silence when its
    overall metrics can be read, and leaves one warning on the diagnostic
    stream, at its place among the warnings, when they cannot.  A deeper
    file whose metrics can be read adds one run under the key made of the
    first segment and of the dataset, with the second segment as its
    setting; the run is in the repository the scan returns.  The dataset
    is the setting up to its first underscore, the whole setting when it
    has none. *)
Theorem C6_model_setting_dataset_from_path :
  forall (before after : list walk_entry) (e : walk_entry),
    has_metrics e = true ->
    (List.length (split_on os_sep (rel_dir e)) < 2 <->
     contains_char os_sep (rel_dir e) = false)
    /\ (List.length (split_on os_sep (rel_dir e)) < 2 ->
        fst (collect_all_runs (before ++ e :: after))
        = fst (collect_all_runs (before ++ after))
        /\ (forall x,
              read_overall (metrics_file e) = Ok x ->
              snd (collect_all_runs (before ++ e :: after))
              = snd (collect_all_runs (before ++ after)))
        /\ (forall ex,
              read_overall (metrics_file e) = Raise ex ->
              snd (collect_all_runs (before ++ e :: after))
              = snd (collect_all_runs before)
                ++ warn_line (path_join (dirpath e) metrics_name) ex
                   :: snd (collect_all_runs after)))
    /\ (forall mae mape rmse model setting rest,
          read_overall (metrics_file e) = Ok (mae, mape, rmse) ->
          split_on os_sep (rel_dir e) = model :: setting :: rest ->
          collect_all_runs (before ++ e :: after)
          = collect_from
              (dict_append key_eqb (fst (collect_all_runs before))
                 (model, dataset_of setting)
                 {| r_MAE := mae; r_RMSE := rmse; r_MAPE := mape;
                    r_path := path_join (dirpath e) metrics_name;
                    r_setting := setting; r_time := time_str e;
                    r_timestamp := mtime e |},
               snd (collect_all_runs before))
              after
          /\ exists runs,
               dict_get key_eqb (fst (collect_all_runs (before ++ e :: after)))
                 (model, dataset_of setting) = Some runs
               /\ In {| r_MAE := mae; r_RMSE := rmse; r_MAPE := mape;
                        r_path := path_join (dirpath e) metrics_name;
                        r_setting := setting; r_time := time_str e;
                        r_timestamp := mtime e |} runs)
    /\ (forall model setting deeper,
          contains_char os_sep model = false ->
          contains_char os_sep setting = false ->
          split_on os_sep (model ++ String os_sep setting) = [model; setting]
          /\ split_on os_sep
               (model ++ String os_sep (setting ++ String os_sep deeper))
             = model :: setting :: split_on os_sep deeper)
    /\ (forall setting,
          contains_char "_"%char setting = false ->
          dataset_of setting = setting)
    /\ (forall a b,
          contains_char "_"%char a = false ->
          dataset_of (a ++ String "_"%char b) = a).
Proof.
  intros before after e HM.
  split; [apply split_on_length_lt_2|].
  split.
  { intros L.
    assert (Er : entry_run e = None).
    { unfold entry_run. rewrite HM.
      destruct (read_overall (metrics_file e)) as [[[mae mape] rmse]|ex];
        trivial.
      destruct (split_on os_sep (rel_dir e)) as [|m [|st rest]]; trivial.
      simpl in L. lia. }
    split; [now apply scan_without_run|].
    split.
    - intros x Rx. rewrite !scan_warnings, !flat_map_app. cbn [flat_map].
      unfold entry_warning at 2. now rewrite HM, Rx.
    - intros ex Rx. rewrite !scan_warnings, flat_map_app. cbn [flat_map].
      unfold entry_warning at 2. now rewrite HM, Rx. }
  split.
  { intros mae mape rmse model setting rest R S.
    assert (Er : entry_run e
                 = Some ((model, dataset_of setting),
                         {| r_MAE := mae; r_RMSE := rmse; r_MAPE := mape;
                            r_path := path_join (dirpath e) metrics_name;
                            r_setting := setting; r_time := time_str e;
                            r_timestamp := mtime e |}))
      by (unfold entry_run; now rewrite HM, R, S).
    split.
    - unfold collect_all_runs.
      rewrite collect_from_app, collect_from_cons.
      destruct (collect_from ([], []) before) as [r0 err0].
      rewrite collect_step_entry, Er. unfold entry_warning.
      rewrite HM, R, app_nil_r. reflexivity.
    - destruct (scan_run_member (before ++ e :: after) e _ _
                  (in_elt e before after) Er) as (runs & I & Hr).
      exists runs. split; trivial.
      apply (dict_get_NoDup_In key_eqb key_eqb_eq); trivial.
      apply collect_all_runs_wf. }
  split.
  { intros model setting deeper Nm Ns. split.
    - now rewrite split_on_sep, split_on_no_sep.
    - now rewrite !split_on_sep. }
  split; [apply dataset_of_plain | apply dataset_of_prefix].
Qed.

Lemma C6_witness :
  collect_all_runs [c6_entry "ModelA/PEMS04_300_12_12/x" c6_file]
  = ([(("ModelA", "PEMS04"),
       [{| r_MAE := PFloat (float_of_decimal 12345 3);
           r_RMSE := PFloat (float_of_decimal 200 1);
           r_MAPE := PNone;
           r_path := "root/ModelA/PEMS04_300_12_12/x/test_metrics.json";
           r_setting := "PEMS04_300_12_12";
           r_time := "2024-01-01 10:00";
           r_timestamp := S754_zero false |}])],
     []).
Proof.
  apply (proj1 (proj1 (proj2 (proj2
           (C6_model_setting_dataset_from_path [] []
              (c6_entry "ModelA/PEMS04_300_12_12/x" c6_file) eq_refl)))
           (PFloat (float_of_decimal 12345 3)) PNone
           (PFloat (float_of_decimal 200 1))
           "ModelA" "PEMS04_300_12_12" ["x"] eq_refl eq_refl)).
Defined.

(** C6 as stated fails on a file that cannot be decoded: one level below
    the root it adds no run and raises no error, but it is not skipped in
    silence, since the warning is written before the depth is tested. *)
Lemma C6_counterexample :
  has_metrics c6_unreadable = true
  /\ List.length (split_on os_sep (rel_dir c6_unreadable)) = 1
  /\ collect_all_runs [c6_unreadable]
     = ([],
        ["[WARN] 读取 root/ModelA/test_metrics.json 失败: Expecting value: line 1 column 1 (char 0)"]).
Proof. repeat split. Qed.

Lemma filter_subsumed {A} (p q : A -> bool) (l : list A) :
  (forall x, p x = true -> q x = true) ->
  filter p (filter q l) = filter p l.
Proof.
  intros H. induction l as [|x l IH]; simpl; trivial.
  destruct (q x) eqn:Q; simpl.
  - now rewrite IH.
  - destruct (p x) eqn:P; trivial. rewrite (H x P) in Q. discriminate.
Qed.

Lemma filter_both {A} (p q : A -> bool) (l : list A) :
  filter (fun x => p x && q x) l = filter p (filter q l).
Proof.
  induction l as [|x l IH]; simpl; trivial.
  destruct (q x) eqn:Q; simpl.
  - destruct (p x); simpl; now rewrite IH.
  - rewrite andb_false_r. exact IH.
Qed.

Lemma existsb_key_In (k : run_key) (l : list run_key) :
  existsb (key_eqb k) l = true <-> In k l.
Proof.
  rewrite existsb_exists. split.
  - intros (x & Hx & E). apply key_eqb_eq in E. now subst x.
  - intros H. exists k. split; trivial. now apply key_eqb_eq.
Qed.

Lemma collect_from_keys (walk : list walk_entry) :
  forall r err,
    map fst (fst (collect_from (r, err) walk))
    = map fst r
      ++ filter (fun k => negb (existsb (key_eqb k) (map fst r)))
           (first_seen (keys_of_walk walk)).
Proof.
  induction walk as [|e walk IH]; intros r err.
  - simpl. now rewrite app_nil_r.
  - rewrite collect_from_cons, collect_step_entry.
    unfold keys_of_walk. cbn [flat_map]. fold (keys_of_walk walk).
    destruct (entry_run e) as [[k x]|]; [|apply IH].
    rewrite IH. cbn [app first_seen filter].
    destruct (dict_append_keys r k x) as [[I ->]|[N ->]].
    + apply existsb_key_In in I. rewrite I. cbn [negb]. f_equal.
      symmetry. apply filter_subsumed. intros y Hy.
      destruct (key_eqb y k) eqn:E; trivial.
      apply key_eqb_eq in E. subst y. rewrite I in Hy. discriminate.
    + assert (N' : existsb (key_eqb k) (map fst r) = false).
      { destruct (existsb (key_eqb k) (map fst r)) eqn:E; trivial.
        apply existsb_key_In in E. contradiction. }
      rewrite N'. cbn [negb]. rewrite <- app_assoc. cbn [app].
      do 2 f_equal. rewrite <- filter_both. apply filter_ext.
      intros y. rewrite existsb_app. cbn [existsb].
      rewrite orb_false_r, negb_orb. reflexivity.
Qed.

(** X2: the keys of the repository are the keys of the runs in the order
    in which the traversal first met each of them; a key never occurs
    twice. *)
Theorem scan_keys_in_first_seen_order :
  forall walk : list walk_entry,
    map fst (fst (collect_all_runs walk)) = first_seen (keys_of_walk walk)
    /\ NoDup (map fst (fst (collect_all_runs walk))).
Proof.
  intros walk. split.
  - assert (E : map fst (fst (collect_all_runs walk))
                = [] ++ filter (fun k => negb (existsb (key_eqb k) []))
                          (first_seen (keys_of_walk walk)))
      by exact (collect_from_keys walk [] []).
    rewrite E. cbn [app existsb negb].
    clear. induction (first_seen (keys_of_walk walk)) as [|k l IH];
      simpl; congruence.
  - apply collect_all_runs_wf.
Qed.

(* ===================================================================== *)
(** * How the report can end *)
(* ===================================================================== *)

Lemma only_overflow_ok {A} (a : A) : only_overflow (Ok a).
Proof. intros e H. discriminate. Qed.

Lemma only_overflow_bind {A B} (m : res A) (k : A -> res B) :
  only_overflow m -> (forall a, m = Ok a -> only_overflow (k a)) ->
  only_overflow (res_bind m k).
Proof.
  intros Hm Hk e. destruct m as [a|e']; simpl.
  - now apply Hk.
  - intros [= <-]. now apply Hm.
Qed.

Lemma only_overflow_fold {A S} (f : S -> A -> res S) (l : list A) :
  (forall s x, In x l -> only_overflow (f s x)) ->
  forall s, only_overflow (res_fold f l s).
Proof.
  induction l as [|x l IH]; intros H s; simpl.
  - apply only_overflow_ok.
  - apply only_overflow_bind; [apply H; now left|].
    intros s' _. apply IH. intros; apply H; now right.
Qed.

Lemma only_overflow_map {A B} (f : A -> res B) (l : list A) :
  (forall x, In x l -> only_overflow (f x)) ->
  only_overflow (res_map f l).
Proof.
  induction l as [|x l IH]; intros H; simpl.
  - apply only_overflow_ok.
  - apply only_overflow_bind; [apply H; now left|]. intros y _.
    apply only_overflow_bind; [apply IH; intros; apply H; now right|].
    intros ys _. apply only_overflow_ok.
Qed.

Lemma overflow_check_only (f : float) : only_overflow (overflow_check f).
Proof. intros e. destruct f; simpl; congruence. Qed.

Lemma float_of_int_only (z : Z) : only_overflow (float_of_int z).
Proof. apply overflow_check_only. Qed.

Lemma py_add_only (a b : pynum) : only_overflow (py_add a b).
Proof.
  destruct a as [x|f], b as [y|g]; simpl; try apply only_overflow_ok;
    (apply only_overflow_bind; [apply float_of_int_only|]);
    intros; apply only_overflow_ok.
Qed.

Lemma py_sum_only (l : list pynum) : only_overflow (py_sum l).
Proof. apply only_overflow_fold. intros; apply py_add_only. Qed.

Lemma py_truediv_only (a : pynum) (n : Z) :
  n <> 0%Z -> only_overflow (py_truediv a n).
Proof.
  intros N. unfold py_truediv.
  destruct (Z.eqb_spec n 0) as [->|_]; [congruence|].
  destruct a as [x|f]; [apply overflow_check_only|].
  apply only_overflow_bind; [apply float_of_int_only|].
  intros; apply only_overflow_ok.
Qed.

Lemma avg_mae_only (maes : list pynum) : only_overflow (avg_mae maes).
Proof.
  destruct maes as [|x l]; [apply only_overflow_ok|].
  unfold avg_mae.
  apply only_overflow_bind; [apply py_sum_only|]. intros s _.
  apply only_overflow_bind;
    [apply py_truediv_only; simpl; lia | intros; apply only_overflow_ok].
Qed.

Lemma model_avg_mae_only (best : dict run_key run)
    (models datasets : list string) :
  only_overflow (model_avg_mae best models datasets).
Proof.
  apply only_overflow_fold. intros acc m _.
  apply only_overflow_bind; [apply avg_mae_only|].
  intros; apply only_overflow_ok.
Qed.

Lemma fmt_metric_only (k : nat) (v : pyval) : only_overflow (fmt_metric k v).
Proof.
  unfold fmt_metric. destruct (as_number v) as [[z|f]|]; simpl;
    try apply only_overflow_ok.
  apply only_overflow_bind; [apply float_of_int_only|].
  intros; apply only_overflow_ok.
Qed.

Section ReportEnds.
Variable float_of_str : string -> option float.
Variable repr_of : pyval -> string.

Lemma cell_strings_only (best : dict run_key run) (m d : string) :
  only_overflow (cell_strings float_of_str repr_of best m d).
Proof.
  unfold cell_strings. destruct (dict_get key_eqb best (m, d)) as [info|];
    [|apply only_overflow_ok].
  apply only_overflow_bind; [apply fmt_metric_only|]. intros a _.
  apply only_overflow_bind; [apply fmt_metric_only|]. intros b _.
  apply only_overflow_ok.
Qed.

Lemma cell_values_only (best : dict run_key run)
    (models datasets : list string) :
  only_overflow (cell_values float_of_str repr_of best models datasets).
Proof.
  apply only_overflow_fold. intros acc m _.
  apply only_overflow_fold. intros acc' d _.
  apply only_overflow_bind; [apply cell_strings_only|].
  intros; apply only_overflow_ok.
Qed.

Lemma summary_prepare_only (best : dict run_key run) :
  best <> [] -> only_overflow (summary_prepare float_of_str repr_of best).
Proof.
  intros NE. unfold summary_prepare.
  apply only_overflow_bind; [apply model_avg_mae_only|]. intros avg _.
  apply only_overflow_bind; [apply cell_values_only|]. intros values Ev.
  destruct (cell_values_spec _ _ _ _ _ _ Ev) as (_ & Hkeys & _).
  destruct (summary_widths_spec (rank_models avg (model_names best))
              (dataset_names best) values) as (W & -> & _).
  - apply rank_models_nonempty, sorted_set_nonempty.
    destruct best; [congruence | discriminate].
  - apply sorted_set_NoDup.
  - exact Hkeys.
  - apply only_overflow_ok.
Qed.

Lemma print_summary_table_only (best : dict run_key run) :
  only_overflow (snd (print_summary_table float_of_str repr_of best)).
Proof.
  destruct best as [|kv best]; [apply only_overflow_ok|].
  destruct (print_summary_table_cases float_of_str repr_of (kv :: best))
    as [(e & E & ->)|(sl & h1 & h2 & body & _ & -> & _)];
    [discriminate | | apply only_overflow_ok].
  intros e' [= <-].
  apply (summary_prepare_only (kv :: best)); [discriminate | exact E].
Qed.

Lemma show_row_only (row : detail_row) :
  only_overflow (show_row float_of_str repr_of row).
Proof.
  unfold show_row.
  apply only_overflow_bind; [apply fmt_metric_only|]. intros a _.
  apply only_overflow_bind; [apply fmt_metric_only|]. intros b _.
  apply only_overflow_ok.
Qed.

Lemma print_detail_table_only (all_runs : dict run_key (list run))
    (d : string) :
  only_overflow (snd (print_detail_table float_of_str repr_of all_runs d)).
Proof.
  destruct (print_detail_table_cases float_of_str repr_of all_runs d)
    as [[_ ->]|[(e & E & ->)|(rows & W & h & body & _ & _ & _ & -> & _)]];
    try apply only_overflow_ok.
  intros e' [= <-]. revert E. apply only_overflow_map.
  intros; apply show_row_only.
Qed.

Lemma io_for_only {A} (body : A -> io unit) (l : list A) :
  (forall x, only_overflow (snd (body x))) ->
  only_overflow (snd (io_for l body)).
Proof.
  intros H. induction l as [|x l IH]; simpl; [apply only_overflow_ok|].
  unfold io_bind. specialize (H x).
  destruct (body x) as [o [[]|e]]; simpl in *.
  - now destruct (io_for l body).
  - exact H.
Qed.

Lemma print_detail_tables_only (all_runs : dict run_key (list run)) :
  only_overflow (snd (print_detail_tables float_of_str repr_of all_runs)).
Proof.
  unfold print_detail_tables.
  destruct all_runs as [|kv rest]; [apply only_overflow_ok|].
  apply io_for_only. intros d. apply print_detail_table_only.
Qed.

Lemma report_only (all_runs : dict run_key (list run)) :
  repo_wf all_runs ->
  only_overflow (snd (report float_of_str repr_of all_runs)).
Proof.
  intros [ND NE]. unfold report.
  destruct (choose_best_fold all_runs [] ND NE) as (best & E & _).
  fold (choose_best all_runs) in E. cbn [app] in E. rewrite E.
  unfold io_lift, io_bind.
  pose proof (print_summary_table_only best) as S.
  destruct (print_summary_table float_of_str repr_of best) as [o1 [[]|e1]];
    [|exact S].
  pose proof (print_detail_tables_only all_runs) as D.
  now destruct (print_detail_tables float_of_str repr_of all_runs).
Qed.
End ReportEnds.

(** X7: whatever the tree holds, the program never ends on an
    [IndexError], a [KeyError] or a [ZeroDivisionError]: the indexing of
    the path segments and of the lists of widths and alignments, the
    lookups in the dictionaries and the division by the number of values
    of a mean all stay within bounds. *)
Theorem main_raises_no_lookup_error :
  forall (float_of_str : string -> option float) (repr_of : pyval -> string)
         (walk : list walk_entry),
    status (main float_of_str repr_of walk) <> Raise IndexError
    /\ status (main float_of_str repr_of walk) <> Raise KeyError
    /\ status (main float_of_str repr_of walk) <> Raise ZeroDivisionError.
Proof.
  intros fs rp walk. rewrite main_report. simpl.
  pose proof (report_only fs rp _ (collect_all_runs_wf walk)) as H.
  repeat split; intros E; apply H in E; discriminate E.
Qed.

(** ** Converting a small [int] *)

Lemma digits2_size (p : positive) : digits2_pos p = Pos.size p.
Proof. induction p; simpl; congruence. Qed.

Lemma digits2_iter_xO (p k : positive) :
  digits2_pos (Pos.iter xO p k) = (digits2_pos p + k)%positive.
Proof.
  induction k as [|k IH] using Pos.peano_ind.
  - simpl. now rewrite Pos.add_1_r.
  - rewrite Pos.iter_succ. simpl. rewrite IH. now rewrite Pos.add_succ_r.
Qed.

Lemma digits2_bound (p : positive) (k : Z) :
  (0 <= k)%Z -> (Zpos p < 2 ^ k)%Z -> (Zpos (digits2_pos p) <= k)%Z.
Proof.
  intros K H. rewrite digits2_size.
  pose proof (Pos.size_le p) as L.
  assert (L' : (2 ^ Zpos (Pos.size p) <= 2 * Zpos p)%Z).
  { rewrite <- Pos2Z.inj_pow. change (2 * Zpos p)%Z with (Zpos p~0).
    now apply Pos2Z.pos_le_pos. }
  assert (M : (2 ^ Zpos (Pos.size p) < 2 ^ (k + 1))%Z).
  { rewrite Z.pow_add_r by lia. lia. }
  apply Z.pow_lt_mono_r_iff in M; lia.
Qed.

Lemma round_aux_exact (s : bool) (mz : positive) (ez : Z) :
  Zpos (digits2_pos mz) = 53%Z -> (-1074 <= ez <= 971)%Z ->
  binary_round_aux prec emax s (Zpos mz) ez loc_Exact
  = S754_finite s mz ez.
Proof.
  intros D B. unfold binary_round_aux, shr_fexp, fexp, emin, prec, emax.
  cbn [Zdigits2 shr_record_of_loc]. rewrite D.
  replace (Z.max (53 + ez - 53) (3 - 1024 - 53) - ez)%Z with 0%Z by lia.
  cbn [shr shr_m loc_of_shr_record round_nearest_even Zdigits2
       shr_record_of_loc].
  rewrite D.
  replace (Z.max (53 + ez - 53) (3 - 1024 - 53) - ez)%Z with 0%Z by lia.
  cbn [shr shr_m].
  replace (ez <=? 1024 - 53)%Z with true; trivial.
  symmetry. apply Z.leb_le. lia.
Qed.

(** An [int] below [2^53] in magnitude converts to a [float], the one
    that holds it exactly. *)
Lemma float_of_int_small (z : Z) :
  (Z.abs z < 2 ^ 53)%Z -> exists f, float_of_int z = Ok f.
Proof.
  intros H. unfold float_of_int, binary_normalize.
  destruct z as [|p|p]; [eexists; reflexivity| |];
    unfold binary_round, shl_align, fexp, emin, prec, emax;
    (assert (D : (Zpos (digits2_pos p) <= 53)%Z)
       by (apply digits2_bound; [lia | exact H]));
    pose proof (Pos2Z.is_pos (digits2_pos p)) as P;
    replace (Z.max (Zpos (digits2_pos p) + 0 - 53) (3 - 1024 - 53) - 0)%Z
      with (Zpos (digits2_pos p) - 53)%Z by lia;
    destruct (Zpos (digits2_pos p) - 53)%Z as [|q|q] eqn:E; try lia.
  - rewrite round_aux_exact; [eexists; reflexivity | lia | lia].
  - rewrite round_aux_exact; [eexists; reflexivity | | lia].
    rewrite digits2_iter_xO, Pos2Z.inj_add. lia.
  - rewrite round_aux_exact; [eexists; reflexivity | lia | lia].
  - rewrite round_aux_exact; [eexists; reflexivity | | lia].
    rewrite digits2_iter_xO, Pos2Z.inj_add. lia.
Qed.

(** ** A report without [int] metrics *)

Lemma res_fold_ok {A S} (P : S -> Prop) (f : S -> A -> res S) (l : list A) :
  (forall s x, In x l -> P s -> exists s', f s x = Ok s' /\ P s') ->
  forall s, P s -> exists s', res_fold f l s = Ok s' /\ P s'.
Proof.
  induction l as [|x l IH]; intros H s Ps; simpl.
  - now exists s.
  - destruct (H s x (or_introl eq_refl) Ps) as (s1 & -> & P1). simpl.
    apply IH; trivial. intros; apply H; auto. now right.
Qed.

Lemma res_map_ok {A B} (f : A -> res B) (l : list A) :
  (forall x, In x l -> exists y, f x = Ok y) ->
  exists ys, res_map f l = Ok ys.
Proof.
  induction l as [|x l IH]; intros H; simpl.
  - now eexists.
  - destruct (H x (or_introl eq_refl)) as (y & ->). simpl.
    destruct IH as (ys & ->); [intros; apply H; now right|].
    simpl. now eexists.
Qed.

Lemma fmt_metric_float (k : nat) (v : pyval) :
  is_int v = false -> exists s, fmt_metric k v = Ok s.
Proof.
  unfold fmt_metric. destruct v; simpl; try discriminate; intros _;
    now eexists.
Qed.

Lemma sum_floats (l : list pynum) :
  (forall x, In x l -> exists f, x = NFloat f) ->
  forall acc, exists s, res_fold py_add l (NFloat acc) = Ok (NFloat s).
Proof.
  induction l as [|x l IH]; intros H acc; simpl.
  - now eexists.
  - destruct (H x (or_introl eq_refl)) as (f & ->). simpl.
    apply IH. intros; apply H; now right.
Qed.

Lemma avg_mae_floats (maes : list pynum) :
  (forall x, In x maes -> exists f, x = NFloat f) ->
  (Z.of_nat (List.length maes) < 2 ^ 53)%Z ->
  exists v, avg_mae maes = Ok v.
Proof.
  intros H B. destruct maes as [|x l]; [now eexists|].
  unfold avg_mae, py_sum.
  destruct (H x (or_introl eq_refl)) as (f & ->).
  cbn [res_fold py_add].
  change (float_of_int 0) with (Ok (S754_zero false)). cbn [res_bind].
  destruct (sum_floats l (fun y Hy => H y (or_intror Hy))
              (fadd (S754_zero false) f)) as (s & ->).
  cbn [res_bind]. unfold py_truediv.
  destruct (Z.eqb_spec (Z.of_nat (List.length (NFloat f :: l))) 0)
    as [E|_]; [simpl in E; lia|].
  destruct (float_of_int_small (Z.of_nat (List.length (NFloat f :: l))))
    as (g & ->); [lia|].
  simpl. now eexists.
Qed.

Lemma dedup_length (l : list string) : List.length (dedup l) <= List.length l.
Proof.
  induction l as [|x l IH]; simpl; trivial.
  pose proof (filter_length_le (fun y => negb (String.eqb y x)) (dedup l)).
  lia.
Qed.

Lemma sorted_set_length (l : list string) :
  List.length (sorted_set l) <= List.length l.
Proof.
  unfold sorted_set. rewrite py_sorted_length. apply dedup_length.
Qed.

Section FloatReport.
Variable float_of_str : string -> option float.
Variable repr_of : pyval -> string.

Lemma summary_prepare_floats (best : dict run_key run) :
  best <> [] ->
  (forall key info, In (key, info) best -> float_metrics info) ->
  (Z.of_nat (List.length best) < 2 ^ 53)%Z ->
  exists sl, summary_prepare float_of_str repr_of best = Ok sl.
Proof.
  intros NE F B. unfold summary_prepare.
  assert (G : forall key info, dict_get key_eqb best key = Some info ->
                               float_metrics info).
  { intros key info H. apply (F key).
    now apply (dict_get_In key_eqb key_eqb_eq). }
  assert (M : exists avg,
             model_avg_mae best (model_names best) (dataset_names best)
             = Ok avg).
  { unfold model_avg_mae.
    destruct (res_fold_ok (fun _ => True)
                (fun acc m =>
                   v <- avg_mae (eligible_maes best (dataset_names best) m) ;;
                   Ok (dict_set String.eqb acc m v))
                (model_names best)) with (s := @nil (string * pynum))
      as (avg & E & _); trivial; [|now exists avg].
    intros acc m _ _.
    destruct (avg_mae_floats (eligible_maes best (dataset_names best) m))
      as (v & ->).
    - intros x Hx. apply eligible_maes_In in Hx.
      destruct Hx as (d & info & _ & Hg & Hn).
      destruct (G _ _ Hg) as [Hm _].
      destruct (r_MAE info); simpl in *; try discriminate;
        injection Hn as <-; now eexists.
    - rewrite eligible_maes_length.
      pose proof (filter_length_le (has_numeric_mae best m)
                    (dataset_names best)).
      assert (L : List.length (dataset_names best) <= List.length best).
      { unfold dataset_names.
        rewrite <- (length_map (fun kv : run_key * run => snd (fst kv)) best).
        apply sorted_set_length. }
      lia.
    - simpl. eexists. split; [reflexivity | exact I]. }
  destruct M as (avg & ->). cbn [res_bind].
  assert (V : exists values,
             cell_values float_of_str repr_of best
               (rank_models avg (model_names best)) (dataset_names best)
             = Ok values).
  { unfold cell_values.
    destruct (res_fold_ok (fun _ => True)
                (fun acc m =>
                   res_fold
                     (fun acc d =>
                        c <- cell_strings float_of_str repr_of best m d ;;
                        Ok (dict_set key_eqb acc (m, d) c))
                     (dataset_names best) acc)
                (rank_models avg (model_names best)))
      with (s := @nil (run_key * cell)) as (values & E & _); trivial;
      [|now exists values].
    intros acc m _ _.
    apply (res_fold_ok (fun _ => True)); trivial.
    intros acc' d _ _. unfold cell_strings.
    destruct (dict_get key_eqb best (m, d)) as [info|] eqn:Hg.
    - destruct (G _ _ Hg) as [Hm Hr].
      destruct (fmt_metric_float 2 _ Hm) as (a & ->).
      destruct (fmt_metric_float 2 _ Hr) as (b & ->).
      simpl. eexists. split; [reflexivity | exact I].
    - simpl. eexists. split; [reflexivity | exact I]. }
  destruct V as (values & Ev). rewrite Ev. cbn [res_bind].
  destruct (cell_values_spec _ _ _ _ _ _ Ev) as (_ & Hkeys & _).
  destruct (summary_widths_spec (rank_models avg (model_names best))
              (dataset_names best) values) as (W & -> & _).
  - apply rank_models_nonempty, sorted_set_nonempty.
    destruct best; [congruence | discriminate].
  - apply sorted_set_NoDup.
  - exact Hkeys.
  - cbn [res_bind]. now eexists.
Qed.

Lemma io_for_ok {A} (body : A -> io unit) (l : list A) :
  (forall x, In x l -> snd (body x) = Ok tt) ->
  snd (io_for l body) = Ok tt.
Proof.
  induction l as [|x l IH]; intros H; simpl; trivial.
  unfold io_bind. pose proof (H x (or_introl eq_refl)) as Hx.
  destruct (body x) as [o r]. simpl in Hx. subst r.
  specialize (IH (fun y Hy => H y (or_intror Hy))).
  now destruct (io_for l body).
Qed.

Lemma report_floats (all_runs : dict run_key (list run)) :
  repo_wf all_runs ->
  (forall key runs r, In (key, runs) all_runs -> In r runs ->
                      float_metrics r) ->
  (Z.of_nat (List.length all_runs) < 2 ^ 53)%Z ->
  snd (report float_of_str repr_of all_runs) = Ok tt.
Proof.
  intros [ND NE] F B. unfold report.
  destruct (choose_best_fold all_runs [] ND NE) as (best & E & F2).
  fold (choose_best all_runs) in E. cbn [app] in E. rewrite E.
  unfold io_lift, io_bind.
  assert (S : snd (print_summary_table float_of_str repr_of best) = Ok tt).
  { destruct best as [|kv best']; trivial.
    destruct (print_summary_table_cases float_of_str repr_of (kv :: best'))
      as [(e & Ee & _)|(sl & h1 & h2 & body & _ & -> & _)];
      [discriminate | | reflexivity].
    destruct (summary_prepare_floats (kv :: best')) as (sl & Es).
    - discriminate.
    - intros key info H.
      assert (X : exists runs, In (key, runs) all_runs /\ In info runs).
      { clear - F2 H. induction F2 as [|[k runs] b l l' [H1 H2] _ IH].
        - destruct H.
        - destruct H as [Hb|H].
          + subst b. simpl in H1, H2. exists runs. subst k.
            split; [now left|]. now apply py_min_In.
          + destruct (IH H) as (runs' & I1 & I2). exists runs'.
            split; trivial. now right. }
      destruct X as (runs & I1 & I2). exact (F _ _ _ I1 I2).
    - rewrite <- (Forall2_length F2). exact B.
    - rewrite Es in Ee. discriminate. }
  destruct (print_summary_table float_of_str repr_of best) as [o1 r1].
  simpl in S. subst r1.
  assert (D : snd (print_detail_tables float_of_str repr_of all_runs)
              = Ok tt).
  { unfold print_detail_tables. destruct all_runs as [|kv rest]; trivial.
    apply io_for_ok. intros d _.
    destruct (print_detail_table_cases float_of_str repr_of (kv :: rest) d)
      as [[_ ->]|[(e & Ee & _)|(rows & W & h & body & _ & _ & _ & -> & _)]];
      trivial.
    destruct (res_map_ok (show_row float_of_str repr_of)
                (sorted_rows (kv :: rest) d)) as (ys & Ey).
    - intros row Hr. unfold sorted_rows in Hr. apply py_sorted_In in Hr.
      apply rows_for_In in Hr. destruct Hr as (m & runs & r & I1 & I2 & ->).
      destruct (F _ _ _ I1 I2) as [Hm Hr]. unfold show_row. simpl.
      destruct (fmt_metric_float 4 _ Hm) as (a & ->).
      destruct (fmt_metric_float 4 _ Hr) as (b & ->).
      simpl. now eexists.
    - rewrite Ey in Ee. discriminate. }
  destruct (print_detail_tables float_of_str repr_of all_runs) as [o2 r2].
  simpl in D. now subst r2.
Qed.
End FloatReport.

Lemma repo_length (all_runs : dict run_key (list run)) :
  Forall (fun kv => snd kv <> []) all_runs ->
  List.length all_runs <= List.length (all_runs_of all_runs).
Proof.
  unfold all_runs_of.
  induction 1 as [|[k runs] l H _ IH]; simpl; trivial.
  rewrite length_app. destruct runs; [now destruct H | simpl in *; lia].
Qed.

(** X8: an [OverflowError] of the two printers can only come from an
    [int] among the MAE and RMSE values.  On the repository of a scan in
    which no MAE and no RMSE is an [int] they raise none, whatever else
    the files hold: values that are not numbers, NaN and infinities, MAPE
    of any type.  (The bound on the size of the tree keeps the number of
    values of a mean within the integers a [float] holds exactly.) *)
Theorem report_overflows_only_on_int_metrics :
  forall (float_of_str : string -> option float) (repr_of : pyval -> string)
         (walk : list walk_entry),
    (Z.of_nat (List.length walk) < 2 ^ 53)%Z ->
    (forall e key r, In e walk -> entry_run e = Some (key, r) ->
                     float_metrics r) ->
    snd (report float_of_str repr_of (fst (collect_all_runs walk)))
    <> Raise OverflowError.
Proof.
  intros fs rp walk B F.
  pose proof (collect_all_runs_wf walk) as W.
  assert (E : snd (report fs rp (fst (collect_all_runs walk))) = Ok tt);
    [|rewrite E; discriminate].
  apply report_floats; trivial.
  - intros key runs r I1 I2.
    apply (dict_get_NoDup_In key_eqb key_eqb_eq _ _ _ (proj1 W)) in I1.
    rewrite scan_lookup in I1.
    destruct (runs_of_key key walk) as [|r0 rs] eqn:E; [discriminate|].
    injection I1 as <-. rewrite <- E in I2.
    unfold runs_of_key in I2. apply in_flat_map in I2.
    destruct I2 as (e & He & I2).
    destruct (entry_run e) as [[k x]|] eqn:Er; [|destruct I2].
    destruct (key_eqb k key); [|destruct I2].
    destruct I2 as [<-|[]]. exact (F e k x He Er).
  - pose proof (repo_length _ (proj2 W)) as L1.
    assert (L2 : List.length (all_runs_of (fst (collect_all_runs walk)))
                 = List.length (filter eligible walk))
      by exact (proj2 (collect_from_accounts walk [] [])).
    pose proof (filter_length_le eligible walk). lia.
Qed.

(* ===================================================================== *)
(** * The detail tables as a whole *)
(* ===================================================================== *)

Lemma io_for_done {A} (body : A -> io unit) (l : list A) :
  forall out,
    io_for l body = (out, Ok tt) ->
    out = List.concat (map (fun x => fst (body x)) l)
    /\ forall x, In x l -> snd (body x) = Ok tt.
Proof.
  induction l as [|x l IH]; intros out H; simpl in H.
  - injection H as <-. split; [reflexivity | intros x []].
  - unfold io_bind in H. destruct (body x) as [o [[]|e]] eqn:E;
      [|discriminate].
    destruct (io_for l body) as [o' r] eqn:E'.
    injection H as <- ->. destruct (IH o' eq_refl) as [-> Hl].
    split; [simpl; now rewrite E|].
    intros y [<-|Hy]; [now rewrite E | now apply Hl].
Qed.

Lemma count_one (dd : string) (n : nat) (ds : list string) :
  NoDup ds -> In dd ds ->
  list_sum (map (fun d => if String.eqb dd d then n else 0) ds) = n.
Proof.
  induction 1 as [|d ds N ND IH]; intros I; [destruct I|].
  change (list_sum (map (fun d0 => if String.eqb dd d0 then n else 0)
                      (d :: ds)))
    with ((if String.eqb dd d then n else 0)
          + list_sum (map (fun d0 => if String.eqb dd d0 then n else 0) ds)).
  destruct (String.eqb_spec dd d) as [->|Nd].
  - assert (Z : list_sum (map (fun d0 => if String.eqb d d0 then n else 0) ds)
                = 0).
    { clear - N. induction ds as [|x ds IH]; trivial.
      change (list_sum (map (fun d0 => if String.eqb d d0 then n else 0)
                          (x :: ds)))
        with ((if String.eqb d x then n else 0)
              + list_sum (map (fun d0 => if String.eqb d d0 then n else 0)
                            ds)).
      destruct (String.eqb_spec d x) as [->|_]; [destruct N; now left|].
      rewrite IH; trivial. intros H. apply N. now right. }
    lia.
  - destruct I as [->|I]; [congruence|]. now rewrite IH.
Qed.

Lemma list_sum_add {A} (f g : A -> nat) (l : list A) :
  list_sum (map (fun x => f x + g x) l)
  = list_sum (map f l) + list_sum (map g l).
Proof.
  induction l as [|x l IH]; trivial.
  change (list_sum (map (fun x => f x + g x) (x :: l)))
    with (f x + g x + list_sum (map (fun x => f x + g x) l)).
  change (list_sum (map f (x :: l))) with (f x + list_sum (map f l)).
  change (list_sum (map g (x :: l))) with (g x + list_sum (map g l)).
  lia.
Qed.

(** Every run is a row of the table of its dataset and of no other. *)
Lemma rows_partition (all_runs : dict run_key (list run))
    (ds : list string) :
  NoDup ds ->
  (forall kv, In kv all_runs -> In (snd (fst kv)) ds) ->
  list_sum (map (fun d => List.length (rows_for all_runs d)) ds)
  = List.length (all_runs_of all_runs).
Proof.
  intros ND. unfold all_runs_of.
  induction all_runs as [|[[m dd] runs] rest IH]; intros C.
  - simpl. clear. induction ds; trivial.
  - cbn [map List.concat snd]. rewrite length_app.
    rewrite <- IH by (intros; apply C; now right).
    rewrite <- (count_one dd (List.length runs) ds ND
                  (C ((m, dd), runs) (or_introl eq_refl))).
    rewrite <- list_sum_add. f_equal. apply map_ext. intros d.
    unfold rows_for. cbn [flat_map]. rewrite length_app.
    destruct (String.eqb dd d); simpl; [now rewrite length_map | trivial].
Qed.

Lemma list_sum_cons (a : nat) (l : list nat) :
  list_sum (a :: l) = a + list_sum l.
Proof. reflexivity. Qed.

Lemma grid_length (border : string) (header body : list string) :
  List.length (grid border header body)
  = 3 + List.length header + List.length body.
Proof.
  unfold grid. cbn [List.length]. rewrite length_app. cbn [List.length].
  rewrite length_app. cbn [List.length]. lia.
Qed.

Lemma res_map_length {A B} (f : A -> res B) (l : list A) :
  forall ys, res_map f l = Ok ys -> List.length ys = List.length l.
Proof.
  induction l as [|x l IH]; intros ys H; simpl in H.
  - now injection H as <-.
  - destruct (f x); simpl in H; [|discriminate].
    destruct (res_map f l); simpl in H; [|discriminate].
    injection H as <-. simpl. f_equal. now apply IH.
Qed.

Lemma detail_tables_shape (float_of_str : string -> option float)
    (repr_of : pyval -> string) (all_runs : dict run_key (list run))
    (out : list string) :
  repo_wf all_runs ->
  print_detail_tables float_of_str repr_of all_runs = (out, Ok tt) ->
  out = List.concat
          (map (fun d =>
                  fst (print_detail_table float_of_str repr_of all_runs d))
             (dataset_names all_runs))
  /\ (forall d, In d (dataset_names all_runs) ->
        exists W header body,
          print_detail_table float_of_str repr_of all_runs d
          = (EmptyString :: detail_title d
               :: grid (border_line W) [header] body, Ok tt)
          /\ List.length body = List.length (rows_for all_runs d)
          /\ body <> [])
  /\ List.length out
     = 6 * List.length (dataset_names all_runs)
       + List.length (all_runs_of all_runs).
Proof.
  intros [ND NE] H. unfold print_detail_tables in H.
  destruct all_runs as [|kv rest] eqn:Er.
  { injection H as <-. repeat split. intros d []. }
  rewrite <- Er in *. clear kv rest Er.
  destruct (io_for_done _ _ _ H) as [-> Hd].
  assert (T : forall d, In d (dataset_names all_runs) ->
                exists W header body,
                  print_detail_table float_of_str repr_of all_runs d
                  = (EmptyString :: detail_title d
                       :: grid (border_line W) [header] body, Ok tt)
                  /\ List.length body = List.length (rows_for all_runs d)
                  /\ body <> []).
  { intros d Hin. specialize (Hd d Hin).
    assert (R : rows_for all_runs d <> []).
    { unfold dataset_names in Hin.
      apply (proj1 (sorted_set_In _ _)) in Hin.
      apply in_map_iff in Hin as ([[m dd] runs] & E & Hin).
      simpl in E. subst dd.
      rewrite Forall_forall in NE. pose proof (NE _ Hin) as N. simpl in N.
      destruct runs as [|r runs]; [congruence|].
      intros Z.
      assert (I : In (detail_of m r) (rows_for all_runs d)).
      { apply rows_for_In. exists m, (r :: runs), r. repeat split; trivial.
        now left. }
      rewrite Z in I. destruct I. }
    destruct (print_detail_table_cases float_of_str repr_of all_runs d)
      as [[Z _]|[(e & _ & E)|(rows & W & h & body & _ & Em & _ & E & L & _)]].
    - contradiction.
    - rewrite E in Hd. discriminate.
    - exists W, h, body. split; [exact E|].
      assert (Lb : List.length body = List.length (rows_for all_runs d)).
      { rewrite <- (Forall2_length L), (res_map_length _ _ _ Em).
        unfold sorted_rows. apply py_sorted_length. }
      split; [exact Lb|]. intros ->. simpl in Lb.
      destruct (rows_for all_runs d); [congruence | discriminate]. }
  split; [reflexivity|]. split; [exact T|].
  rewrite <- (rows_partition all_runs (dataset_names all_runs)).
  - clear - T. induction (dataset_names all_runs) as [|d ds IH];
      [reflexivity|].
    cbn [map List.concat]. rewrite length_app.
    rewrite IH by (intros; apply T; now right).
    destruct (T d (or_introl eq_refl)) as (W & h & body & -> & Lb & _).
    cbn [fst]. rewrite list_sum_cons, <- Lb.
    change (List.length (EmptyString :: detail_title d
                           :: grid (border_line W) [h] body))
      with (2 + List.length (grid (border_line W) [h] body)).
    rewrite grid_length. cbn [List.length]. lia.
  - apply sorted_set_NoDup.
  - intros kv Hin. unfold dataset_names. apply sorted_set_In.
    exact (in_map (fun kv : run_key * list run => snd (fst kv)) _ _ Hin).
Qed.

(** X9: when the detail tables of a scanned repository are printed, there
    is one table for every dataset, in the sorted order of the dataset
    names and none of them empty: every run of the repository is a data
    line of the table of its dataset and of no other table, so the
    section has six lines per dataset and one line per run. *)
Theorem detail_tables_list_every_run :
  forall (float_of_str : string -> option float) (repr_of : pyval -> string)
         (walk : list walk_entry) (out : list string),
    print_detail_tables float_of_str repr_of (fst (collect_all_runs walk))
    = (out, Ok tt) ->
    out = List.concat
            (map (fun d =>
                    fst (print_detail_table float_of_str repr_of
                           (fst (collect_all_runs walk)) d))
               (dataset_names (fst (collect_all_runs walk))))
    /\ (forall d, In d (dataset_names (fst (collect_all_runs walk))) ->
          exists W header body,
            print_detail_table float_of_str repr_of
              (fst (collect_all_runs walk)) d
            = (EmptyString :: detail_title d
                 :: grid (border_line W) [header] body, Ok tt)
            /\ List.length body
               = List.length (rows_for (fst (collect_all_runs walk)) d)
            /\ body <> [])
    /\ List.length out
       = 6 * List.length (dataset_names (fst (collect_all_runs walk)))
         + List.length (filter eligible walk).
Proof.
  intros fs rp walk out H.
  destruct (detail_tables_shape fs rp _ out (collect_all_runs_wf walk) H)
    as (E & T & L).
  split; [exact E|]. split; [exact T|].
  rewrite L. f_equal.
  exact (proj2 (collect_from_accounts walk [] [])).
Qed.

(* ===================================================================== *)
(** * The renderer at its bounds *)
(* ===================================================================== *)

Lemma detail_widths_from (rows : list shown_row) :
  forall a b c d e,
    res_fold
      (fun w row =>
         w <- bump w 0 (String.length (d_model (s_row row))) ;;
         w <- bump w 1 (String.length (d_time (s_row row))) ;;
         w <- bump w 2 (String.length (MAE_s row)) ;;
         w <- bump w 3 (String.length (RMSE_s row)) ;;
         bump w 4 (String.length (MAPE_s row)))
      rows [a; b; c; d; e]
    = Ok [list_max
            (a :: map (fun r => String.length (d_model (s_row r))) rows);
          list_max
            (b :: map (fun r => String.length (d_time (s_row r))) rows);
          list_max (c :: map (fun r => String.length (MAE_s r)) rows);
          list_max (d :: map (fun r => String.length (RMSE_s r)) rows);
          list_max (e :: map (fun r => String.length (MAPE_s r)) rows)].
Proof.
  induction rows as [|row rows IH]; intros a b c d e.
  - simpl. now rewrite !Nat.max_0_r.
  - cbn [res_fold]. unfold bump at 1 2 3 4 5. cbn [list_get nth_error
      list_set res_bind].
    rewrite IH. cbn [map list_max fold_right].
    now rewrite !Nat.max_assoc.
Qed.

(** X10: the column widths of a detail table are, column by column, the
    length of the longest text of the column, the header included: every
    column is as wide as its content needs and no wider, and the
    computation of the widths never fails. *)
Theorem detail_widths_are_tight :
  forall rows : list shown_row,
    detail_widths rows
    = Ok [list_max
            (5 :: map (fun r => String.length (d_model (s_row r))) rows);
          list_max
            (4 :: map (fun r => String.length (d_time (s_row r))) rows);
          list_max (3 :: map (fun r => String.length (MAE_s r)) rows);
          list_max (4 :: map (fun r => String.length (RMSE_s r)) rows);
          list_max (4 :: map (fun r => String.length (MAPE_s r)) rows)].
Proof. intros rows. apply detail_widths_from. Qed.

(** The length of a line whose cells are padded to the widths [ws],
    a cell longer than its width being kept whole. *)
Lemma format_cells_bounds (ws : list nat) (al : aligns) :
  forall cells i row,
    (i + List.length cells <= List.length ws
     /\ (cells = [] \/ aligns_cover al (i + List.length cells)) ->
     exists line,
       format_cells ws al i cells row = Ok line
       /\ String.length line
          = String.length row
            + list_sum (map (fun tw => Nat.max (String.length (fst tw))
                                         (snd tw) + 3)
                          (combine cells (skipn i ws))))
    /\ (cells <> [] ->
        (List.length ws < i + List.length cells
         \/ ~ aligns_cover al (i + List.length cells)) ->
        format_cells ws al i cells row = Raise IndexError).
Proof.
  induction cells as [|text rest IH]; intros i row.
  - split; [|congruence]. intros _. exists row. simpl. split; [trivial|lia].
  - cbn [format_cells List.length]. unfold list_get.
    destruct (nth_error ws i) as [w|] eqn:Ew.
    + assert (Li : i < List.length ws)
        by (apply nth_error_Some; congruence).
      assert (Sk : skipn i ws = w :: skipn (S i) ws).
      { clear - Ew. revert i Ew. induction ws as [|x ws IH]; intros [|i] E;
          simpl in *; try discriminate.
        - now injection E as ->.
        - now apply IH. }
      cbn [res_bind].
      assert (A : (exists a, match al with
                             | AlignAll a => Ok a
                             | AlignEach l =>
                                 match nth_error l i with
                                 | Some x => Ok x
                                 | None => Raise IndexError
                                 end
                             end = Ok a /\ aligns_cover al (S i))
                  \/ (~ aligns_cover al (S i)
                      /\ match al with
                         | AlignAll a => Ok a
                         | AlignEach l =>
                             match nth_error l i with
                             | Some x => Ok x
                             | None => Raise IndexError
                             end
                         end = Raise IndexError)).
      { destruct al as [a|l]; [left; exists a; now split|].
        destruct (nth_error l i) as [x|] eqn:El.
        - left. exists x. split; trivial. simpl.
          assert (i < List.length l)
            by (apply nth_error_Some; congruence). lia.
        - right. split; trivial. apply nth_error_None in El. simpl. lia. }
      destruct A as [(a & -> & Ca)|(NC & ->)]; cbn [res_bind].
      * destruct (IH (S i) (row ++ " " ++ pad a text w ++ " |")%string)
          as [IHok IHbad].
        split.
        -- intros [L C].
           destruct IHok as (line & E & Len).
           { split; [lia|]. destruct C as [C|C]; [discriminate|].
             right.
             now replace (S i + List.length rest)
               with (i + S (List.length rest)) by lia. }
           exists line. split; [exact E|]. rewrite Len, Sk.
           cbn [combine map fst snd].
           rewrite list_sum_cons, !str_length_app, pad_length.
           change (String.length " ") with 1.
           change (String.length " |") with 2. lia.
        -- intros _ B. destruct rest as [|t rest'].
           ++ exfalso. simpl in B. destruct B as [B|B]; [lia|].
              apply B. now rewrite Nat.add_1_r.
           ++ apply IHbad; [discriminate|].
              now replace (S i + List.length (t :: rest'))
                with (i + S (List.length (t :: rest'))) by lia.
      * split.
        -- intros [L [C|C]]; [discriminate|]. exfalso. apply NC.
           destruct al as [a0|l]; simpl in *; trivial. lia.
        -- reflexivity.
    + cbn [res_bind]. apply nth_error_None in Ew. split.
      * intros [L _]. lia.
      * reflexivity.
Qed.

(** X11: a row is formatted exactly when it has no more cells than there
    are columns and, when the alignments come as a list, no more cells
    than alignments; otherwise the indexing raises [IndexError].  A cell
    longer than its column is never cut: it is printed whole and makes
    its line longer by the excess. *)
Theorem format_row_bounds :
  forall (col_widths : list nat) (cells : list string) (al : aligns),
    (List.length cells <= List.length col_widths
     /\ aligns_cover al (List.length cells) ->
     exists line,
       format_row col_widths cells al = Ok line
       /\ String.length line
          = 1 + list_sum (map (fun tw => Nat.max (String.length (fst tw))
                                           (snd tw) + 3)
                            (combine cells col_widths)))
    /\ (List.length col_widths < List.length cells
        \/ ~ aligns_cover al (List.length cells) ->
        format_row col_widths cells al = Raise IndexError).
Proof.
  intros ws cells al. unfold format_row.
  destruct (format_cells_bounds ws al cells 0 "|") as [A B].
  split.
  - intros [L C]. apply A. split; [exact L | now right].
  - intros H. apply B; [|exact H].
    intros ->. destruct H as [H|H]; [simpl in H; lia|].
    apply H. destruct al; simpl; trivial. lia.
Qed.

(* ===================================================================== *)
(** * Horizon keys *)
(* ===================================================================== *)

Lemma digits_value_digit (c : ascii) (v : Z) (s : string) (acc : Z)
    (prev : bool) :
  Ascii.eqb c "_"%char = false -> digit_val c = Some v ->
  digits_value acc prev (String c s) = digits_value (10 * acc + v) true s.
Proof. intros E D. cbn [digits_value]. now rewrite E, D. Qed.

Lemma digits_value_uint (d : Decimal.uint) :
  forall acc prev,
    digits_value acc prev (NilEmpty.string_of_uint d)
    = match d with
      | Decimal.Nil => if prev then Some acc else None
      | _ => Some (uint_value d acc)
      end.
Proof.
  induction d; intros acc prev; cbn [NilEmpty.string_of_uint]; trivial;
    (erewrite digits_value_digit; [|reflexivity|reflexivity]);
    rewrite IHd; destruct d; cbn [uint_value];
    rewrite ?Z.add_0_r; reflexivity.
Qed.

Lemma of_uint_acc_value (d : Decimal.uint) :
  forall p, Zpos (Pos.of_uint_acc d p) = uint_value d (Zpos p).
Proof.
  induction d; intros p; cbn [Pos.of_uint_acc uint_value]; trivial;
    rewrite IHd; f_equal; lia.
Qed.

Lemma of_uint_value (d : Decimal.uint) :
  Z.of_N (Pos.of_uint d) = uint_value d 0.
Proof.
  induction d; cbn [Pos.of_uint uint_value]; trivial;
    cbn [Z.of_N]; rewrite of_uint_acc_value; reflexivity.
Qed.

Lemma digits_value_str_of_N (n : N) :
  digits_value 0 false (str_of_N n) = Some (Z.of_N n).
Proof.
  unfold str_of_N, NilZero.string_of_uint.
  rewrite <- (DecimalN.Unsigned.of_to n) at 2.
  unfold N.of_uint. rewrite of_uint_value.
  destruct (N.to_uint n) eqn:E;
    try (rewrite digits_value_uint; reflexivity).
  reflexivity.
Qed.

Lemma digit_not_space (c : ascii) : is_digit c = true -> is_space c = false.
Proof.
  unfold is_digit, digit_val, is_space.
  destruct (Nat.leb_spec 48 (nat_of_ascii c));
    destruct (Nat.leb_spec (nat_of_ascii c) 57); simpl; try discriminate.
  intros _.
  destruct (Nat.leb_spec 9 (nat_of_ascii c));
    destruct (Nat.leb_spec (nat_of_ascii c) 13);
    destruct (Nat.eqb_spec (nat_of_ascii c) 32);
    destruct (Nat.eqb_spec (nat_of_ascii c) 133);
    destruct (Nat.eqb_spec (nat_of_ascii c) 160); simpl; trivial; lia.
Qed.

Lemma lstrip_digits (c : ascii) (s : string) :
  is_space c = false -> lstrip (String c s) = String c s.
Proof. intros H. simpl. now rewrite H. Qed.

Lemma rstrip_digits (s : string) :
  all_digits s = true -> rstrip s = s.
Proof.
  induction s as [|c s IH]; simpl; trivial.
  intros H. apply andb_true_iff in H as [Hc Hs].
  rewrite (IH Hs). destruct s; [|reflexivity].
  now rewrite (digit_not_space c Hc).
Qed.

Lemma digits_no_underscore (s : string) :
  all_digits s = true -> contains_char "_"%char s = false.
Proof.
  induction s as [|c s IH]; simpl; trivial.
  intros H. apply andb_true_iff in H as [Hc Hs].
  rewrite (IH Hs), orb_false_r.
  destruct (Ascii.eqb_spec c "_"%char) as [->|]; trivial. discriminate.
Qed.

Lemma count_digits_all (s : string) :
  all_digits s = true -> count_digits s = String.length s.
Proof.
  induction s as [|c s IH]; simpl; trivial.
  intros H. apply andb_true_iff in H as [Hc Hs]. rewrite (IH Hs).
  unfold is_digit in Hc. now destruct (digit_val c).
Qed.

Lemma int_of_digits_small (s : string) :
  all_digits s = true -> String.length s <= max_str_digits ->
  int_of_digits s = digits_value 0 false s.
Proof.
  intros D L. unfold int_of_digits. rewrite (count_digits_all s D).
  now destruct (Nat.ltb_spec max_str_digits (String.length s)); [lia|].
Qed.

Lemma int_of_digits_long (s : string) :
  all_digits s = true -> max_str_digits < String.length s ->
  int_of_digits s = None.
Proof.
  intros D L. unfold int_of_digits. rewrite (count_digits_all s D).
  now destruct (Nat.ltb_spec max_str_digits (String.length s)); [|lia].
Qed.

Lemma py_int_digits (c : ascii) (s : string) :
  is_digit c = true -> all_digits s = true ->
  py_int (String c s) = int_of_digits (String c s).
Proof.
  intros Hc Hs. unfold py_int.
  rewrite (lstrip_digits c s (digit_not_space c Hc)).
  rewrite rstrip_digits by (simpl; now rewrite Hc, Hs).
  destruct c as [[] [] [] [] [] [] [] []]; try discriminate Hc;
    reflexivity.
Qed.

Lemma py_int_str_of_N (n : N) :
  String.length (str_of_N n) <= max_str_digits ->
  py_int (str_of_N n) = Some (Z.of_N n).
Proof.
  intros L. destruct (str_of_N_digits n) as [D NE].
  rewrite <- (digits_value_str_of_N n).
  rewrite <- (int_of_digits_small _ D L).
  destruct (str_of_N n) as [|c s]; [congruence|].
  simpl in D. apply andb_true_iff in D as [Hc Hs].
  now apply py_int_digits.
Qed.

Lemma py_int_minus (s : string) :
  all_digits s = true ->
  py_int (String "-"%char s) = option_map Z.opp (int_of_digits s).
Proof.
  intros D. unfold py_int. rewrite lstrip_digits by reflexivity.
  assert (R : rstrip (String "-"%char s) = String "-"%char s).
  { cbn [rstrip]. rewrite (rstrip_digits _ D). now destruct s. }
  now rewrite R.
Qed.

Lemma py_int_str_of_Z (z : Z) :
  String.length (str_of_N (Z.abs_N z)) <= max_str_digits ->
  py_int (str_of_Z z) = Some z.
Proof.
  destruct z as [|p|p]; intros L.
  - reflexivity.
  - change (str_of_Z (Zpos p)) with (str_of_N (Npos p)).
    apply (py_int_str_of_N (Npos p) L).
  - unfold str_of_Z.
    destruct (str_of_N_digits (Npos p)) as [D _].
    change ("-" ++ str_of_N (Npos p))%string
      with (String "-"%char (str_of_N (Npos p))).
    rewrite (py_int_minus _ D), (int_of_digits_small _ D L).
    now rewrite digits_value_str_of_N.
Qed.

Lemma py_int_long (s : string) :
  all_digits s = true -> max_str_digits < String.length s ->
  py_int s = None.
Proof.
  intros D L. destruct s as [|c s]; [simpl in L; lia|].
  pose proof D as D'. simpl in D'. apply andb_true_iff in D' as [Hc Hs].
  rewrite (py_int_digits c s Hc Hs). now apply int_of_digits_long.
Qed.

Lemma horizon_of_numeral (n : Z) :
  String.length (str_of_N (Z.abs_N n)) <= max_str_digits ->
  horizon_of_key ("horizon_" ++ str_of_Z n) = Some n.
Proof.
  intros L. apply horizon_of_key_spec. right. split; [discriminate|].
  exists (str_of_Z n), EmptyString. split.
  - now rewrite str_app_nil_r.
  - split; [|split; [now left | now apply py_int_str_of_Z]].
    destruct n as [|p|p]; [reflexivity| |].
    + apply digits_no_underscore. apply (str_of_N_digits (Npos p)).
    + unfold str_of_Z.
      change ("-" ++ str_of_N (Npos p))%string
        with (String "-"%char (str_of_N (Npos p))).
      cbn [contains_char]. rewrite digits_no_underscore; [reflexivity|].
      apply (str_of_N_digits (Npos p)).
Qed.

Lemma horizon_of_long_numeral (s : string) :
  all_digits s = true -> max_str_digits < String.length s ->
  horizon_of_key ("horizon_" ++ s) = None.
Proof.
  intros D Ls. unfold horizon_of_key.
  change (String.eqb ("horizon_" ++ s) "overall") with false.
  rewrite prefix_app. simpl negb. cbv iota.
  change (split_on "_"%char ("horizon_" ++ s))
    with ("horizon" :: split_on "_"%char s).
  rewrite (split_on_no_sep _ _ (digits_no_underscore s D)).
  simpl nth_error. now apply py_int_long.
Qed.

(** X12: the horizon written into a key comes back as the horizon of the
    row.  For an integer [n] whose numeral has at most 4300 digits, the
    key ["horizon_"] followed by that numeral is recognised with the
    horizon [n], negative [n] included, and an entry with this key and an
    object as its value gives one row, of horizon [n].  A key whose
    numeral has more than 4300 digits is skipped, because [int] refuses
    the numeral: its entry gives no row, and no error either, whatever
    its value.  The keys ["overall"] and ["horizon_0"] both give the
    horizon 0. *)
Theorem horizon_key_round_trip :
  forall (n : Z) (e : walk_entry) (model setting : string)
         (items : list (string * pyval)),
    String.length (str_of_N (Z.abs_N n)) <= 4300 ->
    horizon_of_key ("horizon_" ++ str_of_Z n) = Some n
    /\ (exists row,
          file_rows e model setting
            [(("horizon_" ++ str_of_Z n)%string, PDict items)] []
          = Ok [row]
          /\ h_horizon row = n)
    /\ (forall s val,
          all_digits s = true -> 4300 < String.length s ->
          horizon_of_key ("horizon_" ++ s) = None
          /\ file_rows e model setting [(("horizon_" ++ s)%string, val)] []
             = Ok [])
    /\ horizon_of_key "overall" = Some 0%Z
    /\ horizon_of_key "horizon_0" = Some 0%Z.
Proof.
  intros n e model setting items L.
  pose proof (horizon_of_numeral n L) as H.
  split; [exact H|]. split.
  - destruct (horizon_entry_dict e model setting n items)
      as (row & E & Hh & _).
    exists row. split; [|exact Hh].
    unfold file_rows. cbn [res_fold fst snd]. now rewrite H, E.
  - split; [|split; reflexivity].
    intros s val D Ls.
    pose proof (horizon_of_long_numeral s D Ls) as N.
    split; [exact N|].
    unfold file_rows. cbn [res_fold fst snd]. now rewrite N.
Qed.

(* ===================================================================== *)
(** * Horizon extraction as a whole *)
(* ===================================================================== *)

Lemma file_rows_acc (e : walk_entry) (model setting : string)
    (items : list (string * pyval)) :
  forall rows,
    file_rows e model setting items rows
    = (new <- file_rows e model setting items [] ;; Ok (rows ++ new)).
Proof.
  unfold file_rows.
  induction items as [|[key val] items IH]; intros rows.
  - simpl. now rewrite app_nil_r.
  - cbn [res_fold fst snd].
    destruct (horizon_of_key key) as [h|]; [|apply IH].
    destruct (horizon_entry e model setting h val) as [row|ex];
      [|reflexivity].
    cbn [res_bind app]. rewrite (IH (rows ++ [row])), (IH [row]).
    destruct (res_fold _ items []) as [new|ex]; [|reflexivity].
    cbn [res_bind]. now rewrite <- app_assoc.
Qed.

Lemma file_rows_unsafe (e : walk_entry) (model setting : string)
    (items : list (string * pyval)) :
  forallb entry_safe items = false ->
  forall rows,
    exists v, is_dict v = false
              /\ file_rows e model setting items rows
                 = Raise (no_attribute v "get").
Proof.
  unfold file_rows.
  induction items as [|[key val] items IH]; intros U rows;
    [discriminate|].
  cbn [forallb] in U. cbn [res_fold fst snd].
  unfold entry_safe at 1, recognised in U. cbn [fst snd] in U.
  destruct (horizon_of_key key) as [h|]; cbn [negb orb] in U.
  - destruct (is_dict val) eqn:D; cbn [andb] in U.
    + destruct val as [| | | | | |vitems]; try discriminate.
      destruct (horizon_entry_dict e model setting h vitems)
        as (row & -> & _).
      cbn [res_bind]. now apply IH.
    + exists val. split; trivial.
      destruct val; try discriminate; reflexivity.
  - now apply IH.
Qed.

Lemma entry_horizon_outcome (e : walk_entry) :
  (horizon_safe e = true -> exists rows, entry_horizon_rows e = Ok rows)
  /\ (horizon_safe e = false ->
      exists v attr, is_dict v = false
                     /\ entry_horizon_rows e = Raise (no_attribute v attr)).
Proof.
  unfold horizon_safe, entry_horizon_rows.
  destruct (has_metrics e); cbn [negb orb]; [|split; [eauto | discriminate]].
  destruct (split_on os_sep (rel_dir e)) as [|model [|setting rest]];
    cbn [List.length Nat.ltb Nat.leb orb];
    try (split; [eauto | discriminate]).
  destruct (metrics_file e) as [ex|data];
    [split; [eauto | discriminate]|].
  destruct data as [| | | | | |items];
    try (split; [discriminate|]; intros _; eexists; eexists;
         split; [|reflexivity]; reflexivity).
  cbn [py_items res_bind]. split.
  - intros S.
    destruct (file_rows_spec e model setting items) with (rows := @nil horizon_row)
      as (new & E & _).
    + intros kv Hin R. rewrite forallb_forall in S.
      specialize (S kv Hin). unfold entry_safe in S. rewrite R in S.
      exact S.
    + exists new. exact E.
  - intros U.
    destruct (file_rows_unsafe e model setting items U []) as (v & D & E).
    exists v, "get". now split.
Qed.

Lemma collect_horizon_step (e : walk_entry) (walk : list walk_entry)
    (rows : list horizon_row) (err : list string) :
  collect_horizon_from (e :: walk) rows err
  = match entry_horizon_rows e with
    | Ok new =>
        collect_horizon_from walk (rows ++ new)
          (err ++ entry_horizon_warning e)
    | Raise ex => (err, Raise ex)
    end.
Proof.
  cbn [collect_horizon_from].
  unfold entry_horizon_rows, entry_horizon_warning.
  destruct (has_metrics e); cbn [negb]; [|now rewrite !app_nil_r].
  destruct (split_on os_sep (rel_dir e)) as [|model [|setting rest]];
    cbn [List.length Nat.ltb Nat.leb]; try now rewrite !app_nil_r.
  destruct (metrics_file e) as [ex|data]; [now rewrite app_nil_r|].
  destruct (py_items data) as [items|ex]; cbn [res_bind]; [|reflexivity].
  rewrite file_rows_acc.
  destruct (file_rows e model setting items []) as [new|ex];
    cbn [res_bind]; [now rewrite app_nil_r | reflexivity].
Qed.

Lemma collect_horizon_all (walk : list walk_entry) :
  forall rows err,
    (forall x, In x walk -> horizon_safe x = true) ->
    collect_horizon_from walk rows err
    = (err ++ flat_map entry_horizon_warning walk,
       Ok (rows ++ flat_map rows_or_nil walk)).
Proof.
  induction walk as [|e walk IH]; intros rows err S.
  - simpl. now rewrite !app_nil_r.
  - rewrite collect_horizon_step. cbn [flat_map].
    destruct (proj1 (entry_horizon_outcome e)) as (new & E);
      [apply S; now left|].
    unfold rows_or_nil at 1. rewrite E.
    rewrite IH by (intros; apply S; now right).
    now rewrite !app_assoc.
Qed.

Lemma collect_horizon_first_failure (l1 : list walk_entry) :
  forall e l2 rows err,
    (forall x, In x l1 -> horizon_safe x = true) ->
    horizon_safe e = false ->
    exists v attr,
      is_dict v = false
      /\ collect_horizon_from (l1 ++ e :: l2) rows err
         = (err ++ flat_map entry_horizon_warning l1,
            Raise (no_attribute v attr)).
Proof.
  induction l1 as [|x l1 IH]; intros e l2 rows err S U.
  - cbn [app]. rewrite collect_horizon_step.
    destruct (proj2 (entry_horizon_outcome e) U) as (v & attr & D & ->).
    exists v, attr. split; trivial. simpl. now rewrite app_nil_r.
  - cbn [app]. rewrite collect_horizon_step.
    destruct (proj1 (entry_horizon_outcome x)) as (new & ->);
      [apply S; now left|].
    destruct (IH e l2 (rows ++ new) (err ++ entry_horizon_warning x))
      as (v & attr & D & ->); trivial; [intros; apply S; now right|].
    exists v, attr. split; trivial. cbn [flat_map].
    now rewrite app_assoc.
Qed.

Lemma horizon_outcome :
  forall walk : list walk_entry,
    ((forall x, In x walk -> horizon_safe x = true) ->
     collect_horizon_rows walk
     = (flat_map entry_horizon_warning walk,
        Ok (flat_map rows_or_nil walk)))
    /\ (forall l1 e l2,
          walk = l1 ++ e :: l2 ->
          (forall x, In x l1 -> horizon_safe x = true) ->
          horizon_safe e = false ->
          exists v attr,
            is_dict v = false
            /\ collect_horizon_rows walk
               = (flat_map entry_horizon_warning l1,
                  Raise (no_attribute v attr)))
    /\ ((exists rows, snd (collect_horizon_rows walk) = Ok rows) <->
        forall x, In x walk -> horizon_safe x = true).
Proof.
  intros walk. unfold collect_horizon_rows.
  assert (A : (forall x, In x walk -> horizon_safe x = true) ->
              collect_horizon_from walk [] []
              = (flat_map entry_horizon_warning walk,
                 Ok (flat_map rows_or_nil walk))).
  { intros S. now rewrite collect_horizon_all. }
  assert (B : forall l1 e l2,
             walk = l1 ++ e :: l2 ->
             (forall x, In x l1 -> horizon_safe x = true) ->
             horizon_safe e = false ->
             exists v attr,
               is_dict v = false
               /\ collect_horizon_from walk [] []
                  = (flat_map entry_horizon_warning l1,
                     Raise (no_attribute v attr))).
  { intros l1 e l2 -> S U.
    exact (collect_horizon_first_failure l1 e l2 [] [] S U). }
  split; [exact A|]. split; [exact B|]. split.
  - intros [rows E] x Hx.
    destruct (forallb horizon_safe walk) eqn:F.
    + rewrite forallb_forall in F. now apply F.
    + exfalso.
      assert (X : exists l1 e l2,
                 walk = l1 ++ e :: l2
                 /\ (forall y, In y l1 -> horizon_safe y = true)
                 /\ horizon_safe e = false).
      { clear - F. induction walk as [|y walk IH]; [discriminate|].
        simpl in F. destruct (horizon_safe y) eqn:Sy.
        - destruct (IH F) as (l1 & e & l2 & -> & S & U).
          exists (y :: l1), e, l2. split; [reflexivity|]. split; trivial.
          intros z [<-|Hz]; auto.
        - exists [], y, walk. split; [reflexivity|]. split; trivial.
          intros z []. }
      destruct X as (l1 & e & l2 & Ew & S & U).
      destruct (B l1 e l2 Ew S U) as (v & attr & _ & E').
      rewrite E' in E. discriminate.
  - intros S. rewrite (A S). now eexists.
Qed.

(** X13: the horizon extraction returns only if every directory it reads
    is safe: its document is an object and every entry under ["overall"]
    or a recognised horizon key is an object.  What it returns is then
    the rows of the directories in the order of the traversal, and it has
    written one warning per unreadable file that lies two segments or
    more below the root.  A single directory that is not safe, anywhere
    in the tree, makes the extraction end on an exception: no row is
    returned, not even those of the directories read before it. *)
Theorem horizon_extraction_outcome :
  forall walk : list walk_entry,
    (forall err rows,
        collect_horizon_rows walk = (err, Ok rows) ->
        (forall x, In x walk -> horizon_safe x = true)
        /\ rows = flat_map rows_or_nil walk
        /\ err = flat_map entry_horizon_warning walk)
    /\ (forall e,
          In e walk -> horizon_safe e = false ->
          exists ex, snd (collect_horizon_rows walk) = Raise ex).
Proof.
  intros walk. destruct (horizon_outcome walk) as (A & _ & C).
  assert (S : forall err rows,
             collect_horizon_rows walk = (err, Ok rows) ->
             forall x, In x walk -> horizon_safe x = true).
  { intros err rows E. apply C. exists rows. now rewrite E. }
  split.
  - intros err rows E. split; [exact (S err rows E)|].
    rewrite (A (S err rows E)) in E. injection E as <- <-. auto.
  - intros e He U.
    destruct (collect_horizon_rows walk) as [err [rows|ex]] eqn:E.
    + rewrite (S err rows eq_refl e He) in U. discriminate.
    + now exists ex.
Qed.

Lemma Forall2_In_l {A B} (R : A -> B -> Prop) (l : list A) (l' : list B)
    (x : A) :
  Forall2 R l l' -> In x l -> exists y, In y l' /\ R x y.
Proof.
  induction 1 as [|a b l l' Hab _ IH]; intros Hin; [destruct Hin|].
  destruct Hin as [<-|Hin].
  - exists b. split; [now left | exact Hab].
  - destruct (IH Hin) as (y & Hy & Ry). exists y. split; [now right|exact Ry].
Qed.

(** X14: the two scans agree on a file they both read: when the horizon
    extraction succeeds, every run of the repository whose document has
    an ["overall"] entry has a row of horizon 0 among the horizon rows,
    with the model, dataset, setting, path and time of the run and the
    same three metrics. *)
Theorem overall_row_matches_run :
  forall (walk : list walk_entry) (err : list string)
         (rows : list horizon_row) (e : walk_entry) (key : run_key)
         (r : run) (items : list (string * pyval)) (ov : pyval),
    collect_horizon_rows walk = (err, Ok rows) ->
    In e walk ->
    entry_run e = Some (key, r) ->
    metrics_file e = Parsed (PDict items) ->
    dict_get String.eqb items "overall" = Some ov ->
    exists row,
      In row rows
      /\ h_horizon row = 0%Z
      /\ h_model row = fst key /\ h_dataset row = snd key
      /\ h_setting row = r_setting r /\ h_path row = r_path r
      /\ h_time row = r_time r /\ h_timestamp row = r_timestamp r
      /\ h_MAE row = r_MAE r /\ h_MAPE row = r_MAPE r
      /\ h_RMSE row = r_RMSE r.
Proof.
  intros walk err rows e key r items ov C He Er Ef Eo.
  destruct (horizon_outcome walk) as (A & _ & S).
  assert (Safe : forall x, In x walk -> horizon_safe x = true).
  { apply S. exists rows. now rewrite C. }
  rewrite (A Safe) in C. injection C as _ <-.
  pose proof (Safe e He) as Se.
  unfold entry_run in Er. unfold horizon_safe in Se.
  destruct (has_metrics e) eqn:Hm; [|discriminate].
  rewrite Ef in Er, Se. cbn [negb orb] in Se.
  unfold read_overall in Er. cbn [py_get res_bind] in Er. rewrite Eo in Er.
  destruct ov as [| | | | | |ovi]; try discriminate.
  cbn [py_get res_bind] in Er.
  destruct (split_on os_sep (rel_dir e)) as [|model [|setting rest]] eqn:Sp;
    try discriminate.
  cbn [List.length Nat.ltb Nat.leb orb] in Se.
  injection Er as <- <-.
  destruct (file_rows_spec e model setting items) with (rows := @nil horizon_row)
    as (new & En & F).
  { intros kv Hin R. rewrite forallb_forall in Se.
    specialize (Se kv Hin). unfold entry_safe in Se. rewrite R in Se.
    exact Se. }
  assert (I : In ("overall", PDict ovi) (filter recognised items)).
  { apply filter_In. split; [|reflexivity].
    clear - Eo. induction items as [|[k v] items IH]; [discriminate|].
    cbn [dict_get] in Eo. destruct (String.eqb_spec "overall" k) as [<-|N].
    - injection Eo as Ev. subst v. now left.
    - right. now apply IH. }
  destruct (Forall2_In_l _ _ _ _ F I) as (row & Hrow & h & Hk & Hr & _).
  cbn [fst snd] in Hk, Hr. injection Hk as <-.
  exists row. split.
  - apply in_flat_map. exists e. split; trivial.
    unfold rows_or_nil, entry_horizon_rows. rewrite Hm, Sp, Ef.
    cbn [py_items res_bind]. now rewrite En.
  - unfold horizon_entry in Hr. cbn [py_get res_bind] in Hr.
    injection Hr as <-. cbn. repeat split.
Qed.

Lemma horizon_entry_fields (e : walk_entry) (model setting : string)
    (h : Z) (v : pyval) (row : horizon_row) :
  horizon_entry e model setting h v = Ok row ->
  h_model row = model /\ h_dataset row = dataset_of setting
  /\ h_setting row = setting /\ h_horizon row = h
  /\ h_time row = time_str e
  /\ h_path row = path_join (dirpath e) metrics_name
  /\ h_timestamp row = mtime e.
Proof.
  unfold horizon_entry.
  destruct (py_get v "MAE" PNone); cbn [res_bind]; [|discriminate].
  destruct (py_get v "MAPE" PNone); cbn [res_bind]; [|discriminate].
  destruct (py_get v "RMSE" PNone); cbn [res_bind]; [|discriminate].
  intros [= <-]. repeat split.
Qed.

Lemma file_rows_members (e : walk_entry) (model setting : string)
    (items : list (string * pyval)) :
  forall rows out,
    file_rows e model setting items rows = Ok out ->
    forall row, In row out ->
      In row rows
      \/ exists kv h,
           In kv items /\ horizon_of_key (fst kv) = Some h
           /\ horizon_entry e model setting h (snd kv) = Ok row.
Proof.
  unfold file_rows.
  induction items as [|kv items IH]; intros rows out H row Hin.
  - simpl in H. injection H as <-. now left.
  - cbn [res_fold] in H.
    destruct (horizon_of_key (fst kv)) as [h|] eqn:Hk.
    + destruct (horizon_entry e model setting h (snd kv)) as [r|ex] eqn:Er;
        cbn [res_bind] in H; [|discriminate].
      destruct (IH _ _ H row Hin) as [I|(kv' & h' & I & K & E)].
      * apply in_app_or in I as [I|[<-|[]]]; [now left|].
        right. exists kv, h. repeat split; trivial. now left.
      * right. exists kv', h'. repeat split; trivial. now right.
    + destruct (IH _ _ H row Hin) as [I|(kv' & h' & I & K & E)];
        [now left|].
      right. exists kv', h'. repeat split; trivial. now right.
Qed.

(** X15: no horizon row is an orphan: when the horizon extraction
    succeeds, every row it returns comes from a directory of the tree
    that also gave a run to the repository, and it carries the model,
    the dataset, the setting, the path, the time and the timestamp of
    that run. *)
Theorem horizon_rows_belong_to_runs :
  forall (walk : list walk_entry) (err : list string)
         (rows : list horizon_row) (row : horizon_row),
    collect_horizon_rows walk = (err, Ok rows) ->
    In row rows ->
    exists e key r runs,
      In e walk /\ entry_run e = Some (key, r)
      /\ dict_get key_eqb (fst (collect_all_runs walk)) key = Some runs
      /\ In r runs
      /\ h_model row = fst key /\ h_dataset row = snd key
      /\ h_setting row = r_setting r /\ h_path row = r_path r
      /\ h_time row = r_time r /\ h_timestamp row = r_timestamp r.
Proof.
  intros walk err rows row C Hrow.
  destruct (horizon_outcome walk) as (A & _ & S).
  assert (Safe : forall x, In x walk -> horizon_safe x = true).
  { apply S. exists rows. now rewrite C. }
  rewrite (A Safe) in C. injection C as _ <-.
  apply in_flat_map in Hrow as (e & He & Hrow).
  pose proof (Safe e He) as Se.
  unfold rows_or_nil, entry_horizon_rows in Hrow.
  unfold horizon_safe in Se.
  destruct (has_metrics e) eqn:Hm; [|destruct Hrow].
  cbn [negb orb] in Se.
  destruct (split_on os_sep (rel_dir e)) as [|model [|setting rest]] eqn:Sp;
    try (destruct Hrow).
  cbn [List.length Nat.ltb Nat.leb orb] in Se.
  destruct (metrics_file e) as [ex|data] eqn:Ef; [destruct Hrow|].
  destruct data as [| | | | | |items]; try discriminate.
  cbn [py_items res_bind] in Hrow.
  destruct (file_rows e model setting items []) as [new|ex] eqn:En;
    [|destruct Hrow].
  destruct (file_rows_members _ _ _ _ _ _ En row Hrow)
    as [[]|(kv & h & Hkv & Hk & Er)].
  destruct (horizon_entry_fields _ _ _ _ _ _ Er)
    as (F1 & F2 & F3 & _ & F5 & F6 & F7).
  assert (R : exists t, read_overall (Parsed (PDict items)) = Ok t).
  { apply read_overall_shape. unfold overall_shape.
    destruct (dict_get String.eqb items "overall") as [v|] eqn:Eo; trivial.
    assert (I : In ("overall", v) items).
    { clear - Eo. induction items as [|[k x] items IH]; [discriminate|].
      cbn [dict_get] in Eo.
      destruct (String.eqb_spec "overall" k) as [<-|N].
      - injection Eo as Ev. subst x. now left.
      - right. now apply IH. }
    rewrite forallb_forall in Se. specialize (Se _ I).
    unfold entry_safe, recognised in Se. cbn [fst snd] in Se.
    change (horizon_of_key "overall") with (Some 0%Z) in Se.
    cbn [negb orb] in Se. now destruct v. }
  destruct R as ([[mae mape] rmse] & R).
  pose (r := {| r_MAE := mae; r_RMSE := rmse; r_MAPE := mape;
                r_path := path_join (dirpath e) metrics_name;
                r_setting := setting; r_time := time_str e;
                r_timestamp := mtime e |}).
  assert (Er' : entry_run e = Some ((model, dataset_of setting), r)).
  { unfold entry_run. now rewrite Hm, Ef, R, Sp. }
  destruct (scan_run_member walk e _ r He Er') as (runs & I1 & I2).
  exists e, (model, dataset_of setting), r, runs.
  split; [exact He|]. split; [exact Er'|].
  split.
  { apply (dict_get_NoDup_In key_eqb key_eqb_eq); trivial.
    apply collect_all_runs_wf. }
  split; [exact I2|]. cbn [fst snd r_setting r_path r_time r_timestamp r].
  repeat split; assumption.
Qed.

(* ===================================================================== *)
(** * The tables sent to [wandb] *)
(* ===================================================================== *)

Lemma key_ltb_iff (a b : run_key) :
  key_ltb a b = true <->
  String.ltb (fst a) (fst b) = true
  \/ (fst a = fst b /\ String.ltb (snd a) (snd b) = true).
Proof.
  unfold key_ltb. rewrite orb_true_iff, andb_true_iff, String.eqb_eq.
  reflexivity.
Qed.

Lemma key_leb_iff (a b : run_key) :
  key_leb a b = true <-> key_ltb a b = true \/ a = b.
Proof.
  unfold key_leb. rewrite orb_true_iff, key_eqb_eq. reflexivity.
Qed.

Lemma key_ltb_trans (a b c : run_key) :
  key_ltb a b = true -> key_ltb b c = true -> key_ltb a c = true.
Proof.
  rewrite !key_ltb_iff. intros [H1|[E1 H1]] [H2|[E2 H2]].
  - left. eapply str_ltb_trans; eauto.
  - left. now rewrite <- E2.
  - left. now rewrite E1.
  - right. split; [congruence|]. eapply str_ltb_trans; eauto.
Qed.

Lemma key_leb_total (a b : run_key) :
  key_ltb a b = false -> key_leb b a = true.
Proof.
  intros H. apply key_leb_iff.
  destruct (key_ltb b a) eqn:E; [now left|]. right.
  unfold key_ltb in *.
  apply orb_false_iff in H as [H1 H2]. apply orb_false_iff in E as [E1 E2].
  assert (F : fst a = fst b) by now apply str_ltb_total.
  rewrite F, String.eqb_refl in *. simpl in H2, E2.
  destruct a, b. simpl in *. subst. f_equal. now apply str_ltb_total.
Qed.

Lemma key_leb_trans (a b c : run_key) :
  key_leb a b = true -> key_leb b c = true -> key_leb a c = true.
Proof.
  rewrite !key_leb_iff. intros [H1| ->] [H2| ->]; auto.
  left. eapply key_ltb_trans; eauto.
Qed.

Lemma sorted_items_sorted {V} (d : dict run_key V) :
  StronglySorted (fun a b => key_leb (fst a) (fst b) = true)
    (sorted_items d).
Proof.
  unfold sorted_items.
  apply (py_sorted_sorted key_ltb fst key_leb (fun _ => True)).
  - intros a b _ _. apply key_leb_total.
  - intros a b H. apply key_leb_iff. now left.
  - apply key_leb_trans.
  - apply key_ltb_trans.
  - intros a b c H1 H2. apply key_leb_iff in H2 as [H2| <-]; trivial.
    eapply key_ltb_trans; eauto.
  - trivial.
Qed.

Lemma res_map_Forall2 {A B} (f : A -> res B) (l : list A) :
  forall ys, res_map f l = Ok ys -> Forall2 (fun x y => f x = Ok y) l ys.
Proof.
  induction l as [|x l IH]; intros ys H; simpl in H.
  - injection H as <-. constructor.
  - destruct (f x) as [y|] eqn:E; simpl in H; [|discriminate].
    destruct (res_map f l) as [ys'|]; simpl in H; [|discriminate].
    injection H as <-. constructor; auto.
Qed.

Section Tables.
Variable float_of_str : string -> option float.

Lemma run_row_ok (model dataset : string) (info : run) :
  (forall v, In v (run_metrics info) -> loggable float_of_str v) ->
  exists mae rmse mape,
    WandbVisualize.run_row float_of_str model dataset info
    = Ok [WStr model; WStr dataset; mae; rmse; mape;
          WStr (r_setting info); WStr (r_time info); WStr (r_path info)].
Proof.
  intros H. unfold WandbVisualize.run_row.
  destruct (H (r_MAE info)) as (a & ->); [simpl; auto|].
  destruct (H (r_RMSE info)) as (b & ->); [simpl; auto|].
  destruct (H (r_MAPE info)) as (c & ->); [simpl; auto|].
  simpl. now exists a, b, c.
Qed.

Lemma run_row_bad (model dataset : string) (info : run) :
  (exists v, In v (run_metrics info) /\ ~ loggable float_of_str v) ->
  exists ex, WandbVisualize.run_row float_of_str model dataset info
             = Raise ex.
Proof.
  intros (v & Hv & N). unfold WandbVisualize.run_row.
  destruct (WandbVisualize.float_or_none float_of_str (r_MAE info))
    as [a|ex] eqn:Ea; [|now exists ex].
  destruct (WandbVisualize.float_or_none float_of_str (r_RMSE info))
    as [b|ex] eqn:Eb; [|now exists ex].
  destruct (WandbVisualize.float_or_none float_of_str (r_MAPE info))
    as [c|ex] eqn:Ec; [|now exists ex].
  exfalso. apply N. unfold loggable.
  destruct Hv as [<-|[<-|[<-|[]]]]; eauto.
Qed.

Lemma best_table_ok (best : dict run_key run) :
  (forall key info, In (key, info) best ->
                    forall v, In v (run_metrics info) ->
                              loggable float_of_str v) ->
  exists rows,
    WandbVisualize.best_table float_of_str best = Ok rows
    /\ Forall2
         (fun (item : run_key * run) row =>
            firstn 2 row = [WStr (fst (fst item)); WStr (snd (fst item))]
            /\ skipn 5 row
               = [WStr (r_setting (snd item)); WStr (r_time (snd item));
                  WStr (r_path (snd item))])
         (sorted_items best) rows.
Proof.
  intros H. unfold WandbVisualize.best_table.
  assert (G : forall item, In item (sorted_items best) ->
                forall v, In v (run_metrics (snd item)) ->
                          loggable float_of_str v).
  { intros [key info] Hin. apply (H key).
    unfold sorted_items in Hin. now apply py_sorted_In in Hin. }
  clear H. revert G. generalize (sorted_items best).
  induction l as [|[[m d] info] l IH]; intros G.
  - exists []. split; [reflexivity | constructor].
  - destruct (run_row_ok m d info) as (a & b & c & E);
      [apply (G ((m, d), info)); now left|].
    destruct IH as (rows & Er & F);
      [intros item Hi; apply (G item); now right|].
    cbn [res_map]. rewrite E, Er. cbn [res_bind].
    eexists. split; [reflexivity|]. constructor; [|exact F].
    split; reflexivity.
Qed.

Lemma group_ok (model dataset : string) (runs : list run) :
  (forall r, In r runs ->
             forall v, In v (run_metrics r) -> loggable float_of_str v) ->
  exists rows,
    res_map (WandbVisualize.run_row float_of_str model dataset) runs
    = Ok rows
    /\ List.length rows = List.length runs.
Proof.
  intros H.
  destruct (res_map_ok (WandbVisualize.run_row float_of_str model dataset)
              runs) as (rows & E).
  - intros r Hr. destruct (run_row_ok model dataset r (H r Hr))
      as (a & b & c & ->). now eexists.
  - exists rows. split; trivial. now apply res_map_length in E.
Qed.

Lemma all_table_ok (all_runs : dict run_key (list run)) :
  (forall key runs r, In (key, runs) all_runs -> In r runs ->
                      forall v, In v (run_metrics r) ->
                                loggable float_of_str v) ->
  exists rows,
    WandbVisualize.all_table float_of_str all_runs = Ok rows
    /\ List.length rows = List.length (all_runs_of all_runs).
Proof.
  intros H. unfold WandbVisualize.all_table.
  assert (P : Permutation (sorted_items all_runs) all_runs)
    by apply py_sorted_perm.
  assert (G : forall key runs r,
             In (key, runs) (sorted_items all_runs) -> In r runs ->
             forall v, In v (run_metrics r) -> loggable float_of_str v).
  { intros key runs r Hin. apply (H key runs).
    now apply (Permutation_in _ P). }
  assert (L : List.length (all_runs_of all_runs)
              = List.length (all_runs_of (sorted_items all_runs))).
  { unfold all_runs_of. apply Permutation_length.
    apply Permutation_sym in P.
    clear - P. induction P; simpl; trivial.
    - now apply Permutation_app_head.
    - rewrite !app_assoc. apply Permutation_app_tail, Permutation_app_comm.
    - eapply Permutation_trans; eauto. }
  rewrite L. clear L P H. revert G. generalize (sorted_items all_runs).
  induction l as [|[[m d] runs] l IH]; intros G.
  - exists []. split; reflexivity.
  - destruct (group_ok m d runs) as (g & Eg & Lg);
      [intros r Hr; apply (G (m, d) runs); [now left | exact Hr]|].
    destruct IH as (rows & Er & Lr);
      [intros key rs r Hin; apply (G key rs); now right|].
    cbn [res_map]. rewrite Eg. cbn [res_bind].
    destruct (res_map _ l) as [groups|ex]; [|discriminate].
    cbn [res_bind] in *. injection Er as <-.
    eexists. split; [reflexivity|].
    unfold all_runs_of in *. cbn [map List.concat snd].
    rewrite !length_app, Lg, Lr. reflexivity.
Qed.

Lemma horizon_table_ok (rows : list horizon_row) :
  (forall row, In row rows ->
               forall v, In v (row_metrics row) -> loggable float_of_str v) ->
  exists out,
    WandbVisualize.horizon_table float_of_str rows = Ok out
    /\ List.length out = List.length rows.
Proof.
  intros H. unfold WandbVisualize.horizon_table.
  destruct (res_map_ok (WandbVisualize.horizon_table_row float_of_str) rows)
    as (out & E).
  - intros row Hr. unfold WandbVisualize.horizon_table_row.
    destruct (H row Hr (h_MAE row)) as (a & ->); [simpl; auto|].
    destruct (H row Hr (h_MAPE row)) as (b & ->); [simpl; auto|].
    destruct (H row Hr (h_RMSE row)) as (c & ->); [simpl; auto|].
    simpl. now eexists.
  - exists out. split; trivial. now apply res_map_length in E.
Qed.
End Tables.

Lemma res_map_raise {A B} (f : A -> res B) (l : list A) :
  (exists x, In x l /\ exists ex, f x = Raise ex) ->
  exists ex, res_map f l = Raise ex.
Proof.
  induction l as [|y l IH]; intros (x & Hin & ex & E); [destruct Hin|].
  cbn [res_map]. destruct (f y) as [b|ey] eqn:Ey; [|now exists ey].
  cbn [res_bind]. destruct Hin as [->|Hin]; [congruence|].
  destruct IH as (ex' & ->); [now exists x; eauto|]. now exists ex'.
Qed.

Section WandbMain.
Variable float_of_str : string -> option float.
Variables root_dir project stamp : string.
Variable run_name : option string.

Lemma wandb_main_cases (walk : list walk_entry) :
  let o := WandbVisualize.main float_of_str root_dir project run_name
             stamp walk in
  let init := WandbInit project (run_name_or run_name stamp) root_dir in
  exists best,
    choose_best (fst (collect_all_runs walk)) = Ok best
    /\ WandbVisualize.stderr o
       = snd (collect_all_runs walk) ++ fst (collect_horizon_rows walk)
    /\ match snd (collect_horizon_rows walk) with
       | Raise ex =>
           WandbVisualize.calls o = []
           /\ WandbVisualize.status o = Raise ex
           /\ WandbVisualize.stdout o = []
       | Ok horizon_rows =>
           match WandbVisualize.best_table float_of_str best with
           | Raise ex =>
               WandbVisualize.calls o = [init]
               /\ WandbVisualize.status o = Raise ex
               /\ WandbVisualize.stdout o = []
           | Ok rows1 =>
               match WandbVisualize.all_table float_of_str
                       (fst (collect_all_runs walk)) with
               | Raise ex =>
                   WandbVisualize.calls o
                   = [init; WandbLog "summary/best_runs" run_columns rows1]
                   /\ WandbVisualize.status o = Raise ex
                   /\ WandbVisualize.stdout o = []
               | Ok rows2 =>
                   match WandbVisualize.horizon_table float_of_str
                           horizon_rows with
                   | Raise ex =>
                       WandbVisualize.calls o
                       = [init;
                          WandbLog "summary/best_runs" run_columns rows1;
                          WandbLog "detail/all_runs" run_columns rows2]
                       /\ WandbVisualize.status o = Raise ex
                       /\ WandbVisualize.stdout o = []
                   | Ok rows3 =>
                       WandbVisualize.calls o
                       = full_calls project (run_name_or run_name stamp)
                           root_dir rows1 rows2 rows3
                       /\ WandbVisualize.status o = Ok tt
                       /\ WandbVisualize.stdout o = [done_message]
                   end
               end
           end
       end.
Proof.
  cbv zeta. destruct (scan_best_runs walk) as (best & Eb & _).
  exists best. split; [exact Eb|].
  unfold WandbVisualize.main.
  destruct (collect_all_runs walk) as [all_runs err1]. cbn [fst snd] in *.
  rewrite Eb.
  destruct (collect_horizon_rows walk) as [err2 [horizon_rows|ex]];
    cbn [fst snd]; [|repeat split].
  destruct (WandbVisualize.best_table float_of_str best) as [rows1|ex];
    [|repeat split].
  destruct (WandbVisualize.all_table float_of_str all_runs) as [rows2|ex];
    [|repeat split].
  destruct (WandbVisualize.horizon_table float_of_str horizon_rows)
    as [rows3|ex]; repeat split.
Qed.

Lemma best_loggable (walk : list walk_entry) (best : dict run_key run) :
  choose_best (fst (collect_all_runs walk)) = Ok best ->
  (forall e key r, In e walk -> entry_run e = Some (key, r) ->
                   forall v, In v (run_metrics r) ->
                             loggable float_of_str v) ->
  forall key info, In (key, info) best ->
                   forall v, In v (run_metrics info) ->
                             loggable float_of_str v.
Proof.
  intros Eb H key info Hin.
  destruct (scan_best_runs walk) as (best' & Eb' & K & S).
  rewrite Eb in Eb'. injection Eb' as <-.
  assert (ND : NoDup (map fst best)).
  { rewrite K. apply collect_all_runs_wf. }
  apply (dict_get_NoDup_In key_eqb key_eqb_eq _ _ _ ND) in Hin.
  destruct (S key info Hin) as (_ & e & He & Er).
  exact (H e key info He Er).
Qed.
End WandbMain.

(** X16: when the horizon extraction succeeds and every metric of every
    run and of every horizon row is [None] or a value [float] converts,
    the script starts one [wandb] run, logs the three tables in the order
    best runs, all runs, horizon metrics, finishes the run and prints its
    closing message.  The table of the best runs has one row per key, in
    ascending order of the pair (model, dataset); the table of all runs
    has one row per run; the horizon table has one row per horizon row.
    The diagnostic stream holds the warnings of the first scan followed
    by the warnings of the horizon extraction. *)
Theorem wandb_main_logs_three_tables :
  forall (float_of_str : string -> option float)
         (root_dir project stamp : string) (run_name : option string)
         (walk : list walk_entry),
    (forall x, In x walk -> horizon_safe x = true) ->
    (forall e key r, In e walk -> entry_run e = Some (key, r) ->
                     forall v, In v (run_metrics r) ->
                               loggable float_of_str v) ->
    (forall row, In row (flat_map rows_or_nil walk) ->
                 forall v, In v (row_metrics row) ->
                           loggable float_of_str v) ->
    exists rows1 rows2 rows3 items,
      WandbVisualize.main float_of_str root_dir project run_name stamp walk
      = {| WandbVisualize.stdout := [done_message];
           WandbVisualize.stderr :=
             flat_map entry_warning walk
             ++ flat_map entry_horizon_warning walk;
           WandbVisualize.calls :=
             full_calls project (run_name_or run_name stamp) root_dir
               rows1 rows2 rows3;
           WandbVisualize.status := Ok tt |}
      /\ Permutation (map fst items) (first_seen (keys_of_walk walk))
      /\ StronglySorted (fun a b => key_leb (fst a) (fst b) = true) items
      /\ Forall2
           (fun (item : run_key * run) row =>
              firstn 2 row = [WStr (fst (fst item)); WStr (snd (fst item))]
              /\ skipn 5 row
                 = [WStr (r_setting (snd item)); WStr (r_time (snd item));
                    WStr (r_path (snd item))])
           items rows1
      /\ List.length rows2 = List.length (filter eligible walk)
      /\ List.length rows3 = List.length (flat_map rows_or_nil walk).
Proof.
  intros fs root project stamp rn walk Safe Hr Hh.
  destruct (wandb_main_cases fs root project stamp rn walk)
    as (best & Eb & Eerr & C).
  pose proof (proj1 (horizon_outcome walk) Safe) as Eh.
  rewrite Eh in C, Eerr. cbn [fst snd] in C, Eerr.
  destruct (best_table_ok fs best (best_loggable fs walk best Eb Hr))
    as (rows1 & E1 & F1).
  destruct (all_table_ok fs (fst (collect_all_runs walk)))
    as (rows2 & E2 & L2).
  { intros key runs r I1 I2.
    destruct (scan_run_sources walk key runs r I1 I2) as (e & He & Er).
    exact (Hr e key r He Er). }
  destruct (horizon_table_ok fs (flat_map rows_or_nil walk) Hh)
    as (rows3 & E3 & L3).
  rewrite E1, E2, E3 in C. destruct C as (Ec & Es & Eo).
  exists rows1, rows2, rows3, (sorted_items best).
  split; [|split; [|split; [|split; [|split]]]].
  - destruct (WandbVisualize.main fs root project rn stamp walk)
      as [o e c s]. cbn in *. subst.
    f_equal. f_equal.
    exact (proj1 (collect_from_accounts walk [] [])).
  - destruct (scan_best_runs walk) as (best' & Eb' & K & _).
    rewrite Eb in Eb'. injection Eb' as <-.
    assert (Ek : map fst (fst (collect_all_runs walk))
                 = first_seen (keys_of_walk walk)).
    { assert (E : map fst (fst (collect_all_runs walk))
                  = [] ++ filter (fun k => negb (existsb (key_eqb k) []))
                            (first_seen (keys_of_walk walk)))
        by exact (collect_from_keys walk [] []).
      rewrite E. cbn [app existsb negb].
      clear. induction (first_seen (keys_of_walk walk)) as [|k l IH];
        simpl; congruence. }
    rewrite <- Ek, <- K. apply Permutation_map.
    unfold sorted_items. apply py_sorted_perm.
  - apply sorted_items_sorted.
  - exact F1.
  - rewrite L2. exact (proj2 (collect_from_accounts walk [] [])).
  - exact L3.
Qed.

(** X17: the script never finishes a [wandb] run after an error and never
    starts one before the three scans are done.  The calls it makes are
    always a beginning of: start the run, log the best runs, log all
    runs, log the horizon metrics, finish.  The run is finished exactly
    when the script ends normally, and only then is the closing message
    printed; when the horizon extraction raises, no call is made at
    all. *)
Theorem wandb_main_calls_in_order :
  forall (float_of_str : string -> option float)
         (root_dir project stamp : string) (run_name : option string)
         (walk : list walk_entry),
    let o := WandbVisualize.main float_of_str root_dir project run_name
               stamp walk in
    (exists rows1 rows2 rows3 n,
        WandbVisualize.calls o
        = firstn n (full_calls project (run_name_or run_name stamp)
                      root_dir rows1 rows2 rows3)
        /\ (n = 5 <-> WandbVisualize.status o = Ok tt))
    /\ (In WandbFinish (WandbVisualize.calls o) <->
        WandbVisualize.status o = Ok tt)
    /\ (WandbVisualize.stdout o = [done_message] <->
        WandbVisualize.status o = Ok tt)
    /\ (forall ex, WandbVisualize.status o = Raise ex ->
          WandbVisualize.stdout o = [])
    /\ (forall ex, snd (collect_horizon_rows walk) = Raise ex ->
          WandbVisualize.calls o = []
          /\ WandbVisualize.status o = Raise ex)
    /\ (forall rows, snd (collect_horizon_rows walk) = Ok rows ->
          hd_error (WandbVisualize.calls o)
          = Some (WandbInit project (run_name_or run_name stamp)
                    root_dir)).
Proof.
  intros fs root project stamp rn walk o.
  destruct (wandb_main_cases fs root project stamp rn walk)
    as (best & _ & _ & C). fold o in C.
  destruct (snd (collect_horizon_rows walk)) as [hrows|ex].
  2:{ destruct C as (-> & -> & ->).
      split; [exists [], [], [], 0; split; [reflexivity|];
              split; [discriminate | discriminate]|].
      split; [split; [intros [] | discriminate]|].
      split; [split; discriminate|].
      split; [reflexivity|].
      split; [intros ex' [= <-]; now split | discriminate]. }
  destruct (WandbVisualize.best_table fs best) as [rows1|ex].
  2:{ destruct C as (-> & -> & ->).
      split; [exists [], [], [], 1; split; [reflexivity|];
              split; [discriminate | discriminate]|].
      split; [split; [intros [H|[]]; discriminate | discriminate]|].
      split; [split; discriminate|].
      split; [reflexivity|].
      split; [discriminate | reflexivity]. }
  destruct (WandbVisualize.all_table fs (fst (collect_all_runs walk)))
    as [rows2|ex].
  2:{ destruct C as (-> & -> & ->).
      split; [exists rows1, [], [], 2; split; [reflexivity|];
              split; [discriminate | discriminate]|].
      split; [split; [intros [H|[H|[]]]; discriminate | discriminate]|].
      split; [split; discriminate|].
      split; [reflexivity|].
      split; [discriminate | reflexivity]. }
  destruct (WandbVisualize.horizon_table fs hrows) as [rows3|ex].
  2:{ destruct C as (-> & -> & ->).
      split; [exists rows1, rows2, [], 3; split; [reflexivity|];
              split; [discriminate | discriminate]|].
      split; [split; [intros [H|[H|[H|[]]]]; discriminate | discriminate]|].
      split; [split; discriminate|].
      split; [reflexivity|].
      split; [discriminate | reflexivity]. }
  destruct C as (-> & -> & ->).
  split; [exists rows1, rows2, rows3, 5; split; [reflexivity|];
          split; reflexivity|].
  split; [split; [reflexivity | intros _; simpl; auto 6]|].
  split; [split; reflexivity|].
  split; [discriminate|]. split; [discriminate | reflexivity].
Qed.

(** X18: a metric that [float] does not convert (a string that is not a
    numeral, a list, an object) stops the script after the [wandb] run
    was started: when the horizon extraction succeeds and some run of the
    tree has such a metric, the script ends on an exception with the run
    open, the table of all runs never logged and no closing message. *)
Theorem wandb_main_stops_on_unconvertible_metric :
  forall (float_of_str : string -> option float)
         (root_dir project stamp : string) (run_name : option string)
         (walk : list walk_entry) (e : walk_entry) (key : run_key)
         (r : run) (v : pyval),
    (forall x, In x walk -> horizon_safe x = true) ->
    In e walk -> entry_run e = Some (key, r) ->
    In v (run_metrics r) -> ~ loggable float_of_str v ->
    exists ex,
      WandbVisualize.status
        (WandbVisualize.main float_of_str root_dir project run_name stamp
           walk) = Raise ex
      /\ WandbVisualize.stdout
           (WandbVisualize.main float_of_str root_dir project run_name stamp
              walk) = []
      /\ (WandbVisualize.calls
            (WandbVisualize.main float_of_str root_dir project run_name
               stamp walk)
          = [WandbInit project (run_name_or run_name stamp) root_dir]
          \/ exists rows1,
               WandbVisualize.calls
                 (WandbVisualize.main float_of_str root_dir project run_name
                    stamp walk)
               = [WandbInit project (run_name_or run_name stamp) root_dir;
                  WandbLog "summary/best_runs" run_columns rows1]).
Proof.
  intros fs root project stamp rn walk e key r v Safe He Er Hv N.
  destruct (wandb_main_cases fs root project stamp rn walk)
    as (best & _ & _ & C).
  rewrite (proj1 (horizon_outcome walk) Safe) in C. cbn [snd] in C.
  assert (A : exists ex,
             WandbVisualize.all_table fs (fst (collect_all_runs walk))
             = Raise ex).
  { destruct (scan_run_member walk e key r He Er) as (runs & I1 & I2).
    unfold WandbVisualize.all_table.
    destruct (res_map_raise
                (fun item : run_key * list run =>
                   let '((model, dataset), runs) := item in
                   res_map (WandbVisualize.run_row fs model dataset) runs)
                (sorted_items (fst (collect_all_runs walk))))
      as (ex & ->); [|now exists ex].
    exists (key, runs). split.
    - unfold sorted_items. now apply py_sorted_In.
    - destruct key as [m d]. apply res_map_raise. exists r.
      split; trivial. apply run_row_bad. now exists v. }
  destruct A as (ex2 & E2).
  destruct (WandbVisualize.best_table fs best) as [rows1|ex1].
  - rewrite E2 in C. destruct C as (Ec & Es & Eo).
    exists ex2. split; [exact Es|]. split; [exact Eo|].
    right. now exists rows1.
  - destruct C as (Ec & Es & Eo).
    exists ex1. split; [exact Es|]. split; [exact Eo|]. now left.
Qed.

Lemma in_split_twice {A} (x : A) (l1 l2 : list A) :
  In x l1 -> In x l2 ->
  exists a b c, l1 ++ l2 = a ++ x :: b ++ x :: c.
Proof.
  intros H1 H2.
  apply in_split in H1 as (a & b1 & ->).
  apply in_split in H2 as (b2 & c & ->).
  exists a, (b1 ++ b2), c.
  rewrite <- app_assoc. cbn [app]. now rewrite <- app_assoc.
Qed.

(** X19: the tree is read twice, once by each scan, and each scan warns on
    its own: when the horizon extraction succeeds, the warning of every
    unreadable file that lies two segments or more below the root
    appears twice on the diagnostic stream. *)
Theorem wandb_main_warns_twice :
  forall (float_of_str : string -> option float)
         (root_dir project stamp : string) (run_name : option string)
         (walk : list walk_entry) (e : walk_entry) (ex : exn),
    (forall x, In x walk -> horizon_safe x = true) ->
    In e walk -> has_metrics e = true ->
    metrics_file e = Unreadable ex ->
    2 <= List.length (split_on os_sep (rel_dir e)) ->
    exists a b c,
      WandbVisualize.stderr
        (WandbVisualize.main float_of_str root_dir project run_name stamp
           walk)
      = a ++ warn_line (path_join (dirpath e) metrics_name) ex
          :: b ++ warn_line (path_join (dirpath e) metrics_name) ex :: c.
Proof.
  intros fs root project stamp rn walk e ex Safe He Hm Ef L.
  destruct (wandb_main_cases fs root project stamp rn walk)
    as (best & _ & -> & _).
  rewrite (proj1 (horizon_outcome walk) Safe). cbn [fst].
  assert (E1 : snd (collect_all_runs walk) = flat_map entry_warning walk)
    by exact (proj1 (collect_from_accounts walk [] [])).
  rewrite E1. apply in_split_twice; apply in_flat_map; exists e;
    (split; [exact He|]).
  - unfold entry_warning. rewrite Hm, Ef. now left.
  - unfold entry_horizon_warning. rewrite Hm, Ef.
    destruct (split_on os_sep (rel_dir e)) as [|m [|s rest]];
      simpl in L; try lia. now left.
Qed.

(* ===================================================================== *)
(** * Metrics that are [int]s *)
(* ===================================================================== *)

Lemma iter_xO_pow (p q : positive) :
  Zpos (Pos.iter xO p q) = (Zpos p * 2 ^ Zpos q)%Z.
Proof.
  induction q as [|q IH] using Pos.peano_ind.
  - simpl. lia.
  - rewrite Pos.iter_succ, Pos2Z.inj_succ, Z.pow_succ_r by lia.
    change (Zpos (Pos.iter xO p q)~0) with (2 * Zpos (Pos.iter xO p q))%Z.
    rewrite IH. lia.
Qed.

(** The float an [int] below [2^53] in magnitude converts to holds it
    exactly: its mantissa is the magnitude shifted left by the opposite
    of its exponent. *)
Lemma float_of_int_exact (s : bool) (p : positive) :
  (Zpos p < 2 ^ 53)%Z ->
  exists mz ez,
    float_of_int (if s then Zneg p else Zpos p)
    = Ok (S754_finite s mz ez)
    /\ ((ez = 0%Z /\ mz = p)
        \/ exists q, ez = Zneg q /\ mz = Pos.iter xO p q).
Proof.
  intros H.
  assert (D : (Zpos (digits2_pos p) <= 53)%Z)
    by (apply digits2_bound; [lia | exact H]).
  pose proof (Pos2Z.is_pos (digits2_pos p)) as P.
  unfold float_of_int, binary_normalize.
  assert (E : binary_round prec emax s p 0
              = match (Zpos (digits2_pos p) - 53)%Z with
                | Zneg q =>
                    binary_round_aux prec emax s
                      (Zpos (Pos.iter xO p q)) (Zneg q) loc_Exact
                | _ => binary_round_aux prec emax s (Zpos p) 0 loc_Exact
                end).
  { unfold binary_round, shl_align, fexp, emin, prec, emax.
    replace (Z.max (Zpos (digits2_pos p) + 0 - 53) (3 - 1024 - 53) - 0)%Z
      with (Zpos (digits2_pos p) - 53)%Z by lia.
    replace (Z.max (Zpos (digits2_pos p) + 0 - 53) (3 - 1024 - 53))%Z
      with (Zpos (digits2_pos p) - 53)%Z by lia.
    destruct (Zpos (digits2_pos p) - 53)%Z eqn:Ed; try reflexivity. }
  assert (G : overflow_check (binary_round prec emax s p 0)
              = Ok (binary_round prec emax s p 0)
              /\ exists mz ez,
                   binary_round prec emax s p 0 = S754_finite s mz ez
                   /\ ((ez = 0%Z /\ mz = p)
                       \/ exists q, ez = Zneg q /\ mz = Pos.iter xO p q)).
  { rewrite E.
    destruct (Zpos (digits2_pos p) - 53)%Z as [|q|q] eqn:Ed; try lia.
    - rewrite round_aux_exact by lia. split; [reflexivity|].
      exists p, 0%Z. split; [reflexivity|]. left. split; reflexivity.
    - rewrite round_aux_exact;
        [|rewrite digits2_iter_xO, Pos2Z.inj_add; lia | lia].
      split; [reflexivity|].
      exists (Pos.iter xO p q), (Zneg q). split; [reflexivity|].
      right. exists q. split; reflexivity. }
  destruct G as (Go & mz & ez & Gf & Gc).
  exists mz, ez. split; [|exact Gc].
  destruct s; cbn [binary_normalize]; rewrite Go, Gf; reflexivity.
Qed.

Lemma scaled_round_exact (k : nat) (p mz : positive) (ez : Z) :
  (ez = 0%Z /\ mz = p) \/ (exists q, ez = Zneg q /\ mz = Pos.iter xO p q) ->
  scaled_round k mz ez = (Zpos p * 10 ^ Z.of_nat k)%Z.
Proof.
  unfold scaled_round, Q_of_finite, round_half_even.
  intros [[-> ->]|(q & -> & ->)]; cbn [Qnum Qden].
  - rewrite Z.div_1_r, Z.mod_1_r. reflexivity.
  - rewrite iter_xO_pow, Pos2Z.inj_pow.
    change (Zpos 2) with 2%Z.
    assert (P2 : (0 < 2 ^ Zpos q)%Z) by (apply Z.pow_pos_nonneg; lia).
    replace (Zpos p * 2 ^ Zpos q * 10 ^ Z.of_nat k)%Z
      with (Zpos p * 10 ^ Z.of_nat k * 2 ^ Zpos q)%Z by lia.
    rewrite Z.div_mul, Z.mod_mul by lia.
    destruct (2 * 0 ?= 2 ^ Zpos q)%Z eqn:C; trivial.
    + apply Z.compare_eq in C. lia.
    + apply Z.compare_gt_iff in C. lia.
Qed.

Lemma str_repeat_snoc (c : ascii) (n : nat) :
  (str_repeat c n ++ String c EmptyString)%string = str_repeat c (S n).
Proof. induction n as [|n IH]; simpl; [reflexivity | now rewrite IH]. Qed.

Lemma frac_digits_zeros (k : nat) (n : Z) :
  frac_digits k (n * 10 ^ Z.of_nat k) = str_repeat "0"%char k.
Proof.
  revert n. induction k as [|k IH]; intros n; [reflexivity|].
  cbn [frac_digits].
  rewrite Nat2Z.inj_succ, Z.pow_succ_r by lia.
  replace (n * (10 * 10 ^ Z.of_nat k))%Z
    with (n * 10 ^ Z.of_nat k * 10)%Z by lia.
  rewrite Z.div_mul, Z.mod_mul, IH by lia.
  apply str_repeat_snoc.
Qed.

Lemma render_fixed_whole (k : nat) (n : N) :
  render_fixed (S k) (Z.of_N n * 10 ^ Z.of_nat (S k))
  = (str_of_N n ++ "." ++ str_repeat "0"%char (S k))%string.
Proof.
  unfold render_fixed.
  assert (P : (0 < 10 ^ Z.of_nat (S k))%Z) by (apply Z.pow_pos_nonneg; lia).
  rewrite Z.div_mul, N2Z.id, frac_digits_zeros by lia. reflexivity.
Qed.

(** X20: an [int] metric below [2^53] in magnitude is printed exactly: its
    decimal numeral, a point and as many zeros as the format asks for
    (5 is shown as [5.00] in the leaderboard and as [5.0000] in a detail
    table); the conversion to [float] in between loses nothing. *)
Theorem int_metric_is_shown_exactly :
  forall (k : nat) (z : Z),
    (Z.abs z < 2 ^ 53)%Z ->
    fmt_metric (S k) (PInt z)
    = Ok ((if (z <? 0)%Z then "-" else EmptyString)
          ++ str_of_N (Z.abs_N z) ++ "." ++ str_repeat "0"%char (S k))%string.
Proof.
  intros k z H. unfold fmt_metric. cbn [as_number fmt_num].
  destruct z as [|p|p].
  - change (float_of_int 0) with (Ok (S754_zero false)).
    cbn [res_bind fmt_float sign_text Z.ltb Z.compare Z.abs_N].
    rewrite <- (render_fixed_whole k 0). reflexivity.
  - destruct (float_of_int_exact false p H) as (mz & ez & -> & C).
    cbn [res_bind fmt_float sign_text Z.ltb Z.compare Z.abs_N].
    rewrite (scaled_round_exact (S k) p mz ez C).
    rewrite <- (render_fixed_whole k (Npos p)). reflexivity.
  - destruct (float_of_int_exact true p H) as (mz & ez & -> & C).
    cbn [res_bind fmt_float sign_text Z.ltb Z.compare Z.abs_N].
    rewrite (scaled_round_exact (S k) p mz ez C).
    rewrite <- (render_fixed_whole k (Npos p)). reflexivity.
Qed.

(* ===================================================================== *)
(** * The widths of the leaderboard *)
(* ===================================================================== *)

Lemma bump_exact (w : list nat) (i n : nat) :
  i < List.length w ->
  exists w',
    bump w i n = Ok w' /\ List.length w' = List.length w
    /\ nth i w' 0 = Nat.max (nth i w 0) n
    /\ forall j, j <> i -> nth j w' 0 = nth j w 0.
Proof.
  intros H. unfold bump. rewrite (list_get_ok w i 0 H). cbn [res_bind].
  destruct (list_set_ok 0 w i (Nat.max (nth i w 0) n) H)
    as (w' & E & L & N & O).
  exists w'. auto.
Qed.

Lemma bump_group_exact (d2i : dict string nat) (w : list nat) (d : string)
    (di a b c : nat) :
  dict_get String.eqb d2i d = Some di ->
  1 + 3 * di + 2 < List.length w ->
  exists w',
    bump_group d2i w d a b c = Ok w'
    /\ List.length w' = List.length w
    /\ forall col,
         nth col w' 0 = Nat.max (nth col w 0) (group_part col di a b c).
Proof.
  intros G L. unfold bump_group, dict_item. rewrite G. cbn [res_bind].
  destruct (bump_exact w (1 + 3 * di) a) as (w1 & -> & L1 & N1 & O1);
    [lia|]. cbn [res_bind].
  destruct (bump_exact w1 (1 + 3 * di + 1) b) as (w2 & -> & L2 & N2 & O2);
    [lia|]. cbn [res_bind].
  destruct (bump_exact w2 (1 + 3 * di + 2) c) as (w3 & -> & L3 & N3 & O3);
    [lia|].
  exists w3. split; [reflexivity|]. split; [lia|].
  intros col. unfold group_part.
  destruct (Nat.eqb_spec col (1 + 3 * di)) as [->|C1].
  - rewrite O3, O2, N1 by lia. reflexivity.
  - destruct (Nat.eqb_spec col (1 + 3 * di + 1)) as [->|C2].
    + rewrite O3, N2, O1 by lia. reflexivity.
    + destruct (Nat.eqb_spec col (1 + 3 * di + 2)) as [->|C3].
      * rewrite N3, O2, O1 by lia. reflexivity.
      * rewrite O3, O2, O1 by lia. now rewrite Nat.max_0_r.
Qed.

Lemma group_fold {X} (f : list nat -> X -> res (list nat))
    (part : nat -> X -> nat) (n : nat) (items : list X) :
  (forall w x, In x items -> List.length w = n ->
     exists w', f w x = Ok w' /\ List.length w' = n
                /\ forall col,
                     nth col w' 0 = Nat.max (nth col w 0) (part col x)) ->
  forall w,
    List.length w = n ->
    exists w',
      res_fold f items w = Ok w' /\ List.length w' = n
      /\ forall col,
           nth col w' 0
           = Nat.max (nth col w 0)
               (list_max (map (part col) items)).
Proof.
  induction items as [|x items IH]; intros H w L.
  - exists w. split; [reflexivity|]. split; trivial.
    intros col. simpl. now rewrite Nat.max_0_r.
  - destruct (H w x (or_introl eq_refl) L) as (w1 & E1 & L1 & N1).
    destruct (IH (fun w y Hy => H w y (or_intror Hy)) w1 L1)
      as (w2 & E2 & L2 & N2).
    exists w2. cbn [res_fold]. rewrite E1. cbn [res_bind].
    split; [exact E2|]. split; trivial.
    intros col. rewrite N2, N1. cbn [map list_max fold_right].
    now rewrite Nat.max_assoc.
Qed.

Lemma list_max_filter {X} (p : X -> bool) (g : X -> nat) (l : list X) :
  list_max (map (fun x => if p x then g x else 0) l)
  = list_max (map g (filter p l)).
Proof.
  unfold list_max. induction l as [|x l IH]; trivial.
  cbn [map filter fold_right]. rewrite IH.
  destruct (p x); reflexivity.
Qed.

Lemma list_max_same (d : string) (g : string -> nat) (l : list string) :
  In d l -> list_max (map g (filter (String.eqb d) l)) = g d.
Proof.
  induction l as [|x l IH]; intros H; [destruct H|].
  cbn [filter]. destruct (String.eqb_spec d x) as [<-|N].
  - change (list_max (map g (d :: filter (String.eqb d) l)))
      with (Nat.max (g d) (list_max (map g (filter (String.eqb d) l)))).
    destruct (in_dec string_dec d l) as [I|I].
    + rewrite (IH I). apply Nat.max_id.
    + assert (Z : filter (String.eqb d) l = []).
      { clear - I. induction l as [|y l IH]; trivial. cbn [filter].
        destruct (String.eqb_spec d y) as [->|_].
        - destruct I. now left.
        - apply IH. intros H. apply I. now right. }
      rewrite Z. simpl. apply Nat.max_0_r.
  - destruct H as [->|H]; [congruence|]. now apply IH.
Qed.

Lemma fold_max_list_max (l : list nat) :
  forall a, fold_left Nat.max l a = Nat.max a (list_max l).
Proof.
  induction l as [|x l IH]; intros a; simpl.
  - now rewrite Nat.max_0_r.
  - rewrite IH. now rewrite Nat.max_assoc.
Qed.

Lemma group_part_mae (k di a b c : nat) :
  group_part (1 + 3 * k) di a b c = if di =? k then a else 0.
Proof.
  unfold group_part.
  destruct (Nat.eqb_spec di k) as [->|N].
  - now rewrite Nat.eqb_refl.
  - destruct (Nat.eqb_spec (1 + 3 * k) (1 + 3 * di)); [lia|].
    destruct (Nat.eqb_spec (1 + 3 * k) (1 + 3 * di + 1)); [lia|].
    destruct (Nat.eqb_spec (1 + 3 * k) (1 + 3 * di + 2)); [lia|].
    reflexivity.
Qed.

Lemma group_part_rmse (k di a b c : nat) :
  group_part (1 + 3 * k + 1) di a b c = if di =? k then b else 0.
Proof.
  unfold group_part.
  destruct (Nat.eqb_spec di k) as [->|N].
  - destruct (Nat.eqb_spec (1 + 3 * k + 1) (1 + 3 * k)); [lia|].
    now rewrite Nat.eqb_refl.
  - destruct (Nat.eqb_spec (1 + 3 * k + 1) (1 + 3 * di)); [lia|].
    destruct (Nat.eqb_spec (1 + 3 * k + 1) (1 + 3 * di + 1)); [lia|].
    destruct (Nat.eqb_spec (1 + 3 * k + 1) (1 + 3 * di + 2)); [lia|].
    reflexivity.
Qed.

Lemma group_part_mape (k di a b c : nat) :
  group_part (1 + 3 * k + 2) di a b c = if di =? k then c else 0.
Proof.
  unfold group_part.
  destruct (Nat.eqb_spec di k) as [->|N].
  - destruct (Nat.eqb_spec (1 + 3 * k + 2) (1 + 3 * k)); [lia|].
    destruct (Nat.eqb_spec (1 + 3 * k + 2) (1 + 3 * k + 1)); [lia|].
    now rewrite Nat.eqb_refl.
  - destruct (Nat.eqb_spec (1 + 3 * k + 2) (1 + 3 * di)); [lia|].
    destruct (Nat.eqb_spec (1 + 3 * k + 2) (1 + 3 * di + 1)); [lia|].
    destruct (Nat.eqb_spec (1 + 3 * k + 2) (1 + 3 * di + 2)); [lia|].
    reflexivity.
Qed.

Lemma group_part_first (di a b c : nat) : group_part 0 di a b c = 0.
Proof. reflexivity. Qed.

Lemma list_max_zero {X} (l : list X) : list_max (map (fun _ => 0) l) = 0.
Proof. induction l as [|x l IH]; trivial. Qed.

Lemma column_group_at (datasets : list string) (k : nat) (d : string) :
  NoDup datasets -> nth_error datasets k = Some d ->
  column_group datasets d = k.
Proof.
  intros ND H. unfold column_group. now rewrite (index_dict_at _ _ _ ND H).
Qed.

Lemma column_group_eqb (datasets : list string) (k : nat) (d x : string) :
  NoDup datasets -> nth_error datasets k = Some d -> In x datasets ->
  (column_group datasets x =? k) = String.eqb x d.
Proof.
  intros ND H Hx. destruct (In_nth_error _ _ Hx) as (j & Hj).
  rewrite (column_group_at _ _ _ ND Hj).
  destruct (String.eqb_spec x d) as [->|N].
  - rewrite (nth_error_unique _ _ _ _ ND Hj H). apply Nat.eqb_refl.
  - apply Nat.eqb_neq. intros ->. congruence.
Qed.

(** The part of a column group that one pass of updates contributes:
    the longest of the lengths [g] of the items under dataset [d]. *)
Lemma pass_part {X} (datasets : list string) (ds : X -> string)
    (part : X -> nat) (g : X -> nat) (items : list X) (k : nat)
    (d : string) :
  NoDup datasets -> nth_error datasets k = Some d ->
  (forall x, In x items -> In (ds x) datasets) ->
  (forall x, part x = if column_group datasets (ds x) =? k then g x else 0) ->
  list_max (map part items)
  = list_max (map g (filter (fun x => String.eqb (ds x) d) items)).
Proof.
  intros ND H Hin Hp.
  rewrite (map_ext _ _ Hp), list_max_filter. do 2 f_equal.
  apply filter_ext_in. intros x Hx.
  apply (column_group_eqb _ _ _ _ ND H (Hin x Hx)).
Qed.

Lemma summary_widths_exact (models datasets : list string)
    (values : dict run_key cell) :
  models <> [] -> NoDup datasets ->
  (forall key c, In (key, c) values -> In (snd key) datasets) ->
  exists W,
    summary_widths models datasets (index_dict datasets) values = Ok W
    /\ List.length W = 1 + 3 * List.length datasets
    /\ nth 0 W 0 = list_max (7 :: map String.length models)
    /\ forall k d,
         nth_error datasets k = Some d ->
         nth (1 + 3 * k) W 0
         = list_max (3 :: String.length d
                       :: map mae_len (cells_of values d))
         /\ nth (1 + 3 * k + 1) W 0
            = list_max (4 :: map rmse_len (cells_of values d))
         /\ nth (1 + 3 * k + 2) W 0
            = list_max (4 :: map mape_len (cells_of values d)).
Proof.
  intros NE ND Hv. unfold summary_widths.
  destruct models as [|m0 ms]; [congruence|].
  cbn [map py_max_nat res_bind]. rewrite fold_max_list_max.
  set (n := 1 + 3 * List.length datasets).
  destruct (list_set_ok 0 (repeat 0 n) 0
              (Nat.max (String.length "Model")
                 (Nat.max (String.length "Dataset")
                    (Nat.max (String.length "Metric")
                       (Nat.max (String.length m0)
                          (list_max (map String.length ms)))))))
    as (W0 & -> & L0 & H0 & O0).
  { rewrite repeat_length. unfold n. lia. }
  cbn [res_bind]. rewrite repeat_length in L0.
  assert (Z0 : forall col, col <> 0 -> nth col W0 0 = 0).
  { intros col Hc. rewrite (O0 col Hc). apply nth_repeat. }
  set (part1 := fun (col : nat) (d : string) =>
         group_part col (column_group datasets d)
           (Nat.max 3 (String.length d)) 4 4).
  destruct (group_fold
              (fun w d =>
                 w <- bump_group (index_dict datasets) w d
                        (Nat.max (String.length "MAE") (String.length d))
                        (String.length "RMSE") (String.length "MAPE") ;;
                 Ok w)
              part1 n datasets) with (w := W0)
    as (W1 & -> & L1 & N1); trivial.
  { intros w d Hd Lw. destruct (In_nth_error _ _ Hd) as (k & Hk).
    destruct (bump_group_exact (index_dict datasets) w d k
                (Nat.max (String.length "MAE") (String.length d))
                (String.length "RMSE") (String.length "MAPE"))
      as (w' & -> & Lw' & G).
    - now apply index_dict_at.
    - assert (k < List.length datasets)
        by (apply nth_error_Some; congruence).
      unfold n in Lw. lia.
    - exists w'. split; [reflexivity|]. split; [congruence|].
      intros col. unfold part1.
      rewrite (column_group_at _ _ _ ND Hk). apply G. }
  cbn [res_bind].
  set (part2 := fun (col : nat) (it : run_key * cell) =>
         group_part col (column_group datasets (snd (fst it)))
           (mae_len (snd it)) (rmse_len (snd it)) (mape_len (snd it))).
  destruct (group_fold
              (fun w (item : run_key * cell) =>
                 let '((m, d), (mae_s, rmse_s, mape_s)) := item in
                 bump_group (index_dict datasets) w d
                   (String.length mae_s) (String.length rmse_s)
                   (String.length mape_s))
              part2 n values) with (w := W1)
    as (W2 & -> & L2 & N2); trivial.
  { intros w [[m d] [[a b] c]] Hin Lw.
    pose proof (Hv _ _ Hin) as Hd. simpl in Hd.
    destruct (In_nth_error _ _ Hd) as (k & Hk).
    destruct (bump_group_exact (index_dict datasets) w d k
                (String.length a) (String.length b) (String.length c))
      as (w' & -> & Lw' & G).
    - now apply index_dict_at.
    - assert (k < List.length datasets)
        by (apply nth_error_Some; congruence).
      unfold n in Lw. lia.
    - exists w'. split; [reflexivity|]. split; [congruence|].
      intros col. unfold part2. cbn [fst snd].
      rewrite (column_group_at _ _ _ ND Hk). apply G. }
  exists W2. split; [reflexivity|]. split; [exact L2|]. split.
  - rewrite N2, N1, H0.
    rewrite (map_ext (part2 0) (fun _ => 0)) by reflexivity.
    rewrite (map_ext (part1 0) (fun _ => 0)) by reflexivity.
    rewrite !list_max_zero. unfold list_max. cbn [fold_right map].
    cbn [String.length]. lia.
  - intros k d Hk.
    assert (Hv' : forall it : run_key * cell,
               In it values -> In (snd (fst it)) datasets).
    { intros [key c] Hin. exact (Hv _ _ Hin). }
    assert (C : forall g : cell -> nat,
               list_max (map (fun it : run_key * cell => g (snd it))
                           (filter (fun it : run_key * cell =>
                                      String.eqb (snd (fst it)) d) values))
               = list_max (map g (cells_of values d))).
    { intros g. unfold cells_of. now rewrite map_map. }
    repeat split.
    + rewrite N2, N1, Z0 by lia.
      rewrite (@pass_part string datasets (fun d => d) (part1 (1 + 3 * k))
                 (fun d => Nat.max 3 (String.length d)) datasets k d
                 ND Hk (fun x Hx => Hx)
                 (fun x => group_part_mae k _ _ _ _)).
      rewrite (@pass_part (run_key * cell) datasets
                 (fun it => snd (fst it))
                 (part2 (1 + 3 * k)) (fun it => mae_len (snd it))
                 values k d ND Hk Hv'
                 (fun x => group_part_mae k _ _ _ _)).
      rewrite C.
      rewrite (filter_ext (fun x => String.eqb x d) (String.eqb d))
        by (intros x; apply String.eqb_sym).
      rewrite (list_max_same d (fun d => Nat.max 3 (String.length d)))
        by (eapply nth_error_In; eauto).
      unfold list_max. cbn [fold_right]. lia.
    + rewrite N2, N1, Z0 by lia.
      rewrite (@pass_part string datasets (fun d => d) (part1 (1 + 3 * k + 1))
                 (fun _ => 4) datasets k d
                 ND Hk (fun x Hx => Hx)
                 (fun x => group_part_rmse k _ _ _ _)).
      rewrite (@pass_part (run_key * cell) datasets
                 (fun it => snd (fst it))
                 (part2 (1 + 3 * k + 1)) (fun it => rmse_len (snd it))
                 values k d ND Hk Hv'
                 (fun x => group_part_rmse k _ _ _ _)).
      rewrite C.
      rewrite (filter_ext (fun x => String.eqb x d) (String.eqb d))
        by (intros x; apply String.eqb_sym).
      rewrite (list_max_same d (fun _ => 4))
        by (eapply nth_error_In; eauto).
      unfold list_max. cbn [fold_right]. lia.
    + rewrite N2, N1, Z0 by lia.
      rewrite (@pass_part string datasets (fun d => d) (part1 (1 + 3 * k + 2))
                 (fun _ => 4) datasets k d
                 ND Hk (fun x Hx => Hx)
                 (fun x => group_part_mape k _ _ _ _)).
      rewrite (@pass_part (run_key * cell) datasets
                 (fun it => snd (fst it))
                 (part2 (1 + 3 * k + 2)) (fun it => mape_len (snd it))
                 values k d ND Hk Hv'
                 (fun x => group_part_mape k _ _ _ _)).
      rewrite C.
      rewrite (filter_ext (fun x => String.eqb x d) (String.eqb d))
        by (intros x; apply String.eqb_sym).
      rewrite (list_max_same d (fun _ => 4))
        by (eapply nth_error_In; eauto).
      unfold list_max. cbn [fold_right]. lia.
Qed.

(** X21: when the leaderboard is laid out, every column is exactly as wide
    as its longest text.  The first column has the width of the longest
    model name, and 7 ("Dataset") at least; in the group of a dataset
    the MAE column has the width of the longest MAE text of that
    dataset or of the dataset's name, which heads that column, and 3
    ("MAE") at least; the RMSE and MAPE columns have the width of their
    longest text, and 4 at least. *)
Theorem leaderboard_widths_are_tight :
  forall (float_of_str : string -> option float)
         (repr_of : pyval -> string)
         (best : dict run_key run) (sl : summary_layout),
    summary_prepare float_of_str repr_of best = Ok sl ->
    List.length (sl_widths sl) = 1 + 3 * List.length (sl_datasets sl)
    /\ nth 0 (sl_widths sl) 0
       = list_max (7 :: map String.length (sl_models sl))
    /\ forall k d,
         nth_error (sl_datasets sl) k = Some d ->
         nth (1 + 3 * k) (sl_widths sl) 0
         = list_max (3 :: String.length d
                       :: map mae_len (cells_of (sl_values sl) d))
         /\ nth (1 + 3 * k + 1) (sl_widths sl) 0
            = list_max (4 :: map rmse_len (cells_of (sl_values sl) d))
         /\ nth (1 + 3 * k + 2) (sl_widths sl) 0
            = list_max (4 :: map mape_len (cells_of (sl_values sl) d)).
Proof.
  intros float_of_str repr_of best sl. unfold summary_prepare.
  destruct (model_avg_mae best (model_names best) (dataset_names best))
    as [avg|e]; cbn [res_bind]; [|discriminate].
  destruct (cell_values float_of_str repr_of best
              (rank_models avg (model_names best)) (dataset_names best))
    as [values|e] eqn:Ev; cbn [res_bind]; [|discriminate].
  destruct (cell_values_spec _ _ _ _ _ _ Ev) as (_ & Hkeys & _).
  destruct (list_eq_dec string_dec (rank_models avg (model_names best)) [])
    as [E|NE].
  - rewrite E. discriminate.
  - destruct (summary_widths_exact (rank_models avg (model_names best))
                (dataset_names best) values NE (sorted_set_NoDup _) Hkeys)
      as (W & -> & LW & H0 & Hg).
    cbn [res_bind]. intros [= <-]. simpl. auto.
Qed.

(* ===================================================================== *)
(** * The further properties on sample trees *)
(* ===================================================================== *)

Lemma report_overflows_only_on_int_metrics_witness :
  (Z.of_nat (List.length [c3_good]) < 2 ^ 53)%Z
  /\ snd (report sample_float_of_str sample_repr_of
            (fst (collect_all_runs [c3_good])))
     <> Raise OverflowError.
Proof.
  split; [reflexivity|].
  apply report_overflows_only_on_int_metrics.
  - reflexivity.
  - intros e key r [<-|[]] E. vm_compute in E. injection E as <- <-.
    split; reflexivity.
Defined.

Lemma horizon_key_round_trip_witness :
  String.length (str_of_N (Z.abs_N (-12))) <= 4300
  /\ horizon_of_key "horizon_-12" = Some (-12)%Z
  /\ exists row,
       file_rows c3_good "ModelB" "PEMS04_1"
         [("horizon_-12", PDict [("MAE", PFloat f_one)])] []
       = Ok [row]
       /\ h_horizon row = (-12)%Z.
Proof.
  assert (L : String.length (str_of_N (Z.abs_N (-12))) <= 4300)
    by (apply Nat.leb_le; reflexivity).
  destruct (horizon_key_round_trip (-12) c3_good "ModelB" "PEMS04_1"
              [("MAE", PFloat f_one)] L) as (A & B & _).
  split; [exact L|]. split; [exact A | exact B].
Defined.

Lemma detail_tables_list_every_run_witness :
  fst (print_detail_tables sample_float_of_str sample_repr_of
         (fst (collect_all_runs [c3_good])))
  = List.concat
      (map (fun d =>
              fst (print_detail_table sample_float_of_str sample_repr_of
                     (fst (collect_all_runs [c3_good])) d))
         (dataset_names (fst (collect_all_runs [c3_good]))))
  /\ (forall d, In d (dataset_names (fst (collect_all_runs [c3_good]))) ->
        exists W header body,
          print_detail_table sample_float_of_str sample_repr_of
            (fst (collect_all_runs [c3_good])) d
          = (EmptyString :: detail_title d
               :: grid (border_line W) [header] body, Ok tt)
          /\ List.length body
             = List.length (rows_for (fst (collect_all_runs [c3_good])) d)
          /\ body <> [])
  /\ List.length
       (fst (print_detail_tables sample_float_of_str sample_repr_of
               (fst (collect_all_runs [c3_good]))))
     = 6 * List.length (dataset_names (fst (collect_all_runs [c3_good])))
       + List.length (filter eligible [c3_good]).
Proof.
  apply (detail_tables_list_every_run sample_float_of_str sample_repr_of
           [c3_good]).
  vm_compute. reflexivity.
Defined.

Lemma overall_row_matches_run_witness :
  exists row,
    In row (flat_map rows_or_nil [c3_good])
    /\ h_horizon row = 0%Z
    /\ h_model row = "ModelB" /\ h_dataset row = "PEMS04"
    /\ h_setting row = r_setting c3_run /\ h_path row = r_path c3_run
    /\ h_time row = r_time c3_run /\ h_timestamp row = r_timestamp c3_run
    /\ h_MAE row = r_MAE c3_run /\ h_MAPE row = r_MAPE c3_run
    /\ h_RMSE row = r_RMSE c3_run.
Proof.
  apply (overall_row_matches_run [c3_good] [] (flat_map rows_or_nil [c3_good])
           c3_good ("ModelB", "PEMS04") c3_run c3_items (PDict c3_overall));
    try reflexivity.
  now left.
Defined.

Lemma horizon_rows_belong_to_runs_witness :
  exists e key r runs,
    In e [c3_good] /\ entry_run e = Some (key, r)
    /\ dict_get key_eqb (fst (collect_all_runs [c3_good])) key = Some runs
    /\ In r runs
    /\ h_model c3_row = fst key /\ h_dataset c3_row = snd key
    /\ h_setting c3_row = r_setting r /\ h_path c3_row = r_path r
    /\ h_time c3_row = r_time r /\ h_timestamp c3_row = r_timestamp r.
Proof.
  apply (horizon_rows_belong_to_runs [c3_good] []
           (flat_map rows_or_nil [c3_good]) c3_row).
  - reflexivity.
  - left. reflexivity.
Defined.

Lemma wandb_main_logs_three_tables_witness :
  exists rows1 rows2 rows3 items,
    WandbVisualize.main sample_float_of_str "root" "basicts-test-metrics"
      None "20240101-100000" [c8_unreadable; c3_good]
    = {| WandbVisualize.stdout := [done_message];
         WandbVisualize.stderr :=
           flat_map entry_warning [c8_unreadable; c3_good]
           ++ flat_map entry_horizon_warning [c8_unreadable; c3_good];
         WandbVisualize.calls :=
           full_calls "basicts-test-metrics"
             (run_name_or None "20240101-100000") "root"
             rows1 rows2 rows3;
         WandbVisualize.status := Ok tt |}
    /\ Permutation (map fst items)
         (first_seen (keys_of_walk [c8_unreadable; c3_good]))
    /\ StronglySorted (fun a b => key_leb (fst a) (fst b) = true) items
    /\ Forall2
         (fun (item : run_key * run) row =>
            firstn 2 row = [WStr (fst (fst item)); WStr (snd (fst item))]
            /\ skipn 5 row
               = [WStr (r_setting (snd item)); WStr (r_time (snd item));
                  WStr (r_path (snd item))])
         items rows1
    /\ List.length rows2
       = List.length (filter eligible [c8_unreadable; c3_good])
    /\ List.length rows3
       = List.length (flat_map rows_or_nil [c8_unreadable; c3_good]).
Proof.
  apply (wandb_main_logs_three_tables sample_float_of_str "root"
           "basicts-test-metrics" "20240101-100000" None
           [c8_unreadable; c3_good]).
  - intros x [<-|[<-|[]]]; reflexivity.
  - intros e key r [<-|[<-|[]]] E; vm_compute in E; [discriminate|].
    injection E as <- <-. intros v [<-|[<-|[<-|[]]]]; eexists; reflexivity.
  - intros row Hrow. vm_compute in Hrow.
    destruct Hrow as [<-|[<-|[]]];
      intros v [<-|[<-|[<-|[]]]]; eexists; reflexivity.
Defined.

Lemma wandb_main_stops_on_unconvertible_metric_witness :
  exists ex,
    WandbVisualize.status
      (WandbVisualize.main sample_float_of_str "root"
         "basicts-test-metrics" None "20240101-100000" [text_mape_entry])
    = Raise ex
    /\ WandbVisualize.stdout
         (WandbVisualize.main sample_float_of_str "root"
            "basicts-test-metrics" None "20240101-100000"
            [text_mape_entry]) = []
    /\ (WandbVisualize.calls
          (WandbVisualize.main sample_float_of_str "root"
             "basicts-test-metrics" None "20240101-100000"
             [text_mape_entry])
        = [WandbInit "basicts-test-metrics"
             (run_name_or None "20240101-100000") "root"]
        \/ exists rows1,
             WandbVisualize.calls
               (WandbVisualize.main sample_float_of_str "root"
                  "basicts-test-metrics" None "20240101-100000"
                  [text_mape_entry])
             = [WandbInit "basicts-test-metrics"
                  (run_name_or None "20240101-100000") "root";
                WandbLog "summary/best_runs" run_columns rows1]).
Proof.
  apply (wandb_main_stops_on_unconvertible_metric sample_float_of_str
           "root" "basicts-test-metrics" "20240101-100000" None
           [text_mape_entry] text_mape_entry ("ModelA", "PEMS04")
           {| r_MAE := PFloat f_one; r_RMSE := PNone;
              r_MAPE := PStr "n/a";
              r_path := "root/ModelA/PEMS04_1/x/test_metrics.json";
              r_setting := "PEMS04_1"; r_time := "2024-01-01 10:00";
              r_timestamp := S754_zero false |} (PStr "n/a")).
  - intros x [<-|[]]. reflexivity.
  - now left.
  - reflexivity.
  - simpl. auto.
  - intros [c H]. discriminate H.
Defined.

Lemma wandb_main_warns_twice_witness :
  exists a b c,
    WandbVisualize.stderr
      (WandbVisualize.main sample_float_of_str "root"
         "basicts-test-metrics" None "20240101-100000"
         [c8_unreadable; c3_good])
    = a ++ warn_line (path_join (dirpath c8_unreadable) metrics_name)
             (OSError "Expecting value: line 1 column 1 (char 0)")
        :: b ++ warn_line (path_join (dirpath c8_unreadable) metrics_name)
                  (OSError "Expecting value: line 1 column 1 (char 0)")
           :: c.
Proof.
  apply (wandb_main_warns_twice sample_float_of_str "root"
           "basicts-test-metrics" "20240101-100000" None
           [c8_unreadable; c3_good] c8_unreadable
           (OSError "Expecting value: line 1 column 1 (char 0)")).
  - intros x [<-|[<-|[]]]; reflexivity.
  - now left.
  - reflexivity.
  - reflexivity.
  - simpl. repeat constructor.
Defined.

Lemma int_metric_is_shown_exactly_witness :
  fmt_metric 2 (PInt 5) = Ok "5.00".
Proof.
  apply (int_metric_is_shown_exactly 1 5). reflexivity.
Defined.

Lemma leaderboard_widths_are_tight_witness :
  summary_prepare sample_float_of_str sample_repr_of c9_best = Ok c9_layout
  /\ nth 1 (sl_widths c9_layout) 0 = 6
  /\ nth 2 (sl_widths c9_layout) 0 = 5
  /\ nth 3 (sl_widths c9_layout) 0 = 6.
Proof.
  assert (E : summary_prepare sample_float_of_str sample_repr_of c9_best
              = Ok c9_layout) by (vm_compute; reflexivity).
  split; [exact E|].
  destruct (leaderboard_widths_are_tight _ _ _ _ E) as (_ & _ & G).
  destruct (G 0 "PEMS04" eq_refl) as (G1 & G2 & G3).
  split; [exact G1 | split; [exact G2 | exact G3]].
Defined.
